(** * ai-test-driven: the repair-cycle orchestrator of [ai_pair/src/AIPairRunner.js]

    A shallow embedding of the [AIPairRunner] class and of the entry script
    [AIPair.js].  JavaScript strings are Rocq strings whose characters stand
    for UTF-16 code units below 256 (the Latin-1 range); JavaScript objects
    used as dictionaries are [gmap]s from property names to values; methods
    that touch the file system, the terminal, the test runner or the AI
    backend are computations in a state-and-outcome monad that records every
    such interaction in a trace. *)

From Stdlib Require Import Ascii String NArith ZArith Lia DecimalString.
From stdpp Require Import base option list gmap strings.

Local Open Scope string_scope.
Local Open Scope list_scope.

(** ** JavaScript string primitives *)

Module JS.

(** The line feed of the template literals. *)
Definition LF : string := String (ascii_of_nat 10) "".

(** The double quote of Node's error messages. *)
Definition DQ : string := String (ascii_of_nat 34) "".

(** [String.prototype.toLowerCase] on one code unit of the Latin-1 range:
    A-Z, and the accented capitals U+00C0-U+00DE except the multiplication
    sign U+00D7, move up by 32; every other code unit is its own lower
    case. *)
Definition char_toLowerCase (c : ascii) : ascii :=
  let n := N_of_ascii c in
  if ((65 <=? n) && (n <=? 90)
      || (192 <=? n) && (n <=? 222) && negb (n =? 215))%N
  then ascii_of_N (n + 32) else c.

Fixpoint toLowerCase (s : string) : string :=
  match s with
  | "" => ""
  | String c s' => String (char_toLowerCase c) (toLowerCase s')
  end.

(** White space of [String.prototype.trim] below 256: TAB, LF, VT, FF, CR,
    SPACE and the no-break space U+00A0. *)
Definition is_white (c : ascii) : bool :=
  let n := N_of_ascii c in
  ((9 <=? n) && (n <=? 13) || (n =? 32) || (n =? 160))%N.

Fixpoint trimStart (s : string) : string :=
  match s with
  | "" => ""
  | String c s' => if is_white c then trimStart s' else s
  end.

(** [trimEnd] keeps a character when it is not white space or when something
    that is kept follows it. *)
Fixpoint trimEnd (s : string) : string :=
  match s with
  | "" => ""
  | String c s' =>
      match trimEnd s' with
      | "" => if is_white c then "" else String c ""
      | t => String c t
      end
  end.

Definition trim (s : string) : string := trimEnd (trimStart s).

(** [s.startsWith(p)] *)
Fixpoint startsWith (p s : string) : bool :=
  match p, s with
  | "", _ => true
  | String a p', String b s' => if Ascii.eqb a b then startsWith p' s' else false
  | String _ _, "" => false
  end.

(** [s.includes(p)] *)
Fixpoint includes (p s : string) : bool :=
  startsWith p s ||
  match s with
  | "" => false
  | String _ s' => includes p s'
  end.

(** [s.substring(0, n)] *)
Fixpoint substring0 (n : nat) (s : string) : string :=
  match n, s with
  | S n', String c s' => String c (substring0 n' s')
  | _, _ => ""
  end.

Fixpoint drop (n : nat) (s : string) : string :=
  match n, s with
  | S n', String _ s' => drop n' s'
  | _, _ => s
  end.

(** [s.split(sep)] for a one-character separator: never the empty array. *)
Fixpoint split (sep : ascii) (s : string) : list string :=
  match s with
  | "" => [""]
  | String c s' =>
      if Ascii.eqb c sep then "" :: split sep s'
      else match split sep s' with
           | h :: t => String c h :: t
           | [] => [String c ""]
           end
  end.

(** [parts.join(sep)] *)
Fixpoint join (sep : string) (l : list string) : string :=
  match l with
  | [] => ""
  | [x] => x
  | x :: l' => x +:+ sep +:+ join sep l'
  end.

(** [s.replace(/c/g, d)] for a one-character class [c] and a replacement
    [d] without dollar signs. *)
Fixpoint replaceAllChar (c d : ascii) (s : string) : string :=
  match s with
  | "" => ""
  | String a s' => String (if Ascii.eqb a c then d else a) (replaceAllChar c d s')
  end.

(** The run of characters other than [c] at the head of [s], and the rest. *)
Fixpoint span_not (c : ascii) (s : string) : string * string :=
  match s with
  | "" => ("", "")
  | String a s' =>
      if Ascii.eqb a c then ("", s)
      else let '(run, rest) := span_not c s' in (String a run, rest)
  end.

(** [s.match(/\(([^)]+)\)/)]: the first capture group of the leftmost match,
    or [None] for [null].  At an opening parenthesis the greedy class takes
    every character up to the next closing parenthesis; giving characters
    back cannot help, so the attempt at this position succeeds exactly when
    that run is not empty and a closing parenthesis follows it. *)
Fixpoint match_paren_group (s : string) : option string :=
  match s with
  | "" => None
  | String a s' =>
      if Ascii.eqb a "("%char then
        match span_not ")"%char s' with
        | (String g gs, String _ _) => Some (String g gs)
        | _ => match_paren_group s'
        end
      else match_paren_group s'
  end.

(** The leftmost occurrence of [pat] in [s]: the text before it and the
    text after it. *)
Fixpoint find (pat s : string) : option (string * string) :=
  if startsWith pat s then Some ("", drop (String.length pat) s)
  else match s with
       | "" => None
       | String c s' =>
           match find pat s' with
           | Some (before, after) => Some (String c before, after)
           | None => None
           end
       end.

(** GetSubstitution for a string pattern (no capture groups): [$$] is a
    dollar, [$&] the matched text, [$`] the text before the match and [$']
    the text after it; any other dollar stands for itself. *)
Fixpoint getSubstitution (matched before after repl : string) : string :=
  match repl with
  | "" => ""
  | String c r' =>
      if Ascii.eqb c "$"%char then
        match r' with
        | String d r'' =>
            if Ascii.eqb d "$"%char then String "$"%char (getSubstitution matched before after r'')
            else if Ascii.eqb d "&"%char then matched +:+ getSubstitution matched before after r''
            else if Ascii.eqb d "`"%char then before +:+ getSubstitution matched before after r''
            else if Ascii.eqb d "'"%char then after +:+ getSubstitution matched before after r''
            else String "$"%char (getSubstitution matched before after r')
        | "" => "$"
        end
      else String c (getSubstitution matched before after r')
  end.

(** [s.replace(pat, repl)] with a string pattern: only the first occurrence
    is replaced. *)
Definition replace (pat repl s : string) : string :=
  match find pat s with
  | Some (before, after) =>
      before +:+ getSubstitution pat before after repl +:+ after
  | None => s
  end.

(** [`${n}`] for an array length. *)
Definition ofNat (n : nat) : string := NilZero.string_of_uint (Nat.to_uint n).

End JS.

(** ** JavaScript values and objects used as dictionaries *)

(** The values that reach the runner's dictionaries and fields and the
    parsed command line: [undefined]; a string; a member that a property
    lookup inherits from [Object.prototype] (a built-in function, or the
    prototype object itself for [__proto__]); and what [minimist] makes of an
    option that is not plain text: a number for a value that looks like one,
    a boolean for a bare or negated flag, an array for a repeated option.  A
    number is kept as the text that [String] gives for it, an array as its
    elements joined by commas, which is the text that [String] gives for
    it. *)
Inductive JsVal : Type :=
| VUndefined
| VString (s : string)
| VNative (name : string)
| VNumber (text : string)
| VBool (b : bool)
| VArray (joined : string).

Global Instance JsVal_eq_dec : EqDecision JsVal.
Proof. solve_decision. Defined.

(** The property names every plain object inherits. *)
Definition object_prototype_keys : list string :=
  [ "constructor"; "__defineGetter__"; "__defineSetter__"; "hasOwnProperty";
    "__lookupGetter__"; "__lookupSetter__"; "isPrototypeOf";
    "propertyIsEnumerable"; "toString"; "valueOf"; "__proto__";
    "toLocaleString" ].

(** [o[k]] on an object literal: an own property, else an inherited member,
    else [undefined]. *)
Definition obj_get (o : gmap string JsVal) (k : string) : JsVal :=
  match o !! k with
  | Some v => v
  | None => if decide (k ∈ object_prototype_keys) then VNative k else VUndefined
  end.

(** ToString, as applied by template literals and by property keys. *)
Definition to_string (v : JsVal) : string :=
  match v with
  | VUndefined => "undefined"
  | VString s => s
  | VNative name =>
      if decide (name = "__proto__") then "[object Object]"
      else if decide (name = "constructor") then "function Object() { [native code] }"
      else "function " +:+ name +:+ "() { [native code] }"
  | VNumber text => text
  | VBool b => if b then "true" else "false"
  | VArray joined => joined
  end.

(** ToBoolean: of the numbers, zero (of either sign, both written [0]) and
    [NaN] are falsy; an array is truthy even when it is empty. *)
Definition truthy (v : JsVal) : bool :=
  match v with
  | VUndefined => false
  | VString s => negb (String.eqb s "")
  | VNative _ => true
  | VNumber text => negb (String.eqb text "0") && negb (String.eqb text "NaN")
  | VBool b => b
  | VArray _ => true
  end.

(** An optional environment variable or argument as a value. *)
Definition of_option (o : option string) : JsVal :=
  match o with
  | Some s => VString s
  | None => VUndefined
  end.

(** What a function call evaluates to when it is used as a condition. *)
Inductive JsResult : Type :=
| RUndefined
| RBool (b : bool).

Definition result_truthy (r : JsResult) : bool :=
  match r with
  | RUndefined => false
  | RBool b => b
  end.

(** ** The three backends *)

Inductive ClientClass : Type := ChatGPTClient | ClaudeClient | GeminiClient.

Global Instance ClientClass_eq_dec : EqDecision ClientClass.
Proof. solve_decision. Defined.

(** Modelled from the spec: the three backend variants behind
    [selectAIClient], one per provider family (the classes of [lib/ai], whose
    code is not part of this development).  An instance is built from an API
    key and a model and keeps them in the fields [apiKey] and [model] that
    [run] and [handleModelChange] read back. *)
Module Client.
Record t : Type := new { class : ClientClass; apiKey : JsVal; model : JsVal }.
End Client.

(** A collected file: [{ path, content }]. *)
Record SourceFile : Type := mkSourceFile { path : string; content : string }.

(** ** The runner object *)

Record AIPairRunner : Type := mkRunner {
  model : JsVal;
  projectRoot : string;
  extension : JsVal;
  testDir : string;
  apiKeys : gmap string JsVal;
  logLevel : JsVal;
  models : gmap string JsVal;
  tmpDir : string;
  systemPrompt : string;
  promptTemplate : string;
  accumulatedHints : list string;
  client : option Client.t;
  buildGradleContent : JsVal
}.

Definition set_accumulatedHints (h : list string) (r : AIPairRunner) : AIPairRunner :=
  mkRunner (model r) (projectRoot r) (extension r) (testDir r) (apiKeys r)
    (logLevel r) (models r) (tmpDir r) (systemPrompt r) (promptTemplate r)
    h (client r) (buildGradleContent r).

Definition set_client (c : Client.t) (r : AIPairRunner) : AIPairRunner :=
  mkRunner (model r) (projectRoot r) (extension r) (testDir r) (apiKeys r)
    (logLevel r) (models r) (tmpDir r) (systemPrompt r) (promptTemplate r)
    (accumulatedHints r) (Some c) (buildGradleContent r).

Definition set_buildGradleContent (b : JsVal) (r : AIPairRunner) : AIPairRunner :=
  mkRunner (model r) (projectRoot r) (extension r) (testDir r) (apiKeys r)
    (logLevel r) (models r) (tmpDir r) (systemPrompt r) (promptTemplate r)
    (accumulatedHints r) (client r) b.

Definition set_testDir (d : string) (r : AIPairRunner) : AIPairRunner :=
  mkRunner (model r) (projectRoot r) (extension r) d (apiKeys r)
    (logLevel r) (models r) (tmpDir r) (systemPrompt r) (promptTemplate r)
    (accumulatedHints r) (client r) (buildGradleContent r).

(** ** Interactions with the outside world *)

Inductive Sink : Type :=
| ConsoleLog | ConsoleError | StdoutWrite
| LoggerDebug | LoggerInfo | LoggerWarn | LoggerError.

Inductive Event : Type :=
| EvPrint (sink : Sink) (args : list string)
| EvQuestion (query answer : string)
| EvExistsSync (p : string)
| EvReadFileSync (p : string)
| EvAppendFileSync (p data : string)
| EvClearDirectory (p : string)
| EvCollectFiles (dirs : list string) (ext : JsVal)
| EvRunTests (root tmp : string)
| EvSummarizeAllTests (root tmp : string)
| EvGenerateCode (c : Client.t) (prompt tmp system : string)
| EvParseAndApply (root tmp : string) (ext : JsVal) (code : string)
| EvWatch (dirs : list string).

(** The process state: the runner object, the regular files on disk (path to
    text), the lines the user will still type, the interactions so far (most
    recent first) and the directories under watch. *)
Record State : Type := mkState {
  this : AIPairRunner;
  files : gmap string string;
  stdin : list string;
  trace : list Event;
  watched : list (list string)
}.

(** The interactions in the order they happened. *)
Definition history (st : State) : list Event := rev (trace st).

Definition set_this (r : AIPairRunner) (st : State) : State :=
  mkState r (files st) (stdin st) (trace st) (watched st).
Definition set_files (f : gmap string string) (st : State) : State :=
  mkState (this st) f (stdin st) (trace st) (watched st).
Definition set_stdin (l : list string) (st : State) : State :=
  mkState (this st) (files st) l (trace st) (watched st).
Definition record (e : Event) (st : State) : State :=
  mkState (this st) (files st) (stdin st) (e :: trace st) (watched st).
Definition add_watch (dirs : list string) (st : State) : State :=
  mkState (this st) (files st) (stdin st) (trace st) (watched st ++ [dirs]).

(** How a computation can stop short of returning: [process.exit(code)], an
    uncaught exception, or [readline] waiting for a line that never comes. *)
Inductive Stop : Type :=
| Exit (code : Z)
| Throw (err : string)
| AwaitInput.

Inductive Outcome (A : Type) : Type :=
| Returned (a : A)
| Stopped (why : Stop).
Arguments Returned {A} a.
Arguments Stopped {A} why.

Definition M (A : Type) : Type := State -> Outcome A * State.

Global Instance M_ret : MRet M := fun A a st => (Returned a, st).
Global Instance M_bind : MBind M := fun A B f m st =>
  match m st with
  | (Returned a, st') => f a st'
  | (Stopped why, st') => (Stopped why, st')
  end.

Definition getThis : M AIPairRunner := fun st => (Returned (this st), st).
Definition modifyThis (f : AIPairRunner -> AIPairRunner) : M unit :=
  fun st => (Returned tt, set_this (f (this st)) st).
Definition emit (e : Event) : M unit := fun st => (Returned tt, record e st).
Definition stop {A} (why : Stop) : M A := fun st => (Stopped why, st).

Definition print (sink : Sink) (args : list string) : M unit := emit (EvPrint sink args).

(** [process.exit(code)] *)
Definition process_exit {A} (code : Z) : M A := stop (Exit code).

(** [array.forEach(f)] *)
Fixpoint forEach {A} (f : A -> M unit) (l : list A) : M unit :=
  match l with
  | [] => mret tt
  | x :: l' => f x ;; forEach f l'
  end.

(** [array.map(f)] with a callback that has effects. *)
Fixpoint mapM {A B} (f : A -> M B) (l : list A) : M (list B) :=
  match l with
  | [] => mret []
  | x :: l' => y ← f x; ys ← mapM f l'; mret (y :: ys)
  end.

(** [fs.existsSync(p)] *)
Definition existsSync (p : string) : M bool := fun st =>
  (Returned (bool_decide (is_Some (files st !! p))), record (EvExistsSync p) st).

(** [fs.readFileSync(p, 'utf-8')] throws when there is no such file. *)
Definition readFileSync (p : string) : M string := fun st =>
  match files st !! p with
  | Some text => (Returned text, record (EvReadFileSync p) st)
  | None => (Stopped (Throw ("ENOENT: no such file or directory, open '" +:+ p +:+ "'")),
             record (EvReadFileSync p) st)
  end.

(** [chokidar.watch(dirs, { persistent: true }).on('change', listener)] *)
Definition chokidar_watch (dirs : list string) : M unit := fun st =>
  (Returned tt, add_watch dirs (record (EvWatch dirs) st)).

(** [readline.question(query)] of [readline-sync]: the next line typed by
    the user, handed over without its leading and trailing white space (the
    library trims unless [keepWhitespace] is set, and the runner sets no
    option).  [stdin] holds the lines as they are typed; the interaction
    records the answer as the program receives it. *)
Definition question (query : string) : M string := fun st =>
  match stdin st with
  | typed :: rest =>
      (Returned (JS.trim typed),
       record (EvQuestion query (JS.trim typed)) (set_stdin rest st))
  | [] => (Stopped AwaitInput, st)
  end.

(** ** The platform and the collaborators

    Node's [path] module, the process environment, the clock and the modules
    under [lib/] that the runner requires ([TestUtils], [FileUtils],
    [CodeParser], [ai/*]) are parameters: every theorem below holds for all
    the functions they may be.  The collaborators see the current files; the
    AI reply and the clock may also depend on how many interactions came
    before.  The collection of the files, the generation call and the
    application of the generated code may fail, and so may an append to a
    file whose directory is missing (the file map holds no directories, so
    the platform tells which appends fail): the failure is an exception that
    the runner does not catch. *)

(** What a call that may fail gives: a result, or the error it throws. *)
Inductive Attempt (A : Type) : Type :=
| Done (a : A)
| Failed (err : string).
Arguments Done {A} a.
Arguments Failed {A} err.

Record Platform : Type := mkPlatform {
  path_join : list string -> string;
  path_relative : string -> string -> string;
  path_resolve : list string -> string;
  process_cwd : string;
  dirname : string;
  toISOString : nat -> string;
  tests_pass : gmap string string -> string -> string -> bool;
  test_report : gmap string string -> string -> string -> string;
  failing_tests : gmap string string -> string -> string -> list string;
  collected_files : gmap string string -> list string -> JsVal -> Attempt (list SourceFile);
  cleared : string -> gmap string string -> gmap string string;
  applied : string -> string -> JsVal -> string -> gmap string string
            -> gmap string string * option string;
  ai_reply : Client.t -> string -> string -> string -> nat -> Attempt string;
  append_error : gmap string string -> string -> option string
}.

Section Runner.

Variable P : Platform.

(** *** Collaborators *)

(** Modelled from the spec: [runTests] of [lib/TestUtils] is invoked with
    the project root and a scratch directory, writes a plain-text report to
    a fixed file of the scratch directory and returns a pass/fail signal.
    The fixed file is the [test_output.txt] that the runner reads back. *)
Definition runTests (root tmp : string) : M bool := fun st =>
  let passed := tests_pass P (files st) root tmp in
  let report := test_report P (files st) root tmp in
  (Returned passed,
   record (EvRunTests root tmp)
     (set_files (<[path_join P [tmp; "test_output.txt"] := report]> (files st)) st)).

(** Modelled from the spec: [summarizeAllTests] of [lib/TestUtils] returns
    the ordered list of failing-test identifiers. *)
Definition summarizeAllTests (root tmp : string) : M (list string) := fun st =>
  (Returned (failing_tests P (files st) root tmp), record (EvSummarizeAllTests root tmp) st).

(** Modelled from the spec: [collectFilesWithExtension] of [lib/FileUtils]
    enumerates the files below the given roots whose name ends with the
    extension, each with its text read at call time; it has no side effect;
    a root directory that does not exist is a fatal error, and the failure
    to read a file propagates. *)
Definition collectFilesWithExtension (dirs : list string) (ext : JsVal)
  : M (list SourceFile) := fun st =>
  match collected_files P (files st) dirs ext with
  | Done found => (Returned found, record (EvCollectFiles dirs ext) st)
  | Failed err => (Stopped (Throw err), record (EvCollectFiles dirs ext) st)
  end.

(** Modelled from the spec: [clearDirectory] of [lib/FileUtils] clears a
    scratch directory. *)
Definition clearDirectory (dir : string) : M unit := fun st =>
  (Returned tt, record (EvClearDirectory dir) (set_files (cleared P dir (files st)) st)).

(** Modelled from the spec: [parseAndApplyGeneratedCode] of [lib/CodeParser]
    accepts the project root, the scratch directory, the extension and the
    raw generated text, and writes the resulting files; it may itself fail,
    which is fatal to the cycle.  When it fails it may already have written
    some of the files. *)
Definition parseAndApplyGeneratedCode (root tmp : string) (ext : JsVal) (code : string)
  : M unit := fun st =>
  let '(written, failure) := applied P root tmp ext code (files st) in
  let st' := record (EvParseAndApply root tmp ext code) (set_files written st) in
  match failure with
  | None => (Returned tt, st')
  | Some err => (Stopped (Throw err), st')
  end.

(** Modelled from the spec: the capability
    [generateCode(prompt, workDir, systemPrompt) -> text] of a backend; a
    failing generation call propagates out of the cycle.  The interaction is
    recorded when the call is made, whether or not it fails. *)
Definition generateCode (c : Client.t) (prompt tmp system : string) : M string := fun st =>
  match ai_reply P c prompt tmp system (length (trace st)) with
  | Done reply => (Returned reply, record (EvGenerateCode c prompt tmp system) st)
  | Failed err => (Stopped (Throw err), record (EvGenerateCode c prompt tmp system) st)
  end.

(** [new Date().toISOString()] *)
Definition now : M string := fun st => (Returned (toISOString P (length (trace st))), st).

(** [fs.appendFileSync(p, data)] creates the file when it is missing, and
    throws when the file cannot be opened for appending, as when its
    directory does not exist. *)
Definition appendFileSync (p data : string) : M unit := fun st =>
  match append_error P (files st) p with
  | None =>
      (Returned tt,
       record (EvAppendFileSync p data)
         (set_files (<[p := default "" (files st !! p) +:+ data]> (files st)) st))
  | Some err => (Stopped (Throw err), record (EvAppendFileSync p data) st)
  end.

(** *** class AIPairRunner *)

(** [this.models] *)
Definition models_table : gmap string JsVal :=
  <["gpt-4o" := VString "openai"]>
  (<["gpt-4o-mini" := VString "openai"]>
  (<["gpt-3.5-turbo" := VString "openai"]>
  (<["claude-3-5-sonnet-20241022" := VString "anthropic"]>
  (<["claude-3-5-sonnet" := VString "anthropic"]>
  (<["gemini-1.5-pro" := VString "gemini"]>
  (<["gemini-2" := VString "gemini"]> ∅)))))).

(** [constructor(model, projectRoot, testDir, extension, anthropicApiKey,
    openaiApiKey, geminiApiKey, logLevel)]: the two prompt files are read
    from the directory of the script. *)
Definition constructor (model : JsVal) (projectRoot testDir : string) (extension : JsVal)
    (anthropicApiKey openaiApiKey geminiApiKey logLevel : option string)
  : M AIPairRunner :=
  systemPrompt ← readFileSync (path_join P [dirname P; "prompts"; "system_prompt.txt"]);
  promptTemplate ← readFileSync (path_join P [dirname P; "prompts"; "prompt_template.txt"]);
  mret {|
    model := model;
    projectRoot := projectRoot;
    extension := extension;
    testDir := testDir;
    apiKeys := <["anthropic" := of_option anthropicApiKey]>
               (<["openai" := of_option openaiApiKey]>
               (<["gemini" := of_option geminiApiKey]> ∅));
    logLevel := of_option logLevel;
    models := models_table;
    tmpDir := path_join P [process_cwd P; "tmp"];
    systemPrompt := systemPrompt;
    promptTemplate := promptTemplate;
    accumulatedHints := [];
    client := None;
    buildGradleContent := VUndefined
  |}.

(** [getApiKeyForModel(model)] *)
Definition getApiKeyForModel (model : JsVal) : M JsVal :=
  self ← getThis;
  let family := obj_get (models self) (to_string model) in
  let apiKey := obj_get (apiKeys self) (to_string family) in
  if negb (truthy apiKey) then
    print ConsoleError ["Error: No API key found for " +:+ to_string family +:+ " model family."];;
    print ConsoleError ["Please set the appropriate environment variable."];;
    process_exit 1
  else mret apiKey.

(** [selectAIClient(apiKey, model)] *)
Definition selectAIClient (apiKey model : JsVal) : M Client.t :=
  self ← getThis;
  let family := obj_get (models self) (to_string model) in
  if decide (family = VString "openai") then
    mret (Client.new ChatGPTClient apiKey model)
  else if decide (family = VString "anthropic") then
    mret (Client.new ClaudeClient apiKey model)
  else if decide (family = VString "gemini") then
    mret (Client.new GeminiClient apiKey model)
  else
    print LoggerWarn ["Model not recognized, defaulting to ChatGPTClient."];;
    mret (Client.new ChatGPTClient apiKey model).

(** [modelMap] of [promptForModel], in the order of [Object.entries]. *)
Definition modelMap_entries : list (string * string) :=
  [ ("1", "gpt-4o"); ("2", "gpt-4o-mini"); ("3", "gpt-3.5-turbo");
    ("4", "claude-3-5-sonnet-20241022"); ("5", "gemini-1.5-pro"); ("6", "gemini-2") ].

Definition modelMap : gmap string JsVal :=
  list_to_map (prod_map id VString <$> modelMap_entries).

(** [promptForModel()] *)
Definition promptForModel : M JsVal :=
  print ConsoleLog ["Select a model:"];;
  forEach (fun '(key, model) => print ConsoleLog [key +:+ ". " +:+ model]) modelMap_entries;;
  modelChoice ← question "Enter the number of the model you want to use: ";
  let chosen := obj_get modelMap modelChoice in
  mret (if truthy chosen then chosen else VString "gpt-4o").

(** The callback of [failedTests.map], first step (lines 121-131): the text
    of the first parenthesised group if the string has an opening parenthesis
    and the pattern matches, else the string itself. *)
Definition rawClassName (test : string) : string :=
  if JS.includes "(" test then
    match JS.match_paren_group test with
    | Some group => group
    | None => test
    end
  else test.

(** Second step (lines 133-139): the last dot-separated part is dropped when
    it is not empty and its first character equals its own lower case. *)
Definition dropMethodName (className : string) : string :=
  let parts := JS.split "."%char className in
  match last parts with
  | Some (String c0 _) =>
      if String.eqb (String c0 "") (JS.toLowerCase (String c0 ""))
      then JS.join "." (removelast parts)
      else className
  | _ => className
  end.

(** The class name that the callback derives from a failure string. *)
Definition deriveClassName (test : string) : string :=
  dropMethodName (rawClassName test).

(** [path.join(this.projectRoot, 'src/test/java',
    className.replace(/\./g, '/') + '.java')] *)
Definition testFilePathOf (self : AIPairRunner) (className : string) : string :=
  path_join P [projectRoot self; "src/test/java";
               JS.replaceAllChar "."%char "/"%char className +:+ ".java"].

(** The callback of [failedTests.map] (lines 120-148). *)
Definition testFileOf (test : string) : M SourceFile :=
  self ← getThis;
  print LoggerDebug ["Extracting class name from test name: " +:+ test];;
  let className := deriveClassName test in
  let testFilePath := testFilePathOf self className in
  print LoggerDebug ["Constructed test file path: " +:+ testFilePath];;
  present ← existsSync testFilePath;
  text ← (if present : bool then readFileSync testFilePath else mret "");
  mret {| path := testFilePath; content := text |}.

(** [failedTests.map(test => ...)] *)
Definition collectTestFiles (failedTests : list string) : M (list SourceFile) :=
  mapM testFileOf failedTests.

(** The text listing the collected files (lines 157-160). *)
Definition renderFiles (self : AIPairRunner) (fs : list SourceFile) : string :=
  JS.join (JS.LF +:+ JS.LF)
    ((fun file => "File: " +:+ path_relative P (projectRoot self) (path file)
                  +:+ JS.LF +:+ JS.LF +:+ content file) <$> fs).

(** The trailing hint line (lines 167-169). *)
Definition hintLine (hints : list string) : string :=
  if bool_decide (0 < length hints) then
    JS.LF +:+ JS.LF +:+ "Hints for improvement: " +:+ JS.join "; " hints
  else "".

(** The prompt (lines 162-169). *)
Definition renderPrompt (self : AIPairRunner) (testOutput filesContent : string) : string :=
  JS.replace "{buildGradleContent}" (to_string (buildGradleContent self))
    (JS.replace "{filesContent}" filesContent
      (JS.replace "{testOutput}" testOutput (promptTemplate self)))
  +:+ hintLine (accumulatedHints self).

(** [startSpinner(message)]: the message is written at once; the ticks of
    the interval timer are not modelled. *)
Definition startSpinner (message : string) : M unit := print StdoutWrite [message].

(** [performCodeGenerationCycle(force = false)].  The pre-check either ends
    the call ([None], the bare [return]) or hands over the test output and
    the failed tests. *)
Definition performCodeGenerationCycle (force : bool) : M JsResult :=
  self ← getThis;
  precheck ←
    (if negb force then
       print ConsoleLog ["Performing initial test to determine if changes are needed"];;
       testsPassed ← runTests (projectRoot self) (tmpDir self);
       testOutput ← readFileSync (path_join P [tmpDir self; "test_output.txt"]);
       if testsPassed : bool then
         print ConsoleLog ["Project compiles and all tests passed! No changes needed."];;
         mret None
       else
         failedTests ← summarizeAllTests (projectRoot self) (tmpDir self);
         mret (Some (testOutput, failedTests))
     else mret (Some ("No test output yet.", [])));
  match precheck with
  | None => mret RUndefined
  | Some (testOutput, failedTests) =>
      print LoggerDebug ["Collecting files for code generation"];;
      codeFiles ← collectFilesWithExtension
                    [path_join P [projectRoot self; "src/main"]] (extension self);
      print LoggerDebug ["Found " +:+ JS.ofNat (length codeFiles)
                         +:+ " files with extension " +:+ to_string (extension self)];;
      print LoggerDebug ["Found code files:"];;
      forEach (fun file => print LoggerDebug [path file]) codeFiles;;
      testFiles ← collectTestFiles failedTests;
      print LoggerDebug ["Found test files:"];;
      forEach (fun file => print LoggerDebug [path file]) testFiles;;
      print ConsoleLog [JS.ofNat (length codeFiles) +:+ " code files and "
                        +:+ JS.ofNat (length testFiles)
                        +:+ " test files will be used for code generation"];;
      let filesContent := renderFiles self (codeFiles ++ testFiles) in
      let prompt := renderPrompt self testOutput filesContent in
      let sessionLogFilePath := path_join P [tmpDir self; "session_log.txt"] in
      stamp ← now;
      appendFileSync sessionLogFilePath
        ("Prompt at " +:+ stamp +:+ ":" +:+ JS.LF +:+ prompt +:+ JS.LF +:+ JS.LF);;
      print LoggerDebug ["Sending prompt to AI service"];;
      startSpinner "Generating code";;
      generatedCode ←
        match client self with
        | Some c => generateCode c prompt (tmpDir self) (systemPrompt self)
        | None => stop (Throw "TypeError: Cannot read properties of undefined (reading 'generateCode')")
        end;
      parseAndApplyGeneratedCode (projectRoot self) (tmpDir self) (extension self) generatedCode;;
      print ConsoleLog ["Running tests to see if the changes fixed the problem"];;
      testsPassed ← runTests (projectRoot self) (tmpDir self);
      (if negb testsPassed then
         out ← readFileSync (path_join P [tmpDir self; "test_output.txt"]);
         print ConsoleLog [out]
       else mret tt);;
      mret (RBool testsPassed)
  end.

(** [handleSingleIteration(force = false)] *)
Definition handleSingleIteration (force : bool) : M unit :=
  allTestsPassed ← performCodeGenerationCycle force;
  if result_truthy allTestsPassed then print LoggerDebug ["All tests passed!"]
  else mret tt.

(** The listener that [watchCode] installs on ['change']. *)
Definition onChange (filePath : string) : M unit :=
  print ConsoleLog ["Detected changes in " +:+ filePath +:+ "."];;
  handleSingleIteration true.

(** [watchCode()] *)
Definition watchCode : M unit :=
  self ← getThis;
  let directoriesToWatch :=
    [path_join P [projectRoot self; "src"]; path_join P [projectRoot self; "test"]] in
  chokidar_watch directoriesToWatch.

Definition hintQuery : string := "Provide a hint to be used to regenerate code:" +:+ JS.LF.

(** [handleHint()] *)
Definition handleHint : M unit :=
  userFeedback ← question hintQuery;
  (if negb (String.eqb userFeedback "") then
     modifyThis (fun self => set_accumulatedHints (accumulatedHints self ++ [userFeedback]) self);;
     print LoggerDebug ["Added hint: " +:+ userFeedback]
   else mret tt);;
  handleSingleIteration true.

(** [handleModelChange()] *)
Definition handleModelChange : M unit :=
  newModel ← promptForModel;
  apiKey ← getApiKeyForModel newModel;
  c ← selectAIClient apiKey newModel;
  modifyThis (set_client c);;
  print LoggerInfo ["Switched to model: " +:+ to_string (Client.model c)];;
  handleSingleIteration true.

Definition menuQuery : string :=
  "Options: [c]ontinue, provide [h]int, change [m]odel, e[x]it, [w]atch for changes. (Press Enter to continue): ".

(** The [while (true)] of [startInteractiveLoop()].  Every turn reads one
    line, so a budget above the number of lines still to come is never
    used up. *)
Fixpoint interactiveLoop (budget : nat) : M unit :=
  match budget with
  | 0 => stop AwaitInput
  | S budget' =>
      line ← question menuQuery;
      let userChoice := JS.toLowerCase (JS.trim line) in
      if String.eqb userChoice "c" || String.eqb userChoice "" then
        print ConsoleLog ["Continuing with the next iteration..."];;
        handleSingleIteration false;;
        interactiveLoop budget'
      else if String.eqb userChoice "h" then
        handleHint;; interactiveLoop budget'
      else if String.eqb userChoice "m" then
        handleModelChange;; interactiveLoop budget'
      else if String.eqb userChoice "e" || String.eqb userChoice "x" then
        print ConsoleLog ["Exiting..."];;
        process_exit 0
      else if String.eqb userChoice "w" then
        print ConsoleLog ["Watch mode enabled. Watching for changes in the test directory..."];;
        watchCode
      else
        print ConsoleLog ["Invalid option. Please try again."];;
        interactiveLoop budget'
  end.

(** [startInteractiveLoop()] *)
Definition startInteractiveLoop : M unit :=
  fun st => interactiveLoop (S (length (stdin st))) st.

(** [run()] *)
Definition run : M unit :=
  self ← getThis;
  print LoggerDebug ["Log Level:"; to_string (logLevel self)];;
  apiKey ← getApiKeyForModel (model self);
  c ← selectAIClient apiKey (model self);
  modifyThis (set_client c);;
  prefix ←
    match Client.apiKey c with
    | VString key => mret (JS.substring0 4 key)
    | _ => stop (Throw "TypeError: this.client.apiKey.substring is not a function")
    end;
  print LoggerDebug ["Initialized " +:+ to_string (Client.model c)
                     +:+ " client with API key: " +:+ prefix +:+ "..."];;
  print LoggerDebug ["Clearing temporary directories"];;
  clearDirectory (tmpDir self);;
  clearDirectory (path_join P [tmpDir self; "archive/versions"]);;
  print LoggerDebug ["Reading build.gradle.kts file"];;
  let buildGradlePath := path_join P [projectRoot self; "build.gradle.kts"] in
  present ← existsSync buildGradlePath;
  text ← (if present : bool then readFileSync buildGradlePath else mret "");
  modifyThis (set_buildGradleContent (VString text));;
  handleSingleIteration false;;
  startInteractiveLoop.

(** *** AIPair.js *)

(** The arguments after [minimist] has applied the aliases and defaults.
    The call declares no option as a string, so a value is a string only
    when it is plain text: one that looks like a number is a number, a bare
    flag is [true], a negated one [false], a repeated option an array. *)
Record ParsedArgs : Type := mkArgs {
  arg_model : JsVal;
  arg_project_root : JsVal;
  arg_extension : JsVal;
  arg_test_dir : JsVal
}.

(** The [default] table of the [minimist] call, applied to the options that
    the command line does not give. *)
Definition parseArgs (m p e t : option JsVal) : ParsedArgs :=
  {| arg_model := default (VString "gpt-4o") m;
     arg_project_root := default VUndefined p;
     arg_extension := default (VString ".java") e;
     arg_test_dir := default (VString "src/test/java") t |}.

Definition validModels : list string :=
  [ "gpt-4o"; "gpt-4o-mini"; "gpt-3.5-turbo"; "claude-3-5-sonnet-20241022";
    "claude-3-5-sonnet"; "gemini-1.5-pro"; "gemini-2" ].

(** [validateArgs(args)] *)
Definition validateArgs (args : ParsedArgs) : M unit :=
  (if negb (bool_decide (arg_model args ∈ VString <$> validModels)) then
     print LoggerError ["Invalid model: " +:+ to_string (arg_model args)];;
     print ConsoleLog ["Valid models are:"; JS.join ", " validModels];;
     process_exit 1
   else mret tt);;
  if negb (truthy (arg_project_root args)) then
    print LoggerError ["The --project-root parameter is required."];;
    print ConsoleLog ["Usage: node AIPair.js --model=<model> --project-root=<path> [--extension=<file_extension>] [--test-dir=<test_directory>]"];;
    process_exit 1
  else mret tt.

(** [try { body } catch (error) { console.error(...); process.exit(1) }] *)
Definition exitOnError (body : M unit) : M unit := fun st =>
  match body st with
  | (Stopped (Throw err), st') =>
      (Stopped (Exit 1), record (EvPrint ConsoleError ["Failed to run AI Pair:"; err]) st')
  | r => r
  end.

(** How Node's error message names the value it received in place of a
    string. *)
Definition received (v : JsVal) : string :=
  match v with
  | VUndefined => "undefined"
  | VString s => "type string ('" +:+ s +:+ "')"
  | VNative name => "function " +:+ name
  | VNumber text => "type number (" +:+ text +:+ ")"
  | VBool _ => "type boolean (" +:+ to_string v +:+ ")"
  | VArray _ => "an instance of Array"
  end.

Definition invalidPath (i : nat) (v : JsVal) : string :=
  "TypeError [ERR_INVALID_ARG_TYPE]: The " +:+ JS.DQ +:+ "paths[" +:+ JS.ofNat i +:+ "]"
  +:+ JS.DQ +:+ " argument must be of type string. Received " +:+ received v.

(** [path.resolve(...before, last)] where the arguments [before] are known
    to be strings: [path.resolve] throws a [TypeError] for an argument that
    is not a string. *)
Definition resolveArg (before : list string) (last : JsVal) : M string :=
  match last with
  | VString s => mret (path_resolve P (before ++ [s]))
  | _ => stop (Throw (invalidPath (length before) last))
  end.

(** The script: [envJson] is [JSON.stringify(envVars)], and the four
    variables are the ones it destructures from [envVars]. *)
Definition main (envJson : string)
    (ANTHROPIC_API_KEY OPENAI_API_KEY GEMINI_API_KEY LOG_LEVEL : option string)
    (parsedArgs : ParsedArgs) : M unit :=
  exitOnError (
    print LoggerDebug ["Loaded environment variables: " +:+ envJson];;
    validateArgs parsedArgs;;
    let model := arg_model parsedArgs in
    projectRoot ← resolveArg [] (arg_project_root parsedArgs);
    let extension := arg_extension parsedArgs in
    testDir ← resolveArg [projectRoot] (arg_test_dir parsedArgs);
    runner ← constructor model projectRoot testDir extension
               ANTHROPIC_API_KEY OPENAI_API_KEY GEMINI_API_KEY LOG_LEVEL;
    modifyThis (fun _ => runner);;
    run).

End Runner.


(** ** Node's [path] on POSIX

    An instance of the platform's [path_join], used to run the model on
    concrete inputs: [path.posix.join] and the [normalize] it ends with. *)

Module Posix.

(** One step of [normalizeString] on a stack of kept segments (last kept
    first): empty segments and [.] are skipped, [..] removes the last kept
    segment unless there is none or it is itself [..], in which case it is
    kept only for a relative path. *)
Definition step (allowAboveRoot : bool) (stack : list string) (seg : string) : list string :=
  if String.eqb seg "" || String.eqb seg "." then stack
  else if String.eqb seg ".." then
    match stack with
    | top :: below =>
        if String.eqb top ".." then (if allowAboveRoot then ".." :: stack else stack)
        else below
    | [] => if allowAboveRoot then [".."] else []
    end
  else seg :: stack.

Definition normalizeString (path : string) (allowAboveRoot : bool) : string :=
  JS.join "/" (rev (fold_left (step allowAboveRoot) (JS.split "/"%char path) [])).

Fixpoint endsWithSlash (s : string) : bool :=
  match s with
  | "" => false
  | String c "" => Ascii.eqb c "/"%char
  | String _ s' => endsWithSlash s'
  end.

Definition normalize (path : string) : string :=
  if String.eqb path "" then "."
  else
    let isAbsolute := JS.startsWith "/" path in
    let trailingSeparator := endsWithSlash path in
    let res := normalizeString path (negb isAbsolute) in
    if String.eqb res "" then
      (if isAbsolute then "/" else if trailingSeparator then "./" else ".")
    else
      (if isAbsolute then "/" else "") +:+ res +:+ (if trailingSeparator then "/" else "").

Definition join (args : list string) : string :=
  match filter (fun arg => arg <> "") args with
  | [] => "."
  | parts => normalize (JS.join "/" parts)
  end.

End Posix.

(** ** A concrete platform

    A small world on which the model can be run: POSIX joins, a test run
    that passes exactly when the file [/proj/fixed] exists, two fixed
    failures, one source file, and a backend whose reply is the word [patch];
    applying a patch creates [/proj/fixed]; nothing fails.  All its paths
    are absolute, so the join also plays [path.resolve]. *)
Module Sample.

(** A stand-in for [path.relative]: the root prefix is dropped. *)
Definition relative (from to : string) : string :=
  if JS.startsWith (from +:+ "/") to then JS.drop (S (String.length from)) to else to.

Definition platform : Platform := {|
  path_join := Posix.join;
  path_relative := relative;
  path_resolve := Posix.join;
  process_cwd := "/work";
  dirname := "/app";
  toISOString := fun _ => "2024-11-05T10:00:00.000Z";
  tests_pass := fun fs _ _ => bool_decide (is_Some (fs !! "/proj/fixed"));
  test_report := fun fs _ _ =>
    if bool_decide (is_Some (fs !! "/proj/fixed")) then "BUILD SUCCESSFUL" else "BUILD FAILED";
  failing_tests := fun _ _ _ => ["testFoo(org.ex.ThingTest)"; "org.ex.OtherTest.testBar"];
  collected_files := fun fs _ _ =>
    match fs !! "/proj/src/main/java/org/ex/Thing.java" with
    | Some text =>
        Done [{| path := "/proj/src/main/java/org/ex/Thing.java"; content := text |}]
    | None => Done []
    end;
  cleared := fun _ fs => fs;
  applied := fun _ _ _ _ fs => (<["/proj/fixed" := "yes"]> fs, None);
  ai_reply := fun _ _ _ _ _ => Done "patch";
  append_error := fun _ _ => None
|}.

(** The same world with a collector that fails when the directory it is
    asked to walk does not exist: here, when the disk does not hold the one
    source file of the project. *)
Definition strict : Platform :=
  mkPlatform (path_join platform) (path_relative platform) (path_resolve platform)
    (process_cwd platform) (dirname platform) (toISOString platform)
    (tests_pass platform) (test_report platform) (failing_tests platform)
    (fun fs _ _ =>
       match fs !! "/proj/src/main/java/org/ex/Thing.java" with
       | Some text =>
           Done [{| path := "/proj/src/main/java/org/ex/Thing.java"; content := text |}]
       | None => Failed "ENOENT: no such file or directory, scandir '/proj/src/main'"
       end)
    (cleared platform) (applied platform) (ai_reply platform) (append_error platform).

Definition disk : gmap string string :=
  <["/app/prompts/system_prompt.txt" := "You fix Java code."]>
  (<["/app/prompts/prompt_template.txt" := "Tests: {testOutput} Files: {filesContent} Build: {buildGradleContent}"]>
  (<["/proj/src/main/java/org/ex/Thing.java" := "class Thing {}"]>
  (<["/proj/src/test/java/org/ex/ThingTest.java" := "class ThingTest {}"]> ∅))).

(** The runner as [new AIPairRunner('gpt-4o', '/proj', '/proj/src/test/java',
    '.java', undefined, key, undefined, undefined)] leaves it. *)
Definition runner (openaiApiKey : option string) : AIPairRunner := {|
  model := VString "gpt-4o";
  projectRoot := "/proj";
  extension := VString ".java";
  testDir := "/proj/src/test/java";
  apiKeys := <["anthropic" := VUndefined]>
             (<["openai" := of_option openaiApiKey]>
             (<["gemini" := VUndefined]> ∅));
  logLevel := VUndefined;
  models := models_table;
  tmpDir := "/work/tmp";
  systemPrompt := "You fix Java code.";
  promptTemplate := "Tests: {testOutput} Files: {filesContent} Build: {buildGradleContent}";
  accumulatedHints := [];
  client := None;
  buildGradleContent := VUndefined
|}.

(** A fresh process: nothing has happened yet, and [lines] will be typed. *)
Definition start (openaiApiKey : option string) (fs : gmap string string)
    (lines : list string) : State :=
  {| this := runner openaiApiKey; files := fs; stdin := lines; trace := []; watched := [] |}.

(** The same process once [run] has chosen the backend. *)
Definition ready (fs : gmap string string) (lines : list string) : State :=
  {| this := set_client (Client.new ChatGPTClient (VString "sk-1234") (VString "gpt-4o"))
               (runner (Some "sk-1234"));
     files := fs; stdin := lines; trace := []; watched := [] |}.

End Sample.

(** ** Vocabulary of the properties *)

(** The character [c] occurs in [s]. *)
Definition occurs (c : ascii) (s : string) : Prop := c ∈ list_ascii_of_string s.

(** Lowercase and uppercase letters of the Latin-1 range. *)
Definition isLower (c : ascii) : bool :=
  let n := N_of_ascii c in
  ((97 <=? n) && (n <=? 122) || (223 <=? n) && (n <=? 246) || (248 <=? n) && (n <=? 255))%N.

Definition isUpper (c : ascii) : bool :=
  let n := N_of_ascii c in
  ((65 <=? n) && (n <=? 90) || (192 <=? n) && (n <=? 214) || (216 <=? n) && (n <=? 222))%N.

(** [s.endsWith(suffix)] *)
Fixpoint endsWith (suffix s : string) : bool :=
  String.eqb suffix s ||
  match s with
  | "" => false
  | String _ s' => endsWith suffix s'
  end.

(** Kinds of interaction. *)
Definition isGenerate (e : Event) : bool :=
  match e with EvGenerateCode _ _ _ _ => true | _ => false end.
Definition isApply (e : Event) : bool :=
  match e with EvParseAndApply _ _ _ _ => true | _ => false end.
Definition isRunTests (e : Event) : bool :=
  match e with EvRunTests _ _ => true | _ => false end.
Definition isPrint (e : Event) : bool :=
  match e with EvPrint _ _ => true | _ => false end.
Definition isQuestion (e : Event) : bool :=
  match e with EvQuestion _ _ => true | _ => false end.

(** How many interactions of a kind a trace holds. *)
Definition count (kind : Event -> bool) (t : list Event) : nat :=
  length (List.filter kind t).

(** The answers typed at the hint prompt, in the order they were typed. *)
Fixpoint hintAnswers (h : list Event) : list string :=
  match h with
  | [] => []
  | EvQuestion query answer :: h' =>
      if String.eqb query hintQuery then answer :: hintAnswers h' else hintAnswers h'
  | _ :: h' => hintAnswers h'
  end.

(** The answers that are not empty. *)
Definition nonEmpty (answers : list string) : list string :=
  List.filter (fun a => negb (String.eqb a "")) answers.

(** Every prompt sent to a backend ends with the hint line of the hints
    [sel] selects among the answers typed before it was sent. *)
Definition promptsCarry (sel : list string -> list string) (h : list Event) : Prop :=
  forall h1 c prompt tmp system h2,
    h = h1 ++ EvGenerateCode c prompt tmp system :: h2 ->
    exists body, prompt = body +:+ hintLine (sel (hintAnswers h1)).

(** The same, told from the most recent interaction backwards. *)
Fixpoint promptsOK (t : list Event) : Prop :=
  match t with
  | [] => True
  | e :: t' =>
      match e with
      | EvGenerateCode _ prompt _ _ =>
          exists body, prompt = body +:+ hintLine (nonEmpty (hintAnswers (rev t')))
      | _ => True
      end /\ promptsOK t'
  end.

(** The hints kept by the runner are the non-empty answers typed so far, and
    every prompt sent so far carried the ones typed before it. *)
Definition hintsInv (st : State) : Prop :=
  accumulatedHints (this st) = nonEmpty (hintAnswers (history st)) /\
  promptsOK (trace st).

(** The state with another [testDir] on the runner. *)
Definition withTestDir (d : string) (st : State) : State :=
  set_this (set_testDir d (this st)) st.

(** A computation that neither reads nor writes [this.testDir]. *)
Definition ignoresTestDir {A} (m : M A) : Prop :=
  forall d st, m (withTestDir d st) = ((m st).1, withTestDir d (m st).2).

(** ** Reasoning about computations *)

(** [wp m st Post]: running [m] from [st] ends in an outcome and a state that
    satisfy [Post]. *)
Definition wp {A} (m : M A) (st : State) (Post : Outcome A -> State -> Prop) : Prop :=
  Post (m st).1 (m st).2.

(** [hoare Pre m Post]: the same from every state that satisfies [Pre]. *)
Definition hoare {A} (Pre : State -> Prop) (m : M A)
    (Post : Outcome A -> State -> Prop) : Prop :=
  forall st, Pre st -> wp m st Post.

(** [m] keeps [I], however it ends. *)
Definition preserves {A} (I : State -> Prop) (m : M A) : Prop :=
  hoare I m (fun _ st' => I st').

(** [m] returns and keeps [I]. *)
Definition returns {A} (I : State -> Prop) (m : M A) : Prop :=
  hoare I m (fun o st' => (exists a, o = Returned a) /\ I st').

(** From [st0] to [st'] the runner, the pending input and the watchers are
    untouched, and every interaction added satisfies [Q]. *)
Definition emitted (Q : Event -> Prop) (st0 st' : State) : Prop :=
  this st' = this st0 /\ stdin st' = stdin st0 /\ watched st' = watched st0 /\
  exists evs, trace st' = evs ++ trace st0 /\ Forall Q evs.


Section Describe.

Variable P : Platform.

(** What one repair cycle of the runner [self] may do: it asks nothing,
    installs no watcher, and a prompt it sends goes to the runner's backend
    and is a rendering of the runner's template and hints. *)
Definition cycleEvent (self : AIPairRunner) (e : Event) : Prop :=
  match e with
  | EvQuestion _ _ => False
  | EvWatch _ => False
  | EvGenerateCode c prompt tmp system =>
      client self = Some c /\
      exists testOutput filesContent, prompt = renderPrompt self testOutput filesContent
  | _ => True
  end.

(** The entry that the callback of [failedTests.map] builds for [test] when
    the disk holds [fs]. *)
Definition testEntry (self : AIPairRunner) (fs : gmap string string) (test : string)
  : SourceFile :=
  let p := testFilePathOf P self (deriveClassName test) in
  {| path := p; content := default "" (fs !! p) |}.

(** File-system interactions of the extraction: existence checks, and reads
    of files that exist. *)
Definition extractionEvent (fs : gmap string string) (e : Event) : Prop :=
  match e with
  | EvPrint _ _ => True
  | EvExistsSync _ => True
  | EvReadFileSync p => is_Some (fs !! p)
  | _ => False
  end.

End Describe.

(** ** Sessions *)

(** What can happen to a runner during the life of the process: the methods
    that [run] and the menu call, and a change event of the watcher. *)
Inductive Operation : Type :=
| Run
| Continue
| Hint
| ModelChange
| Watch
| Menu
| Change (filePath : string).

Definition perform (P : Platform) (op : Operation) : M unit :=
  match op with
  | Run => run P
  | Continue => handleSingleIteration P false
  | Hint => handleHint P
  | ModelChange => handleModelChange P
  | Watch => watchCode P
  | Menu => startInteractiveLoop P
  | Change filePath => onChange P filePath
  end.

(** Operations one after the other, until one of them stops the process. *)
Definition session (P : Platform) (ops : list Operation) : M unit :=
  forEach (perform P) ops.

(** ** Credentials and families *)

(** The credential that [getApiKeyForModel] finds for a model: the entry of
    [apiKeys] for the family that [models] gives the model. *)
Definition credential (self : AIPairRunner) (model : JsVal) : JsVal :=
  obj_get (apiKeys self) (to_string (obj_get (models self) (to_string model))).

(** The backend of each provider family. *)
Definition familyClass (family : string) : option ClientClass :=
  if String.eqb family "openai" then Some ChatGPTClient
  else if String.eqb family "anthropic" then Some ClaudeClient
  else if String.eqb family "gemini" then Some GeminiClient
  else None.

(** Two states that differ at most in the runner's [testDir]. *)
Definition sameButTestDir (st1 st2 : State) : Prop :=
  withTestDir "" st1 = withTestDir "" st2.

(** The runner has chosen its backend. *)
Definition hasBackend (st : State) : Prop := is_Some (client (this st)).

(** The computation did not end in an uncaught exception. *)
Definition noThrow {A} (o : Outcome A) : Prop := forall err, o <> Stopped (Throw err).

(** On [P] nothing fails: the collection, the generation call, the
    application of the generated code and the appends all return. *)
Definition reliable (P : Platform) : Prop :=
  (forall fs dirs ext, exists found, collected_files P fs dirs ext = Done found) /\
  (forall c prompt tmp system n, exists reply, ai_reply P c prompt tmp system n = Done reply) /\
  (forall root tmp ext code fs, (applied P root tmp ext code fs).2 = None) /\
  (forall fs p, append_error P fs p = None).

(** ** Vocabulary of the further properties *)

(** The entry that a cycle appends to the session log (line 172). *)
Definition logEntry (stamp prompt : string) : string :=
  "Prompt at " +:+ stamp +:+ ":" +:+ JS.LF +:+ prompt +:+ JS.LF +:+ JS.LF.

(** The prompt of a cycle that goes on to generation with the test output
    [testOutput] and the failures [failedTests], when the collection has
    found the files [found] and the disk holds [fs]. *)
Definition cyclePrompt (P : Platform) (self : AIPairRunner) (found : list SourceFile)
    (fs : gmap string string) (testOutput : string) (failedTests : list string) : string :=
  renderPrompt self testOutput
    (renderFiles P self (found ++ (testEntry P self fs <$> failedTests))).

(** What a cycle does from the session log onwards, in the order it happens:
    it logs the prompt, sends it, applies the reply, runs the tests again, and
    shows the report when they fail. *)
Definition generationEvents (P : Platform) (self : AIPairRunner) (c : Client.t)
    (stamp prompt reply : string) (passed : bool) (report : string) : list Event :=
  [ EvAppendFileSync (path_join P [tmpDir self; "session_log.txt"]) (logEntry stamp prompt);
    EvPrint LoggerDebug ["Sending prompt to AI service"];
    EvPrint StdoutWrite ["Generating code"];
    EvGenerateCode c prompt (tmpDir self) (systemPrompt self);
    EvParseAndApply (projectRoot self) (tmpDir self) (extension self) reply;
    EvPrint ConsoleLog ["Running tests to see if the changes fixed the problem"];
    EvRunTests (projectRoot self) (tmpDir self) ]
  ++ (if passed then []
      else [ EvReadFileSync (path_join P [tmpDir self; "test_output.txt"]);
             EvPrint ConsoleLog [report] ]).

(** The files once a cycle has logged [prompt], applied [reply] and run the
    tests again, starting from the files [fs]. *)
Definition loggedFiles (P : Platform) (self : AIPairRunner) (fs : gmap string string)
    (stamp prompt : string) : gmap string string :=
  <[path_join P [tmpDir self; "session_log.txt"] :=
      default "" (fs !! path_join P [tmpDir self; "session_log.txt"]) +:+ logEntry stamp prompt]> fs.

Definition patchedFiles (P : Platform) (self : AIPairRunner) (fs : gmap string string)
    (stamp prompt reply : string) : gmap string string :=
  (applied P (projectRoot self) (tmpDir self) (extension self) reply
     (loggedFiles P self fs stamp prompt)).1.

(** Interactions of a cycle before it reaches the session log: prints, the
    collection, and the existence checks and reads of the extraction. *)
Definition gatheringEvent (e : Event) : Prop :=
  match e with
  | EvPrint _ _ | EvCollectFiles _ _ | EvExistsSync _ | EvReadFileSync _ => True
  | _ => False
  end.


(** What a cycle does once its pre-check, if any, has handed over
    [testOutput] and [failedTests] in state [st1], when nothing fails and
    the collection finds [found]: it gathers the files, renders the prompt,
    logs it, sends it to [c], applies the reply and returns the outcome of
    the re-run on the patched files. *)
Definition generationPost (P : Platform) (self : AIPairRunner) (c : Client.t) (st1 : State)
    (found : list SourceFile) (testOutput : string) (failedTests : list string)
    (o : Outcome JsResult) (st' : State) : Prop :=
  exists gathered stamp reply,
    let prompt := cyclePrompt P self found (files st1) testOutput failedTests in
    let fsNew := patchedFiles P self (files st1) stamp prompt reply in
    let passed := tests_pass P fsNew (projectRoot self) (tmpDir self) in
    let report := test_report P fsNew (projectRoot self) (tmpDir self) in
    o = Returned (RBool passed) /\
    this st' = this st1 /\
    files st' = <[path_join P [tmpDir self; "test_output.txt"] := report]> fsNew /\
    history st' = history st1 ++ gathered
                    ++ generationEvents P self c stamp prompt reply passed report /\
    Forall gatheringEvent gathered.

(** The state once the interactions [evs] have happened, in that order. *)
Definition records (evs : list Event) (st : State) : State :=
  mkState (this st) (files st) (stdin st) (rev evs ++ trace st) (watched st).

(** The menu of [promptForModel] as it appears on the console, followed by
    the question and the line typed in reply. *)
Definition modelPromptEvents (answer : string) : list Event :=
  EvPrint ConsoleLog ["Select a model:"]
  :: ((fun '(key, model) => EvPrint ConsoleLog [key +:+ ". " +:+ model]) <$> modelMap_entries)
  ++ [EvQuestion "Enter the number of the model you want to use: " answer].


(** The two lines that [getApiKeyForModel] prints before it ends the
    process. *)
Definition missingKeyEvents (family : string) : list Event :=
  [ EvPrint ConsoleError ["Error: No API key found for " +:+ family +:+ " model family."];
    EvPrint ConsoleError ["Please set the appropriate environment variable."] ].

(** What [run] does before its first cycle, for a runner [self] whose
    credential is [key]: it logs the level, the model and the first four
    characters of the credential, clears the two scratch directories, and
    looks for the build descriptor, which it reads when it is [present]. *)
Definition runEvents (P : Platform) (self : AIPairRunner) (key : string) (present : bool)
  : list Event :=
  [ EvPrint LoggerDebug ["Log Level:"; to_string (logLevel self)];
    EvPrint LoggerDebug ["Initialized " +:+ to_string (model self)
                         +:+ " client with API key: " +:+ JS.substring0 4 key +:+ "..."];
    EvPrint LoggerDebug ["Clearing temporary directories"];
    EvClearDirectory (tmpDir self);
    EvClearDirectory (path_join P [tmpDir self; "archive/versions"]);
    EvPrint LoggerDebug ["Reading build.gradle.kts file"];
    EvExistsSync (path_join P [projectRoot self; "build.gradle.kts"]) ]
  ++ (if present then [EvReadFileSync (path_join P [projectRoot self; "build.gradle.kts"])]
      else []).

(** The files once [run] has cleared the two scratch directories. *)
Definition clearedFiles (P : Platform) (self : AIPairRunner) (fs : gmap string string)
  : gmap string string :=
  cleared P (path_join P [tmpDir self; "archive/versions"]) (cleared P (tmpDir self) fs).

(** The state in which [run] starts its first cycle: the backend [c] is
    installed and the build descriptor holds the text of the file, or the
    empty string when there is no such file. *)
Definition runReady (P : Platform) (st : State) (c : Client.t) (key : string) : State :=
  let self := this st in
  let fs := clearedFiles P self (files st) in
  let gradle := fs !! path_join P [projectRoot self; "build.gradle.kts"] in
  set_this (set_buildGradleContent (VString (default "" gradle)) (set_client c self))
    (records (runEvents P self key (bool_decide (is_Some gradle))) (set_files fs st)).

(** What the constructor sets and nothing is meant to change afterwards: the
    runner with its hints, its backend and its build descriptor blanked. *)
Definition configuration (self : AIPairRunner) : AIPairRunner :=
  mkRunner (model self) (projectRoot self) (extension self) (testDir self) (apiKeys self)
    (logLevel self) (models self) (tmpDir self) (systemPrompt self) (promptTemplate self)
    [] None VUndefined.

(** The directories that [watchCode] hands to the watcher. *)
Definition watchDirs (P : Platform) (self : AIPairRunner) : list string :=
  [path_join P [projectRoot self; "src"]; path_join P [projectRoot self; "test"]].

(** An outcome that is neither an exit nor a wait for input. *)
Definition quiet {A} (o : Outcome A) : Prop :=
  match o with
  | Stopped (Exit _) | Stopped AwaitInput => False
  | _ => True
  end.

(** An outcome of a menu handler: an exit has code 1, and a wait for input
    finds no line left. *)
Definition benign {A} (o : Outcome A) (st' : State) : Prop :=
  match o with
  | Stopped (Exit code) => code = 1%Z
  | Stopped AwaitInput => stdin st' = []
  | _ => True
  end.

(** From [st0] to [st'] the configuration and the watchers are kept and no
    input has been put back. *)
Definition kept (st0 st' : State) : Prop :=
  configuration (this st') = configuration (this st0) /\
  watched st' = watched st0 /\
  length (stdin st') <= length (stdin st0).

(** How the menu loop started in [st0] can end: it returns only when it has
    just installed the watcher; it exits with code 0 or 1; it waits for input
    only when no line is left; or an exception of a cycle goes through it. *)
Definition menuPost (P : Platform) (st0 : State) (o : Outcome unit) (st' : State) : Prop :=
  configuration (this st') = configuration (this st0) /\
  match o with
  | Returned _ =>
      watched st' = watched st0 ++ [watchDirs P (this st0)] /\
      exists t, trace st' = EvWatch (watchDirs P (this st0)) :: t
  | Stopped why =>
      watched st' = watched st0 /\
      match why with
      | Exit code => code = 0%Z \/ code = 1%Z
      | AwaitInput => stdin st' = []
      | Throw _ => True
      end
  end.

(** The second half of [performCodeGenerationCycle] (lines 171-192) as a
    computation of its own: from the session log to the returned value, for
    the rendered [prompt]. *)
Definition generationTail (P : Platform) (self : AIPairRunner) (prompt : string)
  : M JsResult :=
  stamp ← now P;
  appendFileSync P (path_join P [tmpDir self; "session_log.txt"])
    ("Prompt at " +:+ stamp +:+ ":" +:+ JS.LF +:+ prompt +:+ JS.LF +:+ JS.LF);;
  print LoggerDebug ["Sending prompt to AI service"];;
  startSpinner "Generating code";;
  generatedCode ←
    match client self with
    | Some c => generateCode P c prompt (tmpDir self) (systemPrompt self)
    | None => stop (Throw "TypeError: Cannot read properties of undefined (reading 'generateCode')")
    end;
  parseAndApplyGeneratedCode P (projectRoot self) (tmpDir self) (extension self) generatedCode;;
  print ConsoleLog ["Running tests to see if the changes fixed the problem"];;
  testsPassed ← runTests P (projectRoot self) (tmpDir self);
  (if negb testsPassed then
     out ← readFileSync (path_join P [tmpDir self; "test_output.txt"]);
     print ConsoleLog [out]
   else mret tt);;
  mret (RBool testsPassed).


(** * Properties *)

(** ** Strings *)

Local Arguments String.append !_ _ / : simpl nomatch.
Local Arguments hintQuery : simpl never.
Local Arguments menuQuery : simpl never.

Lemma sapp_nil_r (s : string) : s +:+ "" = s.
Proof. induction s as [|a s IH]; cbn; [done | by rewrite IH]. Qed.

Lemma sapp_assoc (s t u : string) : (s +:+ t) +:+ u = s +:+ t +:+ u.
Proof. induction s as [|a s IH]; cbn; [done | by rewrite IH]. Qed.

Lemma sapp_cons (a : ascii) (s t : string) : String a s +:+ t = String a (s +:+ t).
Proof. reflexivity. Qed.

Lemma occurs_nil (c : ascii) : ~ occurs c "".
Proof. unfold occurs; cbn. apply not_elem_of_nil. Qed.

Lemma occurs_cons (c a : ascii) (s : string) : occurs c (String a s) <-> c = a \/ occurs c s.
Proof. unfold occurs; cbn. apply elem_of_cons. Qed.

Lemma occurs_app (c : ascii) (s t : string) : occurs c (s +:+ t) <-> occurs c s \/ occurs c t.
Proof.
  induction s as [|a s IH]; cbn.
  - split; [auto | intros [H | H]; [by apply occurs_nil in H | done]].
  - rewrite !occurs_cons, IH. tauto.
Qed.

Lemma eqb_char_true (a b : ascii) : Ascii.eqb a b = true <-> a = b.
Proof. apply Ascii.eqb_eq. Qed.

Lemma eqb_char_false (a b : ascii) : Ascii.eqb a b = false <-> a <> b.
Proof. apply Ascii.eqb_neq. Qed.

Lemma isLower_fixed (c : ascii) : isLower c = true -> JS.char_toLowerCase c = c.
Proof. destruct c as [[] [] [] [] [] [] [] []]; vm_compute; congruence. Qed.

Lemma isUpper_moves (c : ascii) : isUpper c = true -> JS.char_toLowerCase c <> c.
Proof. destruct c as [[] [] [] [] [] [] [] []]; vm_compute; congruence. Qed.

Lemma split_not_nil (sep : ascii) (s : string) : JS.split sep s <> [].
Proof.
  induction s as [|a s IH]; cbn; [done |].
  destruct (Ascii.eqb a sep); [done | by destruct (JS.split sep s)].
Qed.

(** Splitting at a separator that is known to be there. *)
Lemma split_app_sep (sep : ascii) (p l : string) :
  JS.split sep (p +:+ String sep l) = JS.split sep p ++ JS.split sep l.
Proof.
  induction p as [|a p IH]; cbn.
  - by rewrite Ascii.eqb_refl.
  - rewrite IH. destruct (Ascii.eqb a sep); [reflexivity |].
    destruct (JS.split sep p) eqn:E; [by apply split_not_nil in E | reflexivity].
Qed.

Lemma split_no_sep (sep : ascii) (l : string) : ~ occurs sep l -> JS.split sep l = [l].
Proof.
  induction l as [|a l IH]; cbn; [done |].
  intros H. rewrite occurs_cons in H.
  destruct (Ascii.eqb a sep) eqn:E.
  - apply eqb_char_true in E. naive_solver.
  - rewrite IH by tauto. done.
Qed.

(** Joining what was split gives the string back. *)
Lemma join_split (sep : ascii) (s : string) :
  JS.join (String sep "") (JS.split sep s) = s.
Proof.
  induction s as [|a s IH]; cbn; [done |].
  destruct (Ascii.eqb a sep) eqn:E.
  - apply eqb_char_true in E; subst a.
    destruct (JS.split sep s) eqn:Es; [by apply split_not_nil in Es |].
    cbn in IH |- *. by rewrite IH.
  - destruct (JS.split sep s) as [|h t] eqn:Es; [by apply split_not_nil in Es |].
    destruct t; cbn in IH |- *; by rewrite <- IH.
Qed.

Lemma includes_cons (c a : ascii) (s : string) :
  JS.includes (String c "") (String a s) = Ascii.eqb c a || JS.includes (String c "") s.
Proof. cbn. by destruct (Ascii.eqb c a). Qed.

(** [s.includes(c)] for a one-character [c] says that [c] occurs. *)
Lemma includes_occurs (c : ascii) (s : string) :
  JS.includes (String c "") s = true <-> occurs c s.
Proof.
  induction s as [|a s IH].
  - cbn. split; [done | intros H; by apply occurs_nil in H].
  - rewrite includes_cons, occurs_cons, orb_true_iff, IH, eqb_char_true. tauto.
Qed.

Lemma includes_not_occurs (c : ascii) (s : string) :
  ~ occurs c s -> JS.includes (String c "") s = false.
Proof.
  intros H. destruct (JS.includes (String c "") s) eqn:E; [|done].
  by apply includes_occurs in E.
Qed.

Lemma span_not_stop (c : ascii) (g rest : string) :
  ~ occurs c g -> JS.span_not c (g +:+ String c rest) = (g, String c rest).
Proof.
  induction g as [|a g IH]; cbn; intros H.
  - by rewrite Ascii.eqb_refl.
  - rewrite occurs_cons in H.
    destruct (Ascii.eqb a c) eqn:E; [apply eqb_char_true in E; naive_solver |].
    rewrite IH by tauto. done.
Qed.

(** The pattern finds the first parenthesised group. *)
Lemma match_paren_group_first (m g rest : string) :
  ~ occurs "("%char m -> g <> "" -> ~ occurs ")"%char g ->
  JS.match_paren_group (m +:+ "(" +:+ g +:+ ")" +:+ rest) = Some g.
Proof.
  intros Hm Hg Hc. induction m as [|a m IH]; cbn.
  - change (g +:+ ")" +:+ rest) with (g +:+ String ")"%char rest).
    rewrite span_not_stop by done. by destruct g.
  - rewrite occurs_cons in Hm.
    destruct (Ascii.eqb a "(") eqn:E; [apply eqb_char_true in E; naive_solver |].
    apply IH. tauto.
Qed.

(** The primitives on small inputs. *)
Example toLowerCase_ex : JS.toLowerCase "Ab.C" = "ab.c".
Proof. reflexivity. Qed.
Example split_ex : JS.split "."%char "a.b..c" = ["a"; "b"; ""; "c"].
Proof. reflexivity. Qed.
Example match_ex1 : JS.match_paren_group "m()(a.B)" = Some "a.B".
Proof. reflexivity. Qed.
Example match_ex2 : JS.match_paren_group "m((a.B)" = Some "(a.B".
Proof. reflexivity. Qed.
Example match_ex3 : JS.match_paren_group "m(a.B" = None.
Proof. reflexivity. Qed.
Example replace_ex : JS.replace "{x}" "<$&|$$|$1>" "a{x}b{x}" = "a<{x}|$|$1>b{x}".
Proof. reflexivity. Qed.
Example trim_ex : JS.trim "  h x " = "h x".
Proof. reflexivity. Qed.
Example ofNat_ex : JS.ofNat 12 = "12" /\ JS.ofNat 0 = "0".
Proof. split; reflexivity. Qed.

(** ** Deriving the class name *)

Lemma rawClassName_paren (m g rest : string) :
  ~ occurs "("%char m -> g <> "" -> ~ occurs ")"%char g ->
  rawClassName (m +:+ "(" +:+ g +:+ ")" +:+ rest) = g.
Proof.
  intros Hm Hg Hc. unfold rawClassName.
  rewrite match_paren_group_first by done.
  assert (JS.includes "(" (m +:+ "(" +:+ g +:+ ")" +:+ rest) = true) as ->; [|done].
  apply (includes_occurs "("%char), occurs_app. right.
  apply occurs_cons. by left.
Qed.

Lemma rawClassName_plain (s : string) : ~ occurs "("%char s -> rawClassName s = s.
Proof.
  intros H. unfold rawClassName.
  by rewrite (includes_not_occurs "("%char).
Qed.

Lemma first_char_test (c : ascii) :
  String.eqb (String c "") (JS.toLowerCase (String c "")) =
  bool_decide (JS.char_toLowerCase c = c).
Proof.
  cbn. destruct (Ascii.eqb_spec c (JS.char_toLowerCase c)) as [E | E].
  - by rewrite bool_decide_eq_true_2.
  - by rewrite bool_decide_eq_false_2.
Qed.

(** What the second step does to [p.l] when [l] has no dot and is not
    empty. *)
Lemma dropMethodName_dotted (p : string) (c : ascii) (r : string) :
  ~ occurs "."%char (String c r) ->
  dropMethodName (p +:+ "." +:+ String c r) =
  if bool_decide (JS.char_toLowerCase c = c) then p else p +:+ "." +:+ String c r.
Proof.
  intros Hdot. unfold dropMethodName.
  change (p +:+ "." +:+ String c r) with (p +:+ String "."%char (String c r)).
  rewrite split_app_sep, (split_no_sep _ (String c r)) by done.
  rewrite last_snoc, first_char_test.
  case_bool_decide; [|done].
  rewrite removelast_last. apply (join_split "."%char).
Qed.

(** The same for a string without any dot. *)
Lemma dropMethodName_single (c : ascii) (r : string) :
  ~ occurs "."%char (String c r) ->
  dropMethodName (String c r) =
  if bool_decide (JS.char_toLowerCase c = c) then "" else String c r.
Proof.
  intros Hdot. unfold dropMethodName.
  rewrite split_no_sep by done. cbn [last].
  rewrite first_char_test. by case_bool_decide.
Qed.

(** ** Running computations *)

Lemma wp_ret {A} (a : A) st Post : Post (Returned a) st -> wp (mret a) st Post.
Proof. done. Qed.

Lemma wp_bind {A B} (m : M A) (f : A -> M B) st Post :
  wp m st (fun o st' =>
    match o with
    | Returned a => wp (f a) st' Post
    | Stopped why => Post (Stopped why) st'
    end) ->
  wp (m ≫= f) st Post.
Proof.
  unfold wp, mbind, M_bind. by destruct (m st) as [[a | why] st'].
Qed.

Lemma wp_mono {A} (m : M A) st (Post Post' : Outcome A -> State -> Prop) :
  wp m st Post -> (forall o st', Post o st' -> Post' o st') -> wp m st Post'.
Proof. unfold wp. auto. Qed.

Lemma wp_hoare {A} (Pre : State -> Prop) (m : M A) Q st Post :
  hoare Pre m Q -> Pre st -> (forall o st', Q o st' -> Post o st') -> wp m st Post.
Proof. intros H HP HQ. apply HQ, H, HP. Qed.

Lemma wp_getThis st Post : Post (Returned (this st)) st -> wp getThis st Post.
Proof. done. Qed.

Lemma wp_modifyThis f st Post :
  Post (Returned tt) (set_this (f (this st)) st) -> wp (modifyThis f) st Post.
Proof. done. Qed.

Lemma wp_emit e st Post : Post (Returned tt) (record e st) -> wp (emit e) st Post.
Proof. done. Qed.

Lemma wp_print sink args st Post :
  Post (Returned tt) (record (EvPrint sink args) st) -> wp (print sink args) st Post.
Proof. done. Qed.

Lemma wp_stop {A} why st (Post : Outcome A -> State -> Prop) :
  Post (Stopped why) st -> wp (stop why) st Post.
Proof. done. Qed.

Lemma wp_process_exit {A} code st (Post : Outcome A -> State -> Prop) :
  Post (Stopped (Exit code)) st -> wp (process_exit code) st Post.
Proof. done. Qed.

Lemma wp_existsSync p st Post :
  Post (Returned (bool_decide (is_Some (files st !! p)))) (record (EvExistsSync p) st) ->
  wp (existsSync p) st Post.
Proof. done. Qed.

Lemma wp_readFileSync p st Post :
  (forall text, files st !! p = Some text ->
     Post (Returned text) (record (EvReadFileSync p) st)) ->
  (files st !! p = None ->
     forall err, Post (Stopped (Throw err)) (record (EvReadFileSync p) st)) ->
  wp (readFileSync p) st Post.
Proof.
  intros HS HN. unfold wp, readFileSync.
  destruct (files st !! p) as [text|]; cbn; auto.
Qed.

Lemma wp_chokidar_watch dirs st Post :
  Post (Returned tt) (add_watch dirs (record (EvWatch dirs) st)) ->
  wp (chokidar_watch dirs) st Post.
Proof. done. Qed.

Lemma wp_question_typed query st Post :
  (forall typed rest, stdin st = typed :: rest ->
     Post (Returned (JS.trim typed))
       (record (EvQuestion query (JS.trim typed)) (set_stdin rest st))) ->
  (stdin st = [] -> Post (Stopped AwaitInput) st) ->
  wp (question query) st Post.
Proof.
  intros HS HN. unfold wp, question.
  destruct (stdin st) as [|typed rest]; cbn; auto.
Qed.

(** The same when it does not matter that the answer is a trimmed line. *)
Lemma wp_question query st Post :
  (forall answer rest, (exists typed, stdin st = typed :: rest) ->
     Post (Returned answer) (record (EvQuestion query answer) (set_stdin rest st))) ->
  (stdin st = [] -> Post (Stopped AwaitInput) st) ->
  wp (question query) st Post.
Proof. intros HS HN. apply wp_question_typed; eauto. Qed.

Section Collaborators.

Variable P : Platform.

Lemma wp_runTests root tmp st Post :
  Post (Returned (tests_pass P (files st) root tmp))
    (record (EvRunTests root tmp)
       (set_files (<[path_join P [tmp; "test_output.txt"] :=
                      test_report P (files st) root tmp]> (files st)) st)) ->
  wp (runTests P root tmp) st Post.
Proof. done. Qed.

Lemma wp_summarizeAllTests root tmp st Post :
  Post (Returned (failing_tests P (files st) root tmp))
    (record (EvSummarizeAllTests root tmp) st) ->
  wp (summarizeAllTests P root tmp) st Post.
Proof. done. Qed.

Lemma wp_collectFilesWithExtension dirs ext st Post :
  (forall found, collected_files P (files st) dirs ext = Done found ->
     Post (Returned found) (record (EvCollectFiles dirs ext) st)) ->
  (forall err, collected_files P (files st) dirs ext = Failed err ->
     Post (Stopped (Throw err)) (record (EvCollectFiles dirs ext) st)) ->
  wp (collectFilesWithExtension P dirs ext) st Post.
Proof.
  intros HD HF. unfold wp, collectFilesWithExtension.
  destruct (collected_files P (files st) dirs ext); cbn; auto.
Qed.

Lemma wp_clearDirectory dir st Post :
  Post (Returned tt) (record (EvClearDirectory dir) (set_files (cleared P dir (files st)) st)) ->
  wp (clearDirectory P dir) st Post.
Proof. done. Qed.

Lemma wp_parseAndApplyGeneratedCode root tmp ext code st Post :
  (forall written, applied P root tmp ext code (files st) = (written, None) ->
     Post (Returned tt) (record (EvParseAndApply root tmp ext code) (set_files written st))) ->
  (forall written err, applied P root tmp ext code (files st) = (written, Some err) ->
     Post (Stopped (Throw err))
       (record (EvParseAndApply root tmp ext code) (set_files written st))) ->
  wp (parseAndApplyGeneratedCode P root tmp ext code) st Post.
Proof.
  intros HD HF. unfold wp, parseAndApplyGeneratedCode.
  destruct (applied P root tmp ext code (files st)) as [written [err|]]; cbn; auto.
Qed.

Lemma wp_generateCode c prompt tmp system st Post :
  (forall reply, ai_reply P c prompt tmp system (length (trace st)) = Done reply ->
     Post (Returned reply) (record (EvGenerateCode c prompt tmp system) st)) ->
  (forall err, ai_reply P c prompt tmp system (length (trace st)) = Failed err ->
     Post (Stopped (Throw err)) (record (EvGenerateCode c prompt tmp system) st)) ->
  wp (generateCode P c prompt tmp system) st Post.
Proof.
  intros HD HF. unfold wp, generateCode.
  destruct (ai_reply P c prompt tmp system (length (trace st))); cbn; auto.
Qed.

Lemma wp_appendFileSync p data st Post :
  (append_error P (files st) p = None ->
     Post (Returned tt)
       (record (EvAppendFileSync p data)
          (set_files (<[p := default "" (files st !! p) +:+ data]> (files st)) st))) ->
  (forall err, append_error P (files st) p = Some err ->
     Post (Stopped (Throw err)) (record (EvAppendFileSync p data) st)) ->
  wp (appendFileSync P p data) st Post.
Proof.
  intros HD HF. unfold wp, appendFileSync.
  destruct (append_error P (files st) p); cbn; auto.
Qed.

Lemma wp_now st Post : Post (Returned (toISOString P (length (trace st)))) st -> wp (now P) st Post.
Proof. done. Qed.

End Collaborators.

(** A loop whose body returns and keeps [I] returns and keeps [I]. *)
Lemma wp_forEach {A} (I : State -> Prop) (f : A -> M unit) l st Post :
  I st ->
  (forall x, returns I (f x)) ->
  (forall st', I st' -> Post (Returned tt) st') ->
  wp (forEach f l) st Post.
Proof.
  intros HI Hf HP. revert st HI. induction l as [|x l IH]; intros st HI; cbn.
  - apply wp_ret; auto.
  - apply wp_bind. eapply wp_hoare; [apply Hf | done |].
    intros o st' [[[] ->] HI']. by apply IH.
Qed.

Lemma wp_mapM {A B} (I : State -> Prop) (f : A -> M B) l st Post :
  I st ->
  (forall x, returns I (f x)) ->
  (forall ys st', I st' -> length ys = length l -> Post (Returned ys) st') ->
  wp (mapM f l) st Post.
Proof.
  intros HI Hf. revert st Post HI. induction l as [|x l IH]; intros st Post HI HP; cbn.
  - apply wp_ret; auto.
  - apply wp_bind. eapply wp_hoare; [apply Hf | done |].
    intros o st' [[y ->] HI']. apply wp_bind, IH; [done |].
    intros ys st'' HI'' Hlen. apply wp_ret, HP; [done | cbn; lia].
Qed.

(** One step of symbolic execution, chosen by the shape of the computation. *)
Ltac wp_step :=
  lazymatch goal with
  | |- wp (_ ≫= _) _ _ => apply wp_bind
  | |- wp (mret _) _ _ => apply wp_ret
  | |- wp getThis _ _ => apply wp_getThis
  | |- wp (modifyThis _) _ _ => apply wp_modifyThis
  | |- wp (print _ _) _ _ => apply wp_print
  | |- wp (emit _) _ _ => apply wp_emit
  | |- wp (process_exit _) _ _ => apply wp_process_exit
  | |- wp (stop _) _ _ => apply wp_stop
  | |- wp (existsSync _) _ _ => apply wp_existsSync
  | |- wp (appendFileSync _ _ _) _ _ => apply wp_appendFileSync; [intros ? | intros ? ?]
  | |- wp (chokidar_watch _) _ _ => apply wp_chokidar_watch
  | |- wp (startSpinner _) _ _ => apply wp_print
  | |- wp (runTests _ _ _) _ _ => apply wp_runTests
  | |- wp (summarizeAllTests _ _ _) _ _ => apply wp_summarizeAllTests
  | |- wp (collectFilesWithExtension _ _ _) _ _ =>
      apply wp_collectFilesWithExtension; intros ? ?
  | |- wp (clearDirectory _ _) _ _ => apply wp_clearDirectory
  | |- wp (parseAndApplyGeneratedCode _ _ _ _ _) _ _ =>
      apply wp_parseAndApplyGeneratedCode; [intros ? ? | intros ? ? ?]
  | |- wp (generateCode _ _ _ _ _) _ _ => apply wp_generateCode; intros ? ?
  | |- wp (now _) _ _ => apply wp_now
  | |- _ => progress cbn [negb]
  end.

Ltac wp_steps := repeat wp_step.

(** A failure contradicts the reliability of the platform. *)
Ltac reliable_contra Hrel :=
  exfalso;
  let Hc := fresh in let Hg := fresh in let Ha := fresh in let Hp := fresh in
  pose proof Hrel as (Hc & Hg & Ha & Hp);
  match goal with
  | H : collected_files _ ?fs ?d ?e = Failed _ |- _ =>
      destruct (Hc fs d e) as [? ?]; congruence
  | H : ai_reply _ ?c ?p ?t ?s ?n = Failed _ |- _ =>
      destruct (Hg c p t s n) as [? ?]; congruence
  | H : applied _ ?r ?t ?e ?c ?fs = (_, Some _) |- _ =>
      specialize (Ha r t e c fs); rewrite H in Ha; discriminate Ha
  | H : append_error _ ?fs ?p = Some _ |- _ =>
      rewrite Hp in H; discriminate H
  end.

(** ** Frames *)

Ltac st_simpl :=
  cbn [this files stdin trace watched record set_files set_this set_stdin add_watch] in *.

Lemma emitted_refl Q st : emitted Q st st.
Proof. repeat split. by exists []. Qed.

Lemma emitted_record Q st0 st e : emitted Q st0 st -> Q e -> emitted Q st0 (record e st).
Proof.
  intros (Ht & Hs & Hw & evs & Hevs & HQ) He. repeat split; [done..|].
  exists (e :: evs). st_simpl. rewrite Hevs. split; [done | by constructor].
Qed.

Lemma emitted_set_files Q st0 st f : emitted Q st0 st -> emitted Q st0 (set_files f st).
Proof. done. Qed.

Lemma emitted_trans Q st0 st1 st2 :
  emitted Q st0 st1 -> emitted Q st1 st2 -> emitted Q st0 st2.
Proof.
  intros (Ht & Hs & Hw & evs & Hevs & HQ) (Ht' & Hs' & Hw' & evs' & Hevs' & HQ').
  repeat split; [congruence..|].
  exists (evs' ++ evs). rewrite Hevs', Hevs, app_assoc. split; [done | by apply Forall_app].
Qed.

Lemma emitted_mono (Q Q' : Event -> Prop) st0 st :
  (forall e, Q e -> Q' e) -> emitted Q st0 st -> emitted Q' st0 st.
Proof.
  intros H (Ht & Hs & Hw & evs & Hevs & HQ). repeat split; [done..|].
  exists evs. split; [done |]. eapply Forall_impl; eauto.
Qed.

Ltac solve_emitted :=
  repeat first
    [ eassumption | apply emitted_refl | apply emitted_set_files
    | apply emitted_record ].

Section Extraction.

Variable P : Platform.

Lemma testFileOf_spec test st :
  wp (testFileOf P test) st (fun o st' =>
    o = Returned (testEntry P (this st) (files st) test) /\
    files st' = files st /\
    emitted (extractionEvent (files st)) st st').
Proof.
  unfold testFileOf. wp_steps. st_simpl.
  set (p := testFilePathOf P (this st) (deriveClassName test)).
  unfold testEntry. fold p.
  destruct (files st !! p) as [text|] eqn:E.
  - rewrite bool_decide_eq_true_2 by eauto.
    apply wp_readFileSync; st_simpl; [|congruence].
    intros text' Ht. assert (text' = text) as -> by congruence. wp_steps.
    split; [done |]. split; [done |]. solve_emitted; cbn; eauto.
  - rewrite bool_decide_eq_false_2 by (intros [? ?]; congruence).
    wp_steps. split; [done |]. split; [done |]. solve_emitted; cbn; eauto.
Qed.

Lemma collectTestFiles_spec failedTests st :
  wp (collectTestFiles P failedTests) st (fun o st' =>
    o = Returned (testEntry P (this st) (files st) <$> failedTests) /\
    files st' = files st /\
    emitted (extractionEvent (files st)) st st').
Proof.
  unfold collectTestFiles. revert st.
  induction failedTests as [|test l IH]; intros st; cbn [mapM fmap list_fmap].
  - wp_steps. split; [done |]. split; [done | apply emitted_refl].
  - apply wp_bind. eapply wp_mono; [apply testFileOf_spec |].
    intros o st1 (-> & Hf1 & He1). apply wp_bind.
    eapply wp_mono; [apply IH |].
    intros o st2 (-> & Hf2 & He2). wp_steps.
    assert (this st1 = this st) as Ht by apply He1.
    rewrite Ht, Hf1 in *. split; [done |]. split; [congruence |].
    eapply emitted_trans; eauto.
Qed.

(** The extraction returns and stays within any frame that allows prints,
    existence checks and reads. *)
Lemma collectTestFiles_returns (Q : Event -> Prop) st0 failedTests :
  (forall fs e, extractionEvent fs e -> Q e) ->
  returns (emitted Q st0) (collectTestFiles P failedTests).
Proof.
  intros HQ st Hst. eapply wp_mono; [apply collectTestFiles_spec |].
  intros o st' (-> & _ & He). split; [eauto |].
  eapply emitted_trans; [done |]. eapply emitted_mono; [apply HQ | done].
Qed.

End Extraction.

Lemma forEach_print_returns (Q : Event -> Prop) {A} sink (g : A -> list string) st0 l :
  (forall args, Q (EvPrint sink args)) ->
  returns (emitted Q st0) (forEach (fun x => print sink (g x)) l).
Proof.
  intros HQ st Hst. eapply wp_forEach with (I := emitted Q st0); [done | | eauto].
  intros x st1 Hst1. wp_steps. split; [eauto |]. by apply emitted_record.
Qed.

(** ** The repair cycle *)

Section Cycle.

Variable P : Platform.

Lemma extraction_is_cycleEvent self fs e : extractionEvent fs e -> cycleEvent self e.
Proof. by destruct e. Qed.

(** Whatever happens in a cycle, the runner is left as it was, nothing is
    asked, and a prompt that is sent is rendered from the runner's hints. *)
Lemma cycle_emits force st0 :
  wp (performCodeGenerationCycle P force) st0 (fun _ st' =>
    emitted (cycleEvent (this st0)) st0 st').
Proof.
  unfold performCodeGenerationCycle.
  apply wp_bind, wp_getThis. apply wp_bind.
  eapply wp_mono with (Post := fun _ st' => emitted (cycleEvent (this st0)) st0 st').
  { destruct force; cbn [negb]; [wp_steps; apply emitted_refl |].
    wp_steps. apply wp_readFileSync; intros; [|solve_emitted; done].
    match goal with |- context [if ?b then _ else _] => destruct b end;
      wp_steps; solve_emitted; done. }
  intros [[[testOutput failedTests]|]|why] st1 He1; [| by wp_steps | done].
  wp_steps; [| solve_emitted; done].
  eapply wp_hoare; [apply forEach_print_returns with (Q := cycleEvent (this st0)) (st0 := st0); done
                   | solve_emitted; done |].
  intros o st2 [[[] ->] He2]. apply wp_bind.
  eapply wp_hoare; [apply collectTestFiles_returns with (Q := cycleEvent (this st0)) (st0 := st0);
                      apply extraction_is_cycleEvent
                   | done |].
  intros o st3 [[testFiles ->] He3]. wp_steps.
  eapply wp_hoare; [apply forEach_print_returns with (Q := cycleEvent (this st0)) (st0 := st0); done
                   | solve_emitted; done |].
  intros o st4 [[[] ->] He4]. wp_steps; [| solve_emitted; done].
  destruct (client (this st0)) as [c|] eqn:Ec; [| wp_steps; solve_emitted; done].
  wp_steps; try (solve_emitted; cbn; eauto; done).
  match goal with |- context [if ?b then _ else _] => destruct b end.
  - wp_steps. apply wp_readFileSync; intros; wp_steps; solve_emitted; cbn; eauto.
  - wp_steps; solve_emitted; cbn; eauto.
Qed.





(** A non-forced cycle on a project whose tests pass: the bare [return]. *)
Lemma cycle_passed st0 :
  tests_pass P (files st0) (projectRoot (this st0)) (tmpDir (this st0)) = true ->
  wp (performCodeGenerationCycle P false) st0 (fun o st' =>
    o = Returned RUndefined /\
    emitted (fun e => isGenerate e = false /\ isApply e = false) st0 st').
Proof.
  intros Hpass. unfold performCodeGenerationCycle.
  wp_steps. cbn [negb]. wp_steps. apply wp_readFileSync; st_simpl.
  - intros text _. rewrite Hpass. wp_steps. split; [done |]. solve_emitted; done.
  - rewrite lookup_insert_eq. done.
Qed.

(** *** From the collection to the session log *)

Lemma extraction_is_gathering fs e : extractionEvent fs e -> gatheringEvent e.
Proof. by destruct e. Qed.

Lemma forEach_print_gathers {A} sink (g : A -> list string) st1 l :
  hoare (fun s => files s = files st1 /\ emitted gatheringEvent st1 s)
    (forEach (fun x => print sink (g x)) l)
    (fun o s' => o = Returned tt /\ files s' = files st1 /\ emitted gatheringEvent st1 s').
Proof.
  intros s Hs.
  eapply wp_forEach with (I := fun s => files s = files st1 /\ emitted gatheringEvent st1 s);
    [done | | done].
  intros x s1 [Hf He]. wp_steps. split; [eauto |]. split; [done |]. by apply emitted_record.
Qed.

Lemma gathered_then_extracted st1 s2 s3 :
  files s2 = files st1 -> emitted gatheringEvent st1 s2 ->
  files s3 = files s2 -> emitted (extractionEvent (files s2)) s2 s3 ->
  files (record (EvPrint LoggerDebug ["Found test files:"]) s3) = files st1 /\
  emitted gatheringEvent st1 (record (EvPrint LoggerDebug ["Found test files:"]) s3).
Proof.
  intros Hf2 He2 Hf3 He3. split; [st_simpl; congruence |].
  apply emitted_record; [|done]. eapply emitted_trans; [done |].
  eapply emitted_mono; [apply extraction_is_gathering | done].
Qed.

Lemma gathering_is_quiet e :
  gatheringEvent e -> isGenerate e = false /\ isRunTests e = false /\ isApply e = false.
Proof. by destruct e. Qed.

(** *** From the session log to the end *)


End Cycle.

(** The first half of a cycle, from the first print after the pre-check to
    the last print before the session log, when the collection succeeds:
    [start] is the state after the pre-check and [Hcol] what the collection
    finds there. *)
Ltac cycle_to_tail start Hcol :=
  apply wp_bind, wp_print;
  apply wp_bind, wp_collectFilesWithExtension;
    [ let found' := fresh "found" in let Hfound := fresh "Hfound" in
      intros found' Hfound; st_simpl; rewrite Hcol in Hfound; injection Hfound as <-
    | let err := fresh "err" in let Hfail := fresh "Hfail" in
      intros err Hfail; st_simpl; rewrite Hcol in Hfail; discriminate Hfail ];
  apply wp_bind, wp_print; apply wp_bind, wp_print; apply wp_bind;
  (eapply wp_hoare;
     [ apply (forEach_print_gathers _ _ start)
     | split; [done | solve_emitted; done] |]);
  (let o := fresh "o" in let s2 := fresh "s2" in
   let Hf2 := fresh "Hf2" in let He2 := fresh "He2" in
   intros o s2 (-> & Hf2 & He2); apply wp_bind;
   eapply wp_mono; [apply collectTestFiles_spec |];
   let o' := fresh "o" in let s3 := fresh "s3" in
   let Hf3 := fresh "Hf3" in let He3 := fresh "He3" in
   intros o' s3 (-> & Hf3 & He3);
   let Ht2 := fresh "Ht2" in
   assert (this s2 = this start) as Ht2 by apply He2;
   rewrite Ht2, Hf2;
   destruct (gathered_then_extracted start s2 s3 Hf2 He2 Hf3 He3);
   apply wp_bind, wp_print; apply wp_bind;
   (eapply wp_hoare; [ apply (forEach_print_gathers _ _ start) | done |]);
   let o'' := fresh "o" in let s4 := fresh "s4" in
   intros o'' s4 (-> & ? & ?));
  apply wp_bind, wp_print.

Section Forced.

Variable P : Platform.


End Forced.


(** ** Hints *)

Lemma hintAnswers_app h1 h2 : hintAnswers (h1 ++ h2) = hintAnswers h1 ++ hintAnswers h2.
Proof.
  induction h1 as [|e h1 IH]; [done |].
  destruct e; cbn [hintAnswers app]; try done.
  destruct (String.eqb query hintQuery); cbn [app]; by rewrite IH.
Qed.

Lemma nonEmpty_app l1 l2 : nonEmpty (l1 ++ l2) = nonEmpty l1 ++ nonEmpty l2.
Proof. apply List.filter_app. Qed.

Lemma history_record e st : history (record e st) = history st ++ [e].
Proof. done. Qed.

Lemma hintAnswers_silent e : isQuestion e = false -> hintAnswers [e] = [].
Proof. by destruct e. Qed.

Lemma renderPrompt_hintLine self testOutput filesContent :
  exists body, renderPrompt self testOutput filesContent
               = body +:+ hintLine (accumulatedHints self).
Proof. unfold renderPrompt. eauto. Qed.

(** Interactions of a cycle extend a good trace to a good trace and add no
    answer. *)
Lemma promptsOK_cycle self t0 evs :
  accumulatedHints self = nonEmpty (hintAnswers (rev t0)) ->
  promptsOK t0 ->
  Forall (cycleEvent self) evs ->
  promptsOK (evs ++ t0) /\ hintAnswers (rev (evs ++ t0)) = hintAnswers (rev t0).
Proof.
  intros Hacc H0. induction 1 as [|e evs He Hevs [IH1 IH2]]; [done |].
  cbn [app rev promptsOK]. rewrite hintAnswers_app, IH2.
  destruct e; cbn in He |- *; try done; rewrite ?app_nil_r; try done.
  split; [|done]. split; [|done].
  destruct He as (_ & testOutput & filesContent & ->).
  rewrite <- Hacc. apply renderPrompt_hintLine.
Qed.

Lemma emitted_hintsInv st0 st' :
  hintsInv st0 -> emitted (cycleEvent (this st0)) st0 st' -> hintsInv st'.
Proof.
  intros [Hacc Hok] (Ht & _ & _ & evs & Hevs & HQ).
  destruct (promptsOK_cycle (this st0) (trace st0) evs) as [H1 H2]; [done..|].
  unfold hintsInv, history. by rewrite Ht, Hevs, H2.
Qed.

Lemma hintsInv_record st e :
  hintsInv st -> isQuestion e = false -> isGenerate e = false -> hintsInv (record e st).
Proof.
  intros [Hacc Hok] Hq Hg. split.
  - rewrite history_record, hintAnswers_app, hintAnswers_silent, app_nil_r by done. done.
  - cbn. split; [by destruct e | done].
Qed.

Lemma hintsInv_asked st query answer :
  hintsInv st -> String.eqb query hintQuery = false ->
  hintsInv (record (EvQuestion query answer) st).
Proof.
  intros [Hacc Hok] Hq. split.
  - rewrite history_record, hintAnswers_app. cbn. rewrite Hq, app_nil_r. done.
  - done.
Qed.

Lemma hintsInv_set_files st f : hintsInv st -> hintsInv (set_files f st).
Proof. done. Qed.

Lemma hintsInv_set_stdin st l : hintsInv st -> hintsInv (set_stdin l st).
Proof. done. Qed.

Lemma hintsInv_add_watch st dirs : hintsInv st -> hintsInv (add_watch dirs st).
Proof. done. Qed.

Lemma hintsInv_set_this st r :
  hintsInv st -> accumulatedHints r = accumulatedHints (this st) -> hintsInv (set_this r st).
Proof.
  intros [Hacc Hok] Hr. split; [|done].
  unfold history in *. cbn [this set_this trace]. congruence.
Qed.

(** The hint prompt: a non-empty answer is appended to the hints, an empty
    one is not. *)
Lemma hintsInv_hint st answer :
  hintsInv st ->
  hintsInv
    (set_this
       (if negb (String.eqb answer "")
        then set_accumulatedHints (accumulatedHints (this st) ++ [answer]) (this st)
        else this st)
       (record (EvQuestion hintQuery answer) st)).
Proof.
  intros [Hacc Hok]. split; [|done].
  unfold history. cbn [trace set_this record rev].
  rewrite hintAnswers_app, nonEmpty_app. cbn [hintAnswers].
  rewrite String.eqb_refl. unfold nonEmpty at 2. cbn [List.filter].
  unfold history in Hacc.
  destruct (String.eqb answer "");
    cbn [negb accumulatedHints set_accumulatedHints this set_this];
    rewrite ?app_nil_r; by rewrite Hacc.
Qed.

Ltac solve_hintsInv :=
  repeat first
    [ eassumption | apply hintsInv_set_files | apply hintsInv_set_stdin
    | apply hintsInv_add_watch
    | apply hintsInv_asked; [| reflexivity]
    | apply hintsInv_record; [| reflexivity | reflexivity]
    | apply hintsInv_set_this; [| reflexivity] ].

Section Session.

Variable P : Platform.

Lemma handleSingleIteration_emits force st0 :
  wp (handleSingleIteration P force) st0 (fun _ st' =>
    emitted (cycleEvent (this st0)) st0 st').
Proof.
  unfold handleSingleIteration. apply wp_bind.
  eapply wp_mono; [apply cycle_emits |].
  intros [r|why] st1 He; [|done].
  destruct (result_truthy r); wp_steps; solve_emitted; done.
Qed.

Lemma handleSingleIteration_hints force : preserves hintsInv (handleSingleIteration P force).
Proof.
  intros st Hst. eapply wp_mono; [apply handleSingleIteration_emits |].
  intros o st'. by apply emitted_hintsInv.
Qed.

Lemma onChange_hints filePath : preserves hintsInv (onChange P filePath).
Proof.
  intros st Hst. unfold onChange. wp_steps.
  eapply wp_hoare; [apply handleSingleIteration_hints | solve_hintsInv | done].
Qed.

Lemma handleHint_hints : preserves hintsInv (handleHint P).
Proof.
  intros st Hst. unfold handleHint. apply wp_bind, wp_question; [|done].
  intros answer rest Hin. apply wp_bind.
  assert (forall Post : Outcome unit -> State -> Prop,
    (forall st', hintsInv st' -> Post (Returned tt) st') ->
    wp (if negb (String.eqb answer "")
        then modifyThis (fun self =>
               set_accumulatedHints (accumulatedHints self ++ [answer]) self);;
             print LoggerDebug ["Added hint: " +:+ answer]
        else mret tt)
       (record (EvQuestion hintQuery answer) (set_stdin rest st)) Post) as Hpush.
  { intros Post HPost.
    pose proof (hintsInv_hint (set_stdin rest st) answer (hintsInv_set_stdin _ _ Hst)) as H.
    destruct (String.eqb answer ""); cbn [negb] in *; wp_steps; apply HPost.
    - by destruct st.
    - solve_hintsInv. }
  apply Hpush. intros st' Hst'.
  eapply wp_hoare; [apply handleSingleIteration_hints | done | done].
Qed.

Lemma getApiKeyForModel_hints model : preserves hintsInv (getApiKeyForModel model).
Proof.
  intros st Hst. unfold getApiKeyForModel. wp_steps.
  match goal with |- context [if ?b then _ else _] => destruct b end;
    wp_steps; solve_hintsInv.
Qed.

Lemma selectAIClient_hints apiKey model : preserves hintsInv (selectAIClient apiKey model).
Proof.
  intros st Hst. unfold selectAIClient. wp_steps.
  repeat case_decide; wp_steps; solve_hintsInv.
Qed.

Lemma promptForModel_hints : preserves hintsInv promptForModel.
Proof.
  intros st Hst. unfold promptForModel. cbn [forEach modelMap_entries]. wp_steps.
  apply wp_question; [|intros _; solve_hintsInv].
  intros answer rest _. wp_steps. solve_hintsInv.
Qed.

Lemma handleModelChange_hints : preserves hintsInv (handleModelChange P).
Proof.
  intros st Hst. unfold handleModelChange. apply wp_bind.
  eapply wp_hoare; [apply promptForModel_hints | done |].
  intros [newModel|why] st1 Hst1; [|done]. apply wp_bind.
  eapply wp_hoare; [apply getApiKeyForModel_hints | done |].
  intros [apiKey|why] st2 Hst2; [|done]. apply wp_bind.
  eapply wp_hoare; [apply selectAIClient_hints | done |].
  intros [c|why] st3 Hst3; [|done]. wp_steps.
  eapply wp_hoare; [apply handleSingleIteration_hints | solve_hintsInv | done].
Qed.

Lemma watchCode_hints : preserves hintsInv (watchCode P).
Proof. intros st Hst. unfold watchCode. wp_steps. solve_hintsInv. Qed.

Lemma interactiveLoop_hints budget : preserves hintsInv (interactiveLoop P budget).
Proof.
  induction budget as [|budget IH]; intros st Hst; cbn [interactiveLoop].
  - by wp_steps.
  - apply wp_bind, wp_question; [|done]. intros line rest _.
    assert (hintsInv (record (EvQuestion menuQuery line) (set_stdin rest st))) as Hst1
      by solve_hintsInv.
    repeat match goal with |- context [if ?b then _ else _] => destruct b end; wp_steps.
    + eapply wp_hoare; [apply handleSingleIteration_hints | solve_hintsInv |].
      intros [[]|why] st2 Hst2; [by apply IH | done].
    + eapply wp_hoare; [apply handleHint_hints | done |].
      intros [[]|why] st2 Hst2; [by apply IH | done].
    + eapply wp_hoare; [apply handleModelChange_hints | done |].
      intros [[]|why] st2 Hst2; [by apply IH | done].
    + solve_hintsInv.
    + eapply wp_hoare; [apply watchCode_hints | solve_hintsInv | done].
    + apply IH. solve_hintsInv.
Qed.

Lemma startInteractiveLoop_hints : preserves hintsInv (startInteractiveLoop P).
Proof. intros st Hst. by apply interactiveLoop_hints. Qed.

Lemma run_hints : preserves hintsInv (run P).
Proof.
  intros st Hst. unfold run. wp_steps.
  eapply wp_hoare; [apply getApiKeyForModel_hints | solve_hintsInv |].
  intros [apiKey|why] st2 Hst2; [|done]. apply wp_bind.
  eapply wp_hoare; [apply selectAIClient_hints | done |].
  intros [c|why] st3 Hst3; [|done]. wp_steps.
  destruct (Client.apiKey c); wp_steps; try solve_hintsInv.
  match goal with |- context [if ?b then _ else _] => destruct b end.
  - apply wp_readFileSync; [|intros; solve_hintsInv].
    intros text _. wp_steps.
    eapply wp_hoare; [apply handleSingleIteration_hints | solve_hintsInv |].
    intros [[]|why] st4 Hst4; [by apply startInteractiveLoop_hints | done].
  - wp_steps.
    eapply wp_hoare; [apply handleSingleIteration_hints | solve_hintsInv |].
    intros [[]|why] st4 Hst4; [by apply startInteractiveLoop_hints | done].
Qed.

End Session.

Lemma promptsOK_carry t : promptsOK t -> promptsCarry nonEmpty (rev t).
Proof.
  induction t as [|e t IH]; intros Hok h1 c prompt tmp system h2 Heq.
  - by destruct h1.
  - destruct Hok as [He Hok]. cbn [rev] in Heq.
    destruct h2 as [|y h2 _] using rev_ind.
    + apply (app_inj_tail (rev t) h1) in Heq as [<- ->]. exact He.
    + rewrite app_comm_cons, app_assoc in Heq.
      apply app_inj_tail in Heq as [Heq _]. by eapply IH.
Qed.

Section Sessions.

Variable P : Platform.

Lemma perform_hints op : preserves hintsInv (perform P op).
Proof.
  destruct op; cbn [perform].
  - apply run_hints.
  - apply handleSingleIteration_hints.
  - apply handleHint_hints.
  - apply handleModelChange_hints.
  - apply watchCode_hints.
  - apply startInteractiveLoop_hints.
  - apply onChange_hints.
Qed.

Lemma session_hints ops : preserves hintsInv (session P ops).
Proof.
  unfold session. induction ops as [|op ops IH]; intros st Hst; cbn [forEach].
  - by wp_steps.
  - apply wp_bind. eapply wp_hoare; [apply perform_hints | done |].
    intros [[]|why] st' Hst'; [by apply IH | done].
Qed.

End Sessions.

(** ** The stored test directory is never used *)

Lemma ignores_ret {A} (a : A) : ignoresTestDir (mret a).
Proof. done. Qed.

Lemma ignores_bind {A B} (m : M A) (f : A -> M B) :
  ignoresTestDir m -> (forall a, ignoresTestDir (f a)) -> ignoresTestDir (m ≫= f).
Proof.
  intros Hm Hf d st. unfold mbind, M_bind. rewrite Hm.
  destruct (m st) as [[a|why] st']; [apply Hf | done].
Qed.

(** Reading [this] is harmless as long as what follows looks at other fields
    only. *)
Lemma ignores_getThis {B} (body : AIPairRunner -> M B) :
  (forall self d st, body (set_testDir d self) st = body self st) ->
  (forall self, ignoresTestDir (body self)) ->
  ignoresTestDir (getThis ≫= body).
Proof.
  intros Hsame Hbody d st. unfold mbind, M_bind, getThis.
  cbn [this withTestDir set_this]. rewrite Hsame. apply Hbody.
Qed.

Lemma ignores_modifyThis f :
  (forall d r, f (set_testDir d r) = set_testDir d (f r)) ->
  ignoresTestDir (modifyThis f).
Proof.
  intros Hf d st. unfold modifyThis, withTestDir. cbn. by rewrite Hf.
Qed.

Lemma ignores_emit e : ignoresTestDir (emit e).
Proof. done. Qed.

Lemma ignores_print sink args : ignoresTestDir (print sink args).
Proof. done. Qed.

Lemma ignores_stop {A} why : ignoresTestDir (stop (A := A) why).
Proof. done. Qed.

Lemma ignores_process_exit {A} code : ignoresTestDir (process_exit (A := A) code).
Proof. done. Qed.

Lemma ignores_existsSync p : ignoresTestDir (existsSync p).
Proof. done. Qed.

Lemma ignores_readFileSync p : ignoresTestDir (readFileSync p).
Proof. intros d st. unfold readFileSync. cbn. by destruct (files st !! p). Qed.

Lemma ignores_chokidar_watch dirs : ignoresTestDir (chokidar_watch dirs).
Proof. done. Qed.

Lemma ignores_question query : ignoresTestDir (question query).
Proof. intros d st. unfold question. cbn. by destruct (stdin st). Qed.

Lemma ignores_forEach {A} (f : A -> M unit) l :
  (forall x, ignoresTestDir (f x)) -> ignoresTestDir (forEach f l).
Proof.
  intros Hf. induction l as [|x l IH]; cbn [forEach]; [apply ignores_ret |].
  apply ignores_bind; auto.
Qed.

Lemma ignores_mapM {A B} (f : A -> M B) l :
  (forall x, ignoresTestDir (f x)) -> ignoresTestDir (mapM f l).
Proof.
  intros Hf. induction l as [|x l IH]; cbn [mapM]; [apply ignores_ret |].
  apply ignores_bind; [auto |]. intros y.
  apply ignores_bind; [auto |]. intros ys. apply ignores_ret.
Qed.

Section TestDir.

Variable P : Platform.

Lemma ignores_runTests root tmp : ignoresTestDir (runTests P root tmp).
Proof. done. Qed.

Lemma ignores_summarizeAllTests root tmp : ignoresTestDir (summarizeAllTests P root tmp).
Proof. done. Qed.

Lemma ignores_collectFilesWithExtension dirs ext :
  ignoresTestDir (collectFilesWithExtension P dirs ext).
Proof.
  intros d st. unfold collectFilesWithExtension. cbn.
  by destruct (collected_files P (files st) dirs ext).
Qed.

Lemma ignores_appendFileSync p data : ignoresTestDir (appendFileSync P p data).
Proof.
  intros d st. unfold appendFileSync. cbn. by destruct (append_error P (files st) p).
Qed.

Lemma ignores_clearDirectory dir : ignoresTestDir (clearDirectory P dir).
Proof. done. Qed.

Lemma ignores_parseAndApplyGeneratedCode root tmp ext code :
  ignoresTestDir (parseAndApplyGeneratedCode P root tmp ext code).
Proof.
  intros d st. unfold parseAndApplyGeneratedCode. cbn.
  by destruct (applied P root tmp ext code (files st)) as [written [err|]].
Qed.

Lemma ignores_generateCode c prompt tmp system :
  ignoresTestDir (generateCode P c prompt tmp system).
Proof.
  intros d st. unfold generateCode. cbn.
  by destruct (ai_reply P c prompt tmp system (length (trace st))).
Qed.

Lemma ignores_now : ignoresTestDir (now P).
Proof. done. Qed.

End TestDir.

(** Structural rules by the shape of the computation. *)
Ltac ignores_step :=
  lazymatch goal with
  | |- ignoresTestDir (getThis ≫= _) =>
      apply ignores_getThis; [intros; reflexivity | intros ?]
  | |- ignoresTestDir (_ ≫= _) => apply ignores_bind; [| intros ?]
  | |- ignoresTestDir (mret _) => apply ignores_ret
  | |- ignoresTestDir (modifyThis _) => apply ignores_modifyThis; intros; reflexivity
  | |- ignoresTestDir (print _ _) => apply ignores_print
  | |- ignoresTestDir (emit _) => apply ignores_emit
  | |- ignoresTestDir (process_exit _) => apply ignores_process_exit
  | |- ignoresTestDir (stop _) => apply ignores_stop
  | |- ignoresTestDir (existsSync _) => apply ignores_existsSync
  | |- ignoresTestDir (readFileSync _) => apply ignores_readFileSync
  | |- ignoresTestDir (appendFileSync _ _ _) => apply ignores_appendFileSync
  | |- ignoresTestDir (chokidar_watch _) => apply ignores_chokidar_watch
  | |- ignoresTestDir (question _) => apply ignores_question
  | |- ignoresTestDir (startSpinner _) => apply ignores_print
  | |- ignoresTestDir (runTests _ _ _) => apply ignores_runTests
  | |- ignoresTestDir (summarizeAllTests _ _ _) => apply ignores_summarizeAllTests
  | |- ignoresTestDir (collectFilesWithExtension _ _ _) => apply ignores_collectFilesWithExtension
  | |- ignoresTestDir (clearDirectory _ _) => apply ignores_clearDirectory
  | |- ignoresTestDir (parseAndApplyGeneratedCode _ _ _ _ _) =>
      apply ignores_parseAndApplyGeneratedCode
  | |- ignoresTestDir (generateCode _ _ _ _ _) => apply ignores_generateCode
  | |- ignoresTestDir (now _) => apply ignores_now
  | |- ignoresTestDir (forEach _ _) => apply ignores_forEach; intros ?
  | |- ignoresTestDir (mapM _ _) => apply ignores_mapM; intros ?
  | |- ignoresTestDir (if ?b then _ else _) => destruct b
  | |- ignoresTestDir (match ?x with _ => _ end) => destruct x
  | |- ignoresTestDir (let '(_, _) := ?x in _) => destruct x
  end.

Section TestDirMethods.

Variable P : Platform.

Lemma ignores_testFileOf test : ignoresTestDir (testFileOf P test).
Proof. unfold testFileOf. repeat ignores_step. Qed.

Lemma ignores_cycle force : ignoresTestDir (performCodeGenerationCycle P force).
Proof.
  unfold performCodeGenerationCycle, collectTestFiles.
  repeat first [ apply ignores_testFileOf | ignores_step ].
Qed.

Lemma ignores_handleSingleIteration force : ignoresTestDir (handleSingleIteration P force).
Proof.
  unfold handleSingleIteration. repeat first [ apply ignores_cycle | ignores_step ].
Qed.

Lemma ignores_onChange filePath : ignoresTestDir (onChange P filePath).
Proof. unfold onChange. repeat first [ apply ignores_handleSingleIteration | ignores_step ]. Qed.

Lemma ignores_watchCode : ignoresTestDir (watchCode P).
Proof. unfold watchCode. repeat ignores_step. Qed.

Lemma ignores_handleHint : ignoresTestDir (handleHint P).
Proof. unfold handleHint. repeat first [ apply ignores_handleSingleIteration | ignores_step ]. Qed.

Lemma ignores_getApiKeyForModel model : ignoresTestDir (getApiKeyForModel model).
Proof. unfold getApiKeyForModel. repeat ignores_step. Qed.

Lemma ignores_selectAIClient apiKey model : ignoresTestDir (selectAIClient apiKey model).
Proof. unfold selectAIClient. repeat ignores_step. Qed.

Lemma ignores_promptForModel : ignoresTestDir promptForModel.
Proof. unfold promptForModel. repeat ignores_step. Qed.

Lemma ignores_handleModelChange : ignoresTestDir (handleModelChange P).
Proof.
  unfold handleModelChange.
  repeat first [ apply ignores_handleSingleIteration | apply ignores_promptForModel
               | apply ignores_getApiKeyForModel | apply ignores_selectAIClient
               | ignores_step ].
Qed.

Lemma ignores_interactiveLoop budget : ignoresTestDir (interactiveLoop P budget).
Proof.
  induction budget as [|budget IH]; cbn [interactiveLoop].
  - apply ignores_stop.
  - repeat first [ apply IH | apply ignores_handleSingleIteration | apply ignores_handleHint
                 | apply ignores_handleModelChange | apply ignores_watchCode
                 | ignores_step ].
Qed.

Lemma ignores_startInteractiveLoop : ignoresTestDir (startInteractiveLoop P).
Proof. intros d st. apply ignores_interactiveLoop. Qed.

Lemma ignores_run : ignoresTestDir (run P).
Proof.
  unfold run.
  repeat first [ apply ignores_handleSingleIteration | apply ignores_startInteractiveLoop
               | apply ignores_getApiKeyForModel | apply ignores_selectAIClient
               | ignores_step ].
Qed.

Lemma ignores_perform op : ignoresTestDir (perform P op).
Proof.
  destruct op; cbn [perform];
    auto using ignores_run, ignores_handleSingleIteration, ignores_handleHint,
      ignores_handleModelChange, ignores_watchCode, ignores_startInteractiveLoop,
      ignores_onChange.
Qed.

Lemma ignores_session ops : ignoresTestDir (session P ops).
Proof. apply ignores_forEach, ignores_perform. Qed.

End TestDirMethods.

(** ** Credentials and backends *)

Section Backends.

Variable P : Platform.

(** Without a credential [getApiKeyForModel] prints two lines and exits with
    code 1. *)
Lemma getApiKeyForModel_missing model st :
  truthy (credential (this st) model) = false ->
  wp (getApiKeyForModel model) st (fun o st' =>
    o = Stopped (Exit 1) /\ files st' = files st /\
    emitted (fun e => isPrint e = true) st st').
Proof.
  intros Hno. unfold getApiKeyForModel. wp_steps.
  fold (credential (this st) model). rewrite Hno. wp_steps.
  split; [done |]. split; [done |]. solve_emitted; done.
Qed.

Lemma getApiKeyForModel_present model st :
  truthy (credential (this st) model) = true ->
  getApiKeyForModel model st = (Returned (credential (this st) model), st).
Proof.
  intros Hyes. unfold getApiKeyForModel, mbind, M_bind, getThis.
  fold (credential (this st) model). by rewrite Hyes.
Qed.

Lemma run_missing st :
  truthy (credential (this st) (model (this st))) = false ->
  wp (run P) st (fun o st' =>
    o = Stopped (Exit 1) /\ files st' = files st /\
    emitted (fun e => isPrint e = true) st st').
Proof.
  intros Hno. unfold run. wp_steps.
  eapply wp_mono; [apply getApiKeyForModel_missing; done |].
  intros o st' (-> & Hf & He). split; [done |]. split; [done |].
  eapply emitted_trans; [|exact He]. solve_emitted; done.
Qed.

Lemma familyClass_cases family cls :
  familyClass family = Some cls ->
  family = "openai" /\ cls = ChatGPTClient \/
  family = "anthropic" /\ cls = ClaudeClient \/
  family = "gemini" /\ cls = GeminiClient.
Proof.
  unfold familyClass.
  destruct (String.eqb_spec family "openai") as [-> | _]; [naive_solver |].
  destruct (String.eqb_spec family "anthropic") as [-> | _]; [naive_solver |].
  destruct (String.eqb_spec family "gemini") as [-> | _]; [naive_solver | done].
Qed.

(** A model mapped to a family gets the backend of that family, silently. *)
Lemma selectAIClient_mapped apiKey model family cls st :
  obj_get (models (this st)) (to_string model) = VString family ->
  familyClass family = Some cls ->
  selectAIClient apiKey model st = (Returned (Client.new cls apiKey model), st).
Proof.
  intros Hfam Hcls. unfold selectAIClient, mbind, M_bind, getThis. rewrite Hfam.
  apply familyClass_cases in Hcls as [[-> ->] | [[-> ->] | [-> ->]]]; done.
Qed.

(** Any other model gets the ChatGPT backend, after a warning. *)
Lemma selectAIClient_fallback apiKey model st :
  (forall family, obj_get (models (this st)) (to_string model) = VString family ->
                  familyClass family = None) ->
  selectAIClient apiKey model st =
  (Returned (Client.new ChatGPTClient apiKey model),
   record (EvPrint LoggerWarn ["Model not recognized, defaulting to ChatGPTClient."]) st).
Proof.
  intros Hfam. unfold selectAIClient, mbind, M_bind, getThis.
  repeat case_decide; try done;
    match goal with H : _ = VString _ |- _ => apply Hfam in H; done end.
Qed.

(** The backend class depends on the model and on the table only. *)
Lemma selectAIClient_class apiKey1 apiKey2 model st1 st2 :
  models (this st1) = models (this st2) ->
  forall c1 st1' c2 st2',
    selectAIClient apiKey1 model st1 = (Returned c1, st1') ->
    selectAIClient apiKey2 model st2 = (Returned c2, st2') ->
    Client.class c1 = Client.class c2.
Proof.
  intros Hm c1 st1' c2 st2'. unfold selectAIClient, mbind, M_bind, getThis. rewrite Hm.
  repeat case_decide; cbn; intros [= <- _] [= <- _]; done.
Qed.

Lemma selectAIClient_returns apiKey model st :
  exists c st', selectAIClient apiKey model st = (Returned c, st').
Proof.
  unfold selectAIClient, mbind, M_bind, getThis. repeat case_decide; cbn; eauto.
Qed.

(** Every model of the constructor's table is mapped to one of the three
    families. *)
Lemma models_table_families m v :
  models_table !! m = Some v ->
  exists family cls, v = VString family /\ familyClass family = Some cls.
Proof.
  unfold models_table. intros H.
  repeat (apply lookup_insert_Some in H as [[_ <-] | [_ H]]; [by eexists _, _ |]).
  by rewrite lookup_empty in H.
Qed.

End Backends.

(** ** Counting *)

Lemma count_app kind t1 t2 : count kind (t1 ++ t2) = count kind t1 + count kind t2.
Proof. unfold count. by rewrite List.filter_app, length_app. Qed.

Lemma count_cons kind e t : count kind (e :: t) = (if kind e then 1 else 0) + count kind t.
Proof. unfold count. cbn. by destruct (kind e). Qed.

Lemma count_none kind t : Forall (fun e => kind e = false) t -> count kind t = 0.
Proof.
  induction 1 as [|e t He _ IH]; [done |].
  unfold count in *. cbn. by rewrite He.
Qed.

Lemma count_emitted kind (Q : Event -> Prop) st st' :
  (forall e, Q e -> kind e = false) ->
  emitted Q st st' -> count kind (trace st') = count kind (trace st).
Proof.
  intros HQ (_ & _ & _ & evs & -> & Hevs).
  rewrite count_app, count_none; [done |]. eapply Forall_impl; eauto.
Qed.

Lemma emitted_history Q st st' :
  emitted Q st st' -> exists added, history st' = history st ++ added /\ Forall Q added.
Proof.
  intros (_ & _ & _ & evs & Hevs & HQ). exists (rev evs).
  unfold history. rewrite Hevs, rev_app_distr. split; [done | by apply Forall_rev].
Qed.

Lemma wp_run {A} (m : M A) st Post :
  wp m st Post -> exists o st', m st = (o, st') /\ Post o st'.
Proof. unfold wp. destruct (m st) as [o st']. eauto. Qed.

(** ** The entry script and the test directory *)

Section Script.

Variable P : Platform.

Lemma withTestDir_idem d d' st : withTestDir d (withTestDir d' st) = withTestDir d st.
Proof. done. Qed.

Lemma sameButTestDir_refl st : sameButTestDir st st.
Proof. done. Qed.

Lemma sameButTestDir_withTestDir d st : sameButTestDir (withTestDir d st) st.
Proof. done. Qed.

Lemma constructor_testDir model root d d' ext k1 k2 k3 ll st :
  constructor P model root d ext k1 k2 k3 ll st =
  match constructor P model root d' ext k1 k2 k3 ll st with
  | (Returned r, st') => (Returned (set_testDir d r), st')
  | (Stopped why, st') => (Stopped why, st')
  end.
Proof.
  unfold constructor, mbind, M_bind.
  destruct (readFileSync _ st) as [[systemPrompt|why] st1]; [|done].
  destruct (readFileSync _ st1) as [[promptTemplate|why] st2]; done.
Qed.

Lemma exitOnError_same (m1 m2 : M unit) st1 st2 :
  (m1 st1).1 = (m2 st2).1 -> sameButTestDir (m1 st1).2 (m2 st2).2 ->
  (exitOnError m1 st1).1 = (exitOnError m2 st2).1 /\
  sameButTestDir (exitOnError m1 st1).2 (exitOnError m2 st2).2.
Proof.
  unfold exitOnError. destruct (m1 st1) as [o1 st1'], (m2 st2) as [o2 st2'].
  cbn. intros -> Hsame. destruct o2 as [[]|[code|err|]]; cbn; try done.
  split; [done |]. unfold sameButTestDir in *.
  exact (f_equal (record (EvPrint ConsoleError ["Failed to run AI Pair:"; err])) Hsame).
Qed.

(** A value given to [--test-dir] as plain text changes neither what the
    script does nor the state it leaves, except for the runner's [testDir]
    field. *)
Lemma main_ignores_test_dir envJson k1 k2 k3 ll m p e t t' st :
  let args := mkArgs m p e (VString t) in
  let args' := mkArgs m p e (VString t') in
  (main P envJson k1 k2 k3 ll args' st).1 = (main P envJson k1 k2 k3 ll args st).1 /\
  sameButTestDir (main P envJson k1 k2 k3 ll args' st).2 (main P envJson k1 k2 k3 ll args st).2.
Proof.
  intros args args'. unfold main. apply exitOnError_same.
  all: unfold mbind, M_bind; cbn [print emit arg_model arg_project_root arg_extension arg_test_dir args args'].
  all: change (validateArgs args') with (validateArgs args).
  all: destruct (validateArgs args _) as [[[]|why] st1]; [|done].
  all: destruct (resolveArg P [] p st1) as [[root|why] st2]; [|done].
  all: cbn [resolveArg mret M_ret].
  all: rewrite (constructor_testDir m _ (path_resolve P ([root] ++ [t']))
                  (path_resolve P ([root] ++ [t]))).
  all: destruct (constructor P m _ _ e k1 k2 k3 ll st2) as [[r|why] st3]; [|done].
  all: unfold modifyThis.
  all: change (set_this (set_testDir ?d r) st3) with (withTestDir d (set_this r st3)).
  all: rewrite ignores_run; done.
Qed.

(** A value given to [--test-dir] that is not plain text (a number, a bare
    flag, a repeated option) stops the script with exit code 1 before the
    runner is built: by then it has only printed. *)
Lemma main_bad_test_dir envJson k1 k2 k3 ll m p e t st :
  (forall s, t <> VString s) ->
  exists st',
    main P envJson k1 k2 k3 ll (mkArgs m p e t) st = (Stopped (Exit 1), st') /\
    this st' = this st /\ files st' = files st /\
    exists added, history st' = history st ++ added /\
                  Forall (fun ev => isPrint ev = true) added.
Proof.
  intros Ht.
  assert (wp (main P envJson k1 k2 k3 ll (mkArgs m p e t)) st (fun o st' =>
            o = Stopped (Exit 1) /\ files st' = files st /\
            emitted (fun ev => isPrint ev = true) st st')) as H.
  { unfold main, wp, exitOnError.
    match goal with |- context [match ?body st with _ => _ end] =>
      assert (wp body st (fun o st' =>
                (o = Stopped (Exit 1) \/ exists err, o = Stopped (Throw err)) /\
                files st' = files st /\
                emitted (fun ev => isPrint ev = true) st st')) as Hbody
    end.
    { wp_steps. unfold validateArgs. cbn [arg_model arg_project_root arg_test_dir].
      apply wp_bind.
      match goal with |- context [if negb ?b then _ else _] => destruct b end; cbn [negb];
        wp_steps; [| split; [by left | split; [done | solve_emitted; done]]].
      match goal with |- context [if negb ?b then _ else _] => destruct b end; cbn [negb];
        wp_steps; [| split; [by left | split; [done | solve_emitted; done]]].
      unfold resolveArg.
      destruct p; wp_steps; try (split; [right; eauto | split; [done | solve_emitted; done]]).
      destruct t; wp_steps; try (split; [right; eauto | split; [done | solve_emitted; done]]).
      by destruct (Ht s0). }
    unfold wp in Hbody.
    match goal with |- context [match ?body st with _ => _ end] =>
      destruct (body st) as [o st1] end.
    cbn in Hbody. destruct Hbody as ([-> | [err ->]] & Hf & He); cbn.
    - done.
    - split; [done |]. split; [done |]. solve_emitted; done. }
  destruct (wp_run _ _ _ H) as (o & st' & Hrun & -> & Hf & He).
  exists st'. split; [done |]. split; [apply He |]. split; [done |].
  by apply emitted_history in He.
Qed.

End Script.

Lemma promptsCarry_OK t : promptsCarry nonEmpty (rev t) -> promptsOK t.
Proof.
  induction t as [|e t IH]; intros Hc; [done |]. cbn [rev] in Hc. split.
  - destruct e; try done. eapply (Hc (rev t) _ _ _ _ []). done.
  - apply IH. intros h1 c prompt tmp system h2 Heq.
    eapply (Hc h1 _ _ _ _ (h2 ++ [e])). rewrite Heq, <- app_assoc. done.
Qed.

Lemma endsWith_app body suffix : endsWith suffix (body +:+ suffix) = true.
Proof.
  induction body as [|a body IH]; cbn [String.append endsWith].
  - destruct suffix; cbn [endsWith]; by rewrite String.eqb_refl.
  - rewrite IH. apply orb_true_r.
Qed.

(** ** The menu loop needs no more budget than lines to read *)

Section Budget.

Variable P : Platform.

Ltac solve_stdin := st_simpl; repeat match goal with H : stdin _ = _ |- _ => rewrite H in * end;
                    cbn [length] in *; lia.

Lemma handleSingleIteration_stdin force n :
  preserves (fun st => length (stdin st) <= n) (handleSingleIteration P force).
Proof.
  intros st Hst. eapply wp_mono; [apply handleSingleIteration_emits |].
  intros o st' (_ & Hs & _). cbn beta. by rewrite Hs.
Qed.

Lemma handleHint_stdin n :
  preserves (fun st => length (stdin st) <= n) (handleHint P).
Proof.
  intros st Hst. unfold handleHint. apply wp_bind, wp_question; [|intros; exact Hst].
  intros answer rest [typed Hin].
  destruct (String.eqb answer ""); wp_steps;
    (eapply wp_hoare; [apply handleSingleIteration_stdin with (n := n) | solve_stdin | done]).
Qed.

Lemma handleModelChange_stdin n :
  preserves (fun st => length (stdin st) <= n) (handleModelChange P).
Proof.
  intros st Hst. unfold handleModelChange, promptForModel, getApiKeyForModel, selectAIClient.
  cbn [forEach modelMap_entries]. wp_steps.
  apply wp_question; [|intros; solve_stdin].
  intros answer rest [typed Hin]. wp_steps.
  match goal with |- context [if negb ?b then _ else _] => destruct b end; wp_steps;
    [|solve_stdin].
  repeat case_decide; wp_steps;
    (eapply wp_hoare; [apply handleSingleIteration_stdin with (n := n) | solve_stdin | done]).
Qed.

Lemma bind_ext {A B} (h : M A) (f g : A -> M B) st :
  (forall a st', h st = (Returned a, st') -> f a st' = g a st') ->
  (h ≫= f) st = (h ≫= g) st.
Proof.
  intros H. unfold mbind, M_bind. destruct (h st) as [[a|why] st']; [by apply H | done].
Qed.

Lemma interactiveLoop_budget b1 : forall b2 st,
  length (stdin st) < b1 -> length (stdin st) < b2 ->
  interactiveLoop P b1 st = interactiveLoop P b2 st.
Proof.
  induction b1 as [|b1 IH]; intros [|b2] st H1 H2; [lia.. |].
  cbn [interactiveLoop]. apply bind_ext. intros line st1 Hq.
  assert (length (stdin st1) < b1 /\ length (stdin st1) < b2) as [Hb1 Hb2].
  { unfold question in Hq. destruct (stdin st) as [|l rest]; [done |].
    injection Hq as _ <-. cbn [length] in *. st_simpl. lia. }
  assert (forall (h : M unit) st2,
            length (stdin st2) <= length (stdin st1) ->
            preserves (fun st => length (stdin st) <= length (stdin st1)) h ->
            (h ≫= fun _ => interactiveLoop P b1) st2 = (h ≫= fun _ => interactiveLoop P b2) st2)
    as Hthen.
  { intros h st2 Hst2 Hh. apply bind_ext. intros [] st3 Hrun.
    specialize (Hh st2 Hst2). unfold wp in Hh. rewrite Hrun in Hh. cbn in Hh.
    apply IH; lia. }
  repeat match goal with |- context [if ?b then _ else _] => destruct b end.
  - apply bind_ext. intros [] st2 [= <-].
    apply Hthen; [done | apply handleSingleIteration_stdin].
  - apply Hthen; [done | apply handleHint_stdin].
  - apply Hthen; [done | apply handleModelChange_stdin].
  - done.
  - done.
  - apply bind_ext. intros [] st2 [= <-]. by apply IH.
Qed.

(** [startInteractiveLoop] behaves as the loop with any larger budget. *)
Lemma startInteractiveLoop_budget b st :
  length (stdin st) < b -> startInteractiveLoop P st = interactiveLoop P b st.
Proof. intros Hb. apply interactiveLoop_budget; [lia | done]. Qed.

End Budget.

(** ** Cycles of a runner that has a backend *)

Section WithBackend.

Variable P : Platform.
Hypothesis Hrel : reliable P.

(** With a backend and a reliable platform, a cycle always returns: the
    report it reads has just been written, and the test files it reads
    exist. *)
Lemma cycle_returns force st0 :
  hasBackend st0 ->
  wp (performCodeGenerationCycle P force) st0 (fun o st' =>
    (exists r, o = Returned r) /\ emitted (fun _ => True) st0 st').
Proof.
  intros [c Hc]. unfold performCodeGenerationCycle.
  apply wp_bind, wp_getThis. apply wp_bind.
  eapply wp_mono with
    (Post := fun o st' => (exists pre, o = Returned pre) /\ emitted (fun _ => True) st0 st').
  { destruct force; cbn [negb]; [wp_steps; split; [eauto | apply emitted_refl] |].
    wp_steps. apply wp_readFileSync; st_simpl; [| by rewrite lookup_insert_eq].
    intros text _.
    match goal with |- context [if ?b then _ else _] => destruct b end;
      wp_steps; (split; [eauto | solve_emitted; done]). }
  intros o st1 [[[[testOutput failedTests]|] ->] He1]; [| wp_steps; eauto].
  wp_steps; [| reliable_contra Hrel].
  eapply wp_hoare; [apply forEach_print_returns with (Q := fun _ => True) (st0 := st0); done
                   | solve_emitted; done |].
  intros o st2 [[[] ->] He2]. apply wp_bind.
  eapply wp_hoare; [apply collectTestFiles_returns with (Q := fun _ => True) (st0 := st0); done
                   | done |].
  intros o st3 [[testFiles ->] He3]. wp_steps.
  eapply wp_hoare; [apply forEach_print_returns with (Q := fun _ => True) (st0 := st0); done
                   | solve_emitted; done |].
  intros o st4 [[[] ->] He4]. wp_steps; [| reliable_contra Hrel]. rewrite Hc.
  wp_steps; try (reliable_contra Hrel).
  match goal with |- context [if ?b then _ else _] => destruct b end.
  - wp_steps. apply wp_readFileSync; st_simpl; [| by rewrite lookup_insert_eq].
    intros text _. wp_steps. split; [eauto | solve_emitted; done].
  - wp_steps. split; [eauto | solve_emitted; done].
Qed.

Lemma emitted_hasBackend Q st0 st' : hasBackend st0 -> emitted Q st0 st' -> hasBackend st'.
Proof. intros H (Ht & _). unfold hasBackend. by rewrite Ht. Qed.

Lemma handleSingleIteration_returns force :
  hoare hasBackend (handleSingleIteration P force)
    (fun o st' => o = Returned tt /\ hasBackend st').
Proof.
  intros st Hst. unfold handleSingleIteration. apply wp_bind.
  eapply wp_mono; [by apply cycle_returns |].
  intros o st1 [[r ->] He]. apply (emitted_hasBackend _ _ _ Hst) in He.
  destruct (result_truthy r); wp_steps; done.
Qed.

Lemma onChange_returns filePath :
  hoare hasBackend (onChange P filePath) (fun o st' => o = Returned tt /\ hasBackend st').
Proof.
  intros st Hst. unfold onChange. wp_steps.
  eapply wp_hoare; [apply handleSingleIteration_returns | done | done].
Qed.

Lemma handleHint_noThrow :
  hoare hasBackend (handleHint P) (fun o st' => noThrow o /\ hasBackend st').
Proof.
  intros st Hst. unfold handleHint. apply wp_bind, wp_question; [|done].
  intros answer rest _.
  destruct (String.eqb answer ""); wp_steps;
    (eapply wp_hoare; [apply handleSingleIteration_returns | done |]);
    by intros o st' [-> H].
Qed.

Lemma handleModelChange_noThrow st :
  wp (handleModelChange P) st (fun o st' =>
    noThrow o /\ (hasBackend st -> hasBackend st')).
Proof.
  unfold handleModelChange, promptForModel, getApiKeyForModel, selectAIClient.
  cbn [forEach modelMap_entries]. wp_steps.
  apply wp_question; [|done]. intros answer rest _. wp_steps.
  match goal with |- context [if negb ?b then _ else _] => destruct b end; wp_steps;
    [|done].
  repeat case_decide; wp_steps;
    (eapply wp_hoare; [apply handleSingleIteration_returns | by eexists |]);
    by intros o st' [-> ?].
Qed.

Lemma interactiveLoop_noThrow budget :
  hoare hasBackend (interactiveLoop P budget) (fun o st' => noThrow o /\ hasBackend st').
Proof.
  induction budget as [|budget IH]; intros st Hst; cbn [interactiveLoop].
  - by wp_steps.
  - apply wp_bind, wp_question; [|done]. intros line rest _.
    repeat match goal with |- context [if ?b then _ else _] => destruct b end; wp_steps.
    + eapply wp_hoare; [apply handleSingleIteration_returns | done |].
      intros o st2 [-> Hst2]. by apply IH.
    + eapply wp_hoare; [apply handleHint_noThrow | done |].
      intros [[]|why] st2 [Hno Hst2]; [by apply IH | done].
    + eapply wp_mono; [apply handleModelChange_noThrow |].
      intros [[]|why] st2 [Hno Hst2]; [apply IH; by apply Hst2 | split; [done | by apply Hst2]].
    + done.
    + unfold watchCode. by wp_steps.
    + by apply IH.
Qed.

Lemma startInteractiveLoop_noThrow :
  hoare hasBackend (startInteractiveLoop P) (fun o st' => noThrow o /\ hasBackend st').
Proof. intros st Hst. by apply interactiveLoop_noThrow. Qed.

(** [run] chooses the backend before its first cycle, so no cycle of the
    process ever lacks one: the only exception [run] can end in is the one of
    a credential that is not a string. *)
Lemma run_throws_only_without_string_key st :
  wp (run P) st (fun o st' =>
    forall err, o = Stopped (Throw err) ->
      err = "TypeError: this.client.apiKey.substring is not a function").
Proof.
  unfold run, getApiKeyForModel, selectAIClient. wp_steps.
  match goal with |- context [if negb ?b then _ else _] => destruct b end; wp_steps;
    [|done].
  assert (forall c st1,
    wp (modifyThis (set_client c);;
        prefix ← match Client.apiKey c with
                 | VString key => mret (JS.substring0 4 key)
                 | _ => stop (Throw "TypeError: this.client.apiKey.substring is not a function")
                 end;
        print LoggerDebug ["Initialized " +:+ to_string (Client.model c)
                           +:+ " client with API key: " +:+ prefix +:+ "..."];;
        print LoggerDebug ["Clearing temporary directories"];;
        clearDirectory P (tmpDir (this st));;
        clearDirectory P (path_join P [tmpDir (this st); "archive/versions"]);;
        print LoggerDebug ["Reading build.gradle.kts file"];;
        present ← existsSync (path_join P [projectRoot (this st); "build.gradle.kts"]);
        text ← (if present : bool
                then readFileSync (path_join P [projectRoot (this st); "build.gradle.kts"])
                else mret "");
        modifyThis (set_buildGradleContent (VString text));;
        handleSingleIteration P false;;
        startInteractiveLoop P) st1
      (fun o st' => forall err, o = Stopped (Throw err) ->
         err = "TypeError: this.client.apiKey.substring is not a function")) as Hrest.
  { intros c st1. wp_steps.
    destruct (Client.apiKey c); wp_steps; try (by intros err [= <-]).
    assert (forall text st2, hasBackend st2 ->
      wp (modifyThis (set_buildGradleContent (VString text));;
          handleSingleIteration P false;; startInteractiveLoop P) st2
        (fun o st' => forall err, o = Stopped (Throw err) ->
           err = "TypeError: this.client.apiKey.substring is not a function")) as Htail.
    { intros text st2 Hst2. wp_steps.
      eapply wp_hoare; [apply handleSingleIteration_returns | done |].
      intros o st3 [-> Hst3].
      eapply wp_hoare; [apply startInteractiveLoop_noThrow | done |].
      intros o st4 [Hno _] err ->. by destruct (Hno err). }
    st_simpl.
    match goal with |- context [if ?b then _ else _] => destruct b eqn:Hb end.
    - apply wp_readFileSync.
      + intros text _. apply Htail. by eexists.
      + st_simpl. intros Hnone. apply bool_decide_eq_true in Hb as [? Hb]. st_simpl. congruence.
    - apply wp_ret. apply Htail. by eexists. }
  repeat case_decide;
    first [ apply wp_ret, Hrest | apply wp_bind, wp_print, wp_ret, Hrest ].
Qed.

End WithBackend.

(** ** POSIX paths of test files *)

Lemma join_app sep (l1 l2 : list string) :
  l1 <> [] -> l2 <> [] ->
  JS.join sep (l1 ++ l2) = JS.join sep l1 +:+ sep +:+ JS.join sep l2.
Proof.
  intros H1 H2. induction l1 as [|x l1 IH]; [done |].
  destruct l1 as [|y l1].
  - cbn [app JS.join]. by destruct l2.
  - change ((x :: y :: l1) ++ l2) with (x :: (y :: l1) ++ l2).
    cbn [JS.join app] in *. rewrite IH by done. by rewrite !sapp_assoc.
Qed.

Lemma step_plain allow stack seg :
  seg <> "." -> seg <> ".." ->
  Posix.step allow stack seg = if decide (seg = "") then stack else seg :: stack.
Proof.
  intros H1 H2. unfold Posix.step.
  destruct (String.eqb_spec seg "") as [-> | Hne]; [done |].
  destruct (String.eqb_spec seg ".") as [-> | _]; [done |].
  destruct (String.eqb_spec seg "..") as [-> | _]; [done |].
  cbn. by rewrite decide_False.
Qed.

Lemma fold_step_plain allow segs stack :
  Forall (fun seg => seg <> "." /\ seg <> "..") segs ->
  fold_left (Posix.step allow) segs stack
  = rev (filter (fun seg => seg <> "") segs) ++ stack.
Proof.
  intros H. revert stack. induction H as [|seg segs [H1 H2] _ IH]; intros stack; [done |].
  cbn [fold_left]. rewrite IH, step_plain by done. rewrite filter_cons.
  case_decide as Hs.
  - by rewrite decide_False by (intros Hne; by apply Hne).
  - rewrite decide_True by done. cbn [rev]. by rewrite <- app_assoc.
Qed.

(** The relative path of a class: dots become slashes and [.java] is
    appended. *)
Lemma class_file_segments cls :
  let segs := JS.split "/"%char (JS.replaceAllChar "."%char "/"%char cls +:+ ".java") in
  Forall (fun seg => seg <> "." /\ seg <> "..") segs /\
  exists stem, JS.join "/" (filter (fun seg => seg <> "") segs) = stem +:+ ".java".
Proof.
  induction cls as [|a cls [IH1 [stem IH2]]]; cbn zeta in *.
  - cbn. split; [by repeat constructor |]. by exists "".
  - cbn [JS.replaceAllChar String.append JS.split].
    set (rest := JS.split "/"%char _) in *.
    destruct (Ascii.eqb_spec a "."%char) as [-> | Ha].
    + cbn [Ascii.eqb Bool.eqb]. split; [by constructor |].
      exists stem. by rewrite filter_cons, decide_False by (intros Hne; by apply Hne).
    + destruct (Ascii.eqb_spec a "/"%char) as [-> | Hs].
      * split; [by constructor |].
        exists stem. by rewrite filter_cons, decide_False by (intros Hne; by apply Hne).
      * destruct rest as [|h t] eqn:Hrest; [by apply split_not_nil in Hrest |].
        apply Forall_cons in IH1 as [_ IHt]. split.
        { constructor; [|done]. split; intros [= -> _]; done. }
        rewrite filter_cons, decide_True by done.
        rewrite filter_cons in IH2. case_decide as Hh.
        -- exists (String a stem). cbn [JS.join] in *.
           destruct (filter _ t); cbn [String.append]; by rewrite <- IH2.
        -- subst h.
           exists (String a "/" +:+ stem). 
           destruct (filter _ t) as [|y ys] eqn:Hf; [by destruct stem |].
           cbn [JS.join String.append] in *. by rewrite <- IH2.
Qed.

Lemma sapp_not_empty (x : string) (a : ascii) (s : string) :
  String.eqb (x +:+ String a s) "" = false.
Proof. by destruct x. Qed.

Lemma endsWithSlash_app (x y : string) :
  y <> "" -> Posix.endsWithSlash (x +:+ y) = Posix.endsWithSlash y.
Proof.
  intros Hy. induction x as [|a x IH]; [done |].
  cbn [String.append Posix.endsWithSlash]. rewrite IH.
  destruct (x +:+ y) eqn:E; [|done]. destruct x, y; done.
Qed.

Lemma startsWith_app (p : ascii) (x y : string) (a : ascii) :
  JS.startsWith (String a "") (String p x +:+ y) = JS.startsWith (String a "") (String p x).
Proof. cbn. by destruct (Ascii.eqb a p). Qed.

(** On POSIX the path of a test file is the normalised
    [projectRoot/src/test/java], a slash, and the non-empty segments of the
    class file; it ends with [.java]. *)
Lemma posix_test_file_path (root cls : string) :
  let file := JS.replaceAllChar "."%char "/"%char cls +:+ ".java" in
  Posix.join [root; "src/test/java"; file]
  = Posix.join [root; "src/test/java"] +:+ "/"
    +:+ JS.join "/" (filter (fun seg => seg <> "") (JS.split "/"%char file)) /\
  endsWith ".java" (Posix.join [root; "src/test/java"; file]) = true.
Proof.
  intros file.
  destruct (class_file_segments cls) as [Hsegs [stem Hstem]]. fold file in Hsegs, Hstem.
  set (rel := filter (fun seg => seg <> "") (JS.split "/"%char file)) in *.
  assert (rel <> []) as Hrel by (intros E; rewrite E in Hstem; by destruct stem).
  assert (file <> "") as Hfile.
  { unfold file. by destruct (JS.replaceAllChar "."%char "/"%char cls). }
  (* the joined arguments *)
  set (base := if decide (root = "") then "src/test/java" else root +:+ "/" +:+ "src/test/java").
  assert (exists b bs, base = String b bs) as (b & bs & Hbase).
  { unfold base. case_decide; [by eexists _, _ |]. destruct root; [done | by eexists _, _]. }
  assert (Posix.join [root; "src/test/java"] = Posix.normalize base) as Hj2.
  { unfold Posix.join, base. rewrite !filter_cons, filter_nil.
    rewrite (decide_True (P := "src/test/java" <> "")) by done.
    destruct (decide (root = "")) as [-> | Hroot];
      [by rewrite decide_False by (intros Hn; by apply Hn) |].
    by rewrite decide_True by done. }
  assert (Posix.join [root; "src/test/java"; file] = Posix.normalize (base +:+ "/" +:+ file)) as Hj3.
  { unfold Posix.join, base. rewrite !filter_cons, filter_nil.
    rewrite (decide_True (P := "src/test/java" <> "")) by done.
    rewrite (decide_True (P := file <> "")) by done.
    destruct (decide (root = "")) as [-> | Hroot];
      [by rewrite decide_False by (intros Hn; by apply Hn) |].
    rewrite decide_True by done. cbn [JS.join]. by rewrite !sapp_assoc. }
  (* the stack after the base *)
  assert (forall allow, exists stackR,
            fold_left (Posix.step allow) (JS.split "/"%char base) []
            = "java" :: "test" :: "src" :: stackR) as Hstack.
  { intros allow. unfold base. case_decide; [by exists [] |].
    change (root +:+ "/" +:+ "src/test/java") with (root +:+ String "/"%char "src/test/java").
    rewrite split_app_sep, fold_left_app. by eexists. }
  assert (forall allow, exists x,
            Posix.normalizeString base allow = x +:+ "src/test/java") as Hres0.
  { intros allow. destruct (Hstack allow) as [stackR HR].
    unfold Posix.normalizeString. rewrite HR. cbn [rev]. rewrite <- !app_assoc. cbn [app].
    destruct (rev stackR) as [|y ys] eqn:Hrev; [by exists "" |].
    rewrite <- Hrev, join_app by (rewrite ?Hrev; done).
    eexists. by rewrite <- sapp_assoc. }
  assert (forall allow,
            Posix.normalizeString (base +:+ "/" +:+ file) allow
            = Posix.normalizeString base allow +:+ "/" +:+ JS.join "/" rel) as Hres.
  { intros allow. destruct (Hstack allow) as [stackR HR].
    unfold Posix.normalizeString.
    change (base +:+ "/" +:+ file) with (base +:+ String "/"%char file).
    rewrite split_app_sep, fold_left_app, fold_step_plain by done. fold rel.
    rewrite rev_app_distr, rev_involutive. apply join_app; [|done].
    rewrite HR. cbn [rev]. by destruct (rev stackR). }
  assert (Posix.normalize (base +:+ "/" +:+ file)
          = Posix.normalize base +:+ "/" +:+ JS.join "/" rel) as Hnorm.
  { assert (String.eqb (base +:+ "/" +:+ file) "" = false) as E1 by (by rewrite Hbase).
    assert (String.eqb base "" = false) as E2 by (by rewrite Hbase).
    assert (JS.startsWith "/" (base +:+ "/" +:+ file) = JS.startsWith "/" base) as E3.
    { rewrite Hbase. apply (startsWith_app b bs ("/" +:+ file) "/"%char). }
    assert (Posix.endsWithSlash (base +:+ "/" +:+ file) = false) as E4.
    { rewrite endsWithSlash_app by done. rewrite endsWithSlash_app by done.
      unfold file. by rewrite endsWithSlash_app. }
    assert (Posix.endsWithSlash base = false) as E5.
    { unfold base. case_decide; [done |]. by rewrite endsWithSlash_app. }
    unfold Posix.normalize. rewrite E1, E2, E3, E4, E5, Hres.
    destruct (Hres0 (negb (JS.startsWith "/" base))) as [x Hx]. rewrite Hx.
    rewrite !sapp_not_empty.
    assert (((x +:+ "src/test/java") +:+ "/" +:+ JS.join "/" rel =? "")%string = false) as ->.
    { rewrite sapp_assoc. apply sapp_not_empty. }
    rewrite !sapp_nil_r. by rewrite !sapp_assoc. }
  split; [by rewrite Hj3, Hj2 |].
  rewrite Hj3, Hnorm, Hstem, <- !sapp_assoc. apply endsWith_app.
Qed.

(** * The claims *)

(** C1 (what the code does): when the pre-check test run of a non-forced
    cycle passes, the cycle sends nothing to the backend and applies no
    generated code, but the value it returns is [undefined], not [true]: the
    early exit is a bare [return]. *)
Theorem C1_passing_precheck_returns_undefined (P : Platform) (st : State) :
  tests_pass P (files st) (projectRoot (this st)) (tmpDir (this st)) = true ->
  exists st',
    performCodeGenerationCycle P false st = (Returned RUndefined, st') /\
    count isGenerate (trace st') = count isGenerate (trace st) /\
    count isApply (trace st') = count isApply (trace st).
Proof.
  intros Hpass.
  destruct (wp_run _ _ _ (cycle_passed P st Hpass)) as (o & st' & Hrun & -> & He).
  exists st'. split; [done |].
  split; eapply count_emitted; try exact He; cbn; tauto.
Qed.

Lemma C1_passing_precheck_witness :
  let st := Sample.ready (<["/proj/fixed" := "yes"]> Sample.disk) [] in
  tests_pass Sample.platform (files st) (projectRoot (this st)) (tmpDir (this st)) = true /\
  exists st',
    performCodeGenerationCycle Sample.platform false st = (Returned RUndefined, st') /\
    count isGenerate (trace st') = count isGenerate (trace st) /\
    count isApply (trace st') = count isApply (trace st).
Proof.
  split; [vm_compute; reflexivity |].
  apply (C1_passing_precheck_returns_undefined Sample.platform).
  vm_compute; reflexivity.
Defined.




(** C2 (as stated) fails: an empty answer at the hint prompt is not kept.
    After the one submission of the empty string the forced cycle sends a
    prompt that does not end with a hint line for that submission. *)
Lemma C2_empty_hint_counterexample :
  let st' := (session Sample.platform [Hint] (Sample.ready Sample.disk [""])).2 in
  hintAnswers (history st') = [""] /\
  accumulatedHints (this st') = [] /\
  ~ promptsCarry (fun answers => answers) (history st').
Proof.
  cbn zeta. split; [vm_compute; reflexivity |]. split; [vm_compute; reflexivity |].
  intros Hcarry.
  set (h := history _) in Hcarry.
  assert (exists h1 c prompt tmp system h2,
            h = h1 ++ EvGenerateCode c prompt tmp system :: h2 /\
            hintAnswers h1 = [""] /\
            endsWith (hintLine [""]) prompt = false) as Hsplit.
  { let rec split_at l acc :=
      lazymatch l with
      | EvGenerateCode ?c ?p ?t ?s :: ?h2 =>
          exists (rev' acc), c, p, t, s, h2
      | ?e :: ?l' => split_at l' constr:(e :: acc)
      end in
    let v := eval vm_compute in h in
    split_at v constr:(@nil Event).
    repeat split; vm_compute; reflexivity. }
  destruct Hsplit as (h1 & c & prompt & tmp & system & h2 & Heq & Hans & Hends).
  destruct (Hcarry _ _ _ _ _ _ Heq) as [body Hbody].
  cbn beta in Hbody. rewrite Hans in Hbody.
  rewrite Hbody, endsWith_app in Hends. discriminate.
Qed.

(** C2 (amended): in every session, whatever operations it is made of, the
    runner's hints are at all times the non-empty answers typed at the hint
    prompt, in the order they were typed, and every prompt sent to a backend
    ends with the hint line made of the non-empty answers typed before it
    (no hint line when there is none): no operation removes a hint. *)
Theorem C2_nonempty_hints_accumulate (P : Platform) (ops : list Operation) (st : State) :
  accumulatedHints (this st) = nonEmpty (hintAnswers (history st)) ->
  promptsCarry nonEmpty (history st) ->
  let st' := (session P ops st).2 in
  accumulatedHints (this st') = nonEmpty (hintAnswers (history st')) /\
  promptsCarry nonEmpty (history st').
Proof.
  intros Hacc Hcarry st'.
  assert (hintsInv st) as Hinv by (split; [done | by apply promptsCarry_OK]).
  destruct (session_hints P ops st Hinv) as [Hacc' Hok'].
  split; [done | by apply promptsOK_carry].
Qed.

Lemma C2_nonempty_hints_witness :
  let st := Sample.start (Some "sk-1234") Sample.disk
              ["h"; "use streams"; "h"; ""; "m"; "4"; "h"; "no reflection"; "x"] in
  let st' := (session Sample.platform [Run] st).2 in
  accumulatedHints (this st) = nonEmpty (hintAnswers (history st)) /\
  promptsCarry nonEmpty (history st) /\
  accumulatedHints (this st') = nonEmpty (hintAnswers (history st')) /\
  promptsCarry nonEmpty (history st').
Proof.
  cbn zeta. split; [reflexivity |].
  assert (promptsCarry nonEmpty
            (history (Sample.start (Some "sk-1234") Sample.disk
              ["h"; "use streams"; "h"; ""; "m"; "4"; "h"; "no reflection"; "x"]))) as H0.
  { intros h1 c prompt tmp system h2 Heq. destruct h1; discriminate Heq. }
  split; [exact H0 |].
  apply (C2_nonempty_hints_accumulate Sample.platform [Run]); [reflexivity | exact H0].
Defined.

Example C2_sample_hints :
  accumulatedHints
    (this (session Sample.platform [Run]
             (Sample.start (Some "sk-1234") Sample.disk
                ["h"; "use streams"; "h"; ""; "h"; "no reflection"; "x"])).2)
  = ["use streams"; "no reflection"].
Proof. vm_compute. reflexivity. Qed.

(** C4 (as stated) fails: the text inside the first parenthesis pair is not
    always the derived class name.  When its last dot-separated part begins
    with a character that is its own lower case, that part is dropped as if
    it were a method name. *)
Lemma C4_lowercase_class_counterexample :
  JS.match_paren_group "testFoo(org.ex.thingTest)" = Some "org.ex.thingTest" /\
  deriveClassName "testFoo(org.ex.thingTest)" = "org.ex" /\
  deriveClassName "testFoo(org.ex.thingTest)" <> "org.ex.thingTest".
Proof. repeat split; vm_compute; congruence. Qed.

(** C4 (amended): for a failure string [m(pkg.Class)...] whose first
    parenthesis pair holds [pkg.Class], the derived class name is
    [pkg.Class] whenever [Class] begins with an uppercase letter, whatever
    the casing of [m] and the dots in it; when [Class] begins with a
    character that is its own lower case, the derived name is [pkg]. *)
Theorem C4_parenthesised_class (m pkg : string) (c : ascii) (r rest : string) :
  ~ occurs "("%char m ->
  ~ occurs ")"%char (pkg +:+ "." +:+ String c r) ->
  ~ occurs "."%char (String c r) ->
  let test := m +:+ "(" +:+ (pkg +:+ "." +:+ String c r) +:+ ")" +:+ rest in
  (isUpper c = true -> deriveClassName test = pkg +:+ "." +:+ String c r) /\
  (JS.char_toLowerCase c = c -> deriveClassName test = pkg).
Proof.
  intros Hm Hg Hdot test. unfold deriveClassName, test.
  rewrite rawClassName_paren; [| done | by destruct pkg | done].
  rewrite dropMethodName_dotted by done. split; intros Hc.
  - apply isUpper_moves in Hc. by rewrite bool_decide_eq_false_2.
  - by rewrite bool_decide_eq_true_2.
Qed.

Lemma C4_parenthesised_class_witness :
  deriveClassName "a.Test.caseOne(org.ex.ThingTest)" = "org.ex.ThingTest" /\
  deriveClassName "a.Test.caseOne(org.ex.thingTest)" = "org.ex".
Proof.
  split.
  - apply (C4_parenthesised_class "a.Test.caseOne" "org.ex" "T"%char "hingTest" "");
      [| | | reflexivity].
    all: unfold occurs; cbn; intros H; repeat (apply elem_of_cons in H as [H | H]; [discriminate H |]);
      by apply elem_of_nil in H.
  - apply (C4_parenthesised_class "a.Test.caseOne" "org.ex" "t"%char "hingTest" "");
      [| | | reflexivity].
    all: unfold occurs; cbn; intros H; repeat (apply elem_of_cons in H as [H | H]; [discriminate H |]);
      by apply elem_of_nil in H.
Defined.

(** C5: for a dotted failure string [p.l] without an opening parenthesis,
    where [l] is the last dot-separated part: if [l] begins with a lowercase
    letter the derived class name is [p]; if [l] begins with an uppercase
    letter it is the whole string. *)
Theorem C5_dotted_failure (p : string) (c : ascii) (r : string) :
  ~ occurs "("%char (p +:+ "." +:+ String c r) ->
  ~ occurs "."%char (String c r) ->
  (isLower c = true -> deriveClassName (p +:+ "." +:+ String c r) = p) /\
  (isUpper c = true ->
     deriveClassName (p +:+ "." +:+ String c r) = p +:+ "." +:+ String c r).
Proof.
  intros Hparen Hdot. unfold deriveClassName.
  rewrite rawClassName_plain, dropMethodName_dotted by done. split; intros Hc.
  - apply isLower_fixed in Hc. by rewrite bool_decide_eq_true_2.
  - apply isUpper_moves in Hc. by rewrite bool_decide_eq_false_2.
Qed.

Lemma C5_dotted_failure_witness :
  deriveClassName "a.b.Thing.testFoo" = "a.b.Thing" /\
  deriveClassName "a.b.Thing" = "a.b.Thing".
Proof.
  split.
  - apply (C5_dotted_failure "a.b.Thing" "t"%char "estFoo"); [| | reflexivity].
    all: unfold occurs; cbn; intros H; repeat (apply elem_of_cons in H as [H | H]; [discriminate H |]);
      by apply elem_of_nil in H.
  - apply (C5_dotted_failure "a.b" "T"%char "hing"); [| | reflexivity].
    all: unfold occurs; cbn; intros H; repeat (apply elem_of_cons in H as [H | H]; [discriminate H |]);
      by apply elem_of_nil in H.
Defined.

(** C6: the extraction returns one entry per failure string, in the order of
    the input and without removing duplicates: the entries are the images of
    the failures under one function; the two failures of the scenario give
    the two classes of the scenario, a repeated failure gives a repeated
    path, and no failure gives no entry. *)
Theorem C6_one_entry_per_failure (P : Platform) (failedTests : list string) (st : State) :
  exists entries st',
    collectTestFiles P failedTests st = (Returned entries, st') /\
    length entries = length failedTests /\
    path <$> entries
      = (fun test => testFilePathOf P (this st) (deriveClassName test)) <$> failedTests /\
    entries = testEntry P (this st) (files st) <$> failedTests /\
    deriveClassName <$> ["testFoo(org.ex.ThingTest)"; "org.ex.OtherTest.testBar"]
      = ["org.ex.ThingTest"; "org.ex.OtherTest"] /\
    deriveClassName <$> ["testA(org.ex.ThingTest)"; "testB(org.ex.ThingTest)"]
      = ["org.ex.ThingTest"; "org.ex.ThingTest"] /\
    collectTestFiles P [] st = (Returned [], st).
Proof.
  destruct (wp_run _ _ _ (collectTestFiles_spec P failedTests st))
    as (o & st' & Hrun & -> & _ & _).
  eexists _, st'. split; [exact Hrun |].
  split; [by rewrite length_fmap |].
  split; [by rewrite <- list_fmap_compose |].
  repeat split; vm_compute; reflexivity.
Qed.

(** C7: when the credential of the family of a model is missing (undefined
    or empty), [getApiKeyForModel] ends the process with exit code 1; in
    [run] this happens before anything but printing: no file is read, no test
    is run, nothing is collected, and the files are as they were. *)
Theorem C7_missing_credential_exits_first (P : Platform) (st : State) (m : JsVal) :
  truthy (credential (this st) m) = false ->
  (exists st', getApiKeyForModel m st = (Stopped (Exit 1), st') /\
               files st' = files st /\
               exists added, history st' = history st ++ added /\
                             Forall (fun e => isPrint e = true) added) /\
  (m = model (this st) ->
   exists st', run P st = (Stopped (Exit 1), st') /\
               files st' = files st /\
               exists added, history st' = history st ++ added /\
                             Forall (fun e => isPrint e = true) added).
Proof.
  intros Hno. split.
  - destruct (wp_run _ _ _ (getApiKeyForModel_missing m st Hno))
      as (o & st' & Hrun & -> & Hf & He).
    exists st'. split; [done |]. split; [done |]. by apply emitted_history in He.
  - intros ->.
    destruct (wp_run _ _ _ (run_missing P st Hno)) as (o & st' & Hrun & -> & Hf & He).
    exists st'. split; [done |]. split; [done |]. by apply emitted_history in He.
Qed.

Lemma C7_missing_credential_witness :
  let st := Sample.start None Sample.disk ["x"] in
  truthy (credential (this st) (VString "gpt-4o")) = false /\
  exists st', run Sample.platform st = (Stopped (Exit 1), st') /\
              files st' = files st /\
              exists added, history st' = history st ++ added /\
                            Forall (fun e => isPrint e = true) added.
Proof.
  split; [vm_compute; reflexivity |].
  apply (C7_missing_credential_exits_first Sample.platform
           (Sample.start None Sample.disk ["x"]) (VString "gpt-4o"));
    [vm_compute; reflexivity | reflexivity].
Defined.

(** C8: [selectAIClient] never fails.  For a model that the table does not
    map it prints a warning and returns a ChatGPT backend; for a model that
    the table maps to one of the three families it returns the backend of
    that family and does nothing else; the class of the backend depends on
    the model and the table only, so selecting twice gives the same class;
    and every model of the constructor's table is mapped to a family. *)
Theorem C8_backend_selection (apiKey : JsVal) (m : string) (st : State) :
  (models (this st) !! m = None ->
   selectAIClient apiKey (VString m) st =
   (Returned (Client.new ChatGPTClient apiKey (VString m)),
    record (EvPrint LoggerWarn ["Model not recognized, defaulting to ChatGPTClient."]) st)) /\
  (forall family cls,
     models (this st) !! m = Some (VString family) -> familyClass family = Some cls ->
     selectAIClient apiKey (VString m) st
     = (Returned (Client.new cls apiKey (VString m)), st)) /\
  (forall apiKey2 st2 c1 st1' c2 st2',
     models (this st2) = models (this st) ->
     selectAIClient apiKey (VString m) st = (Returned c1, st1') ->
     selectAIClient apiKey2 (VString m) st2 = (Returned c2, st2') ->
     Client.class c1 = Client.class c2) /\
  (exists c st', selectAIClient apiKey (VString m) st = (Returned c, st')) /\
  (forall v, models_table !! m = Some v ->
     exists family cls, v = VString family /\ familyClass family = Some cls).
Proof.
  split; [|split; [|split; [|split]]].
  - intros Hnone. apply selectAIClient_fallback. intros family.
    unfold obj_get. cbn [to_string]. rewrite Hnone. by case_decide.
  - intros family cls Hsome Hcls. apply selectAIClient_mapped with family; [|done].
    unfold obj_get. cbn [to_string]. by rewrite Hsome.
  - intros apiKey2 st2 c1 st1' c2 st2' Hm. by apply selectAIClient_class.
  - apply selectAIClient_returns.
  - apply models_table_families.
Qed.

Lemma C8_backend_selection_witness :
  let st := Sample.start (Some "sk-1234") Sample.disk [] in
  selectAIClient (VString "k") (VString "mistral-large") st =
    (Returned (Client.new ChatGPTClient (VString "k") (VString "mistral-large")),
     record (EvPrint LoggerWarn ["Model not recognized, defaulting to ChatGPTClient."]) st) /\
  selectAIClient (VString "k") (VString "claude-3-5-sonnet") st =
    (Returned (Client.new ClaudeClient (VString "k") (VString "claude-3-5-sonnet")), st).
Proof.
  split.
  - apply (C8_backend_selection (VString "k") "mistral-large"). vm_compute. reflexivity.
  - apply (C8_backend_selection (VString "k") "claude-3-5-sonnet"
             (Sample.start (Some "sk-1234") Sample.disk [])) with "anthropic";
      vm_compute; reflexivity.
Defined.

(** C9: for a failure whose test file is not on disk, the callback returns
    the entry with the derived path and empty content, having printed two
    lines and checked that the file exists, without reading anything; and
    the extraction as a whole always returns, whatever is on disk. *)
Theorem C9_missing_test_file (P : Platform) (test : string) (st : State) :
  let p := testFilePathOf P (this st) (deriveClassName test) in
  files st !! p = None ->
  testFileOf P test st
  = (Returned {| path := p; content := "" |},
     record (EvExistsSync p)
       (record (EvPrint LoggerDebug ["Constructed test file path: " +:+ p])
          (record (EvPrint LoggerDebug ["Extracting class name from test name: " +:+ test])
             st))) /\
  (forall failedTests,
     exists entries st', collectTestFiles P failedTests st = (Returned entries, st')).
Proof.
  intros p Hmissing. split.
  - assert (wp (testFileOf P test) st (fun o st' =>
        o = Returned {| path := p; content := "" |} /\
        st' = record (EvExistsSync p)
                (record (EvPrint LoggerDebug ["Constructed test file path: " +:+ p])
                   (record (EvPrint LoggerDebug
                              ["Extracting class name from test name: " +:+ test]) st))))
      as Hwp.
    { unfold testFileOf. wp_steps. st_simpl. fold p.
      rewrite bool_decide_eq_false_2 by (rewrite Hmissing; by intros [? ?]).
      by wp_steps. }
    apply wp_run in Hwp as (o & st' & Hrun & -> & ->). exact Hrun.
  - intros failedTests.
    destruct (wp_run _ _ _ (collectTestFiles_spec P failedTests st))
      as (o & st' & Hrun & -> & _). eauto.
Qed.

Lemma C9_missing_test_file_witness :
  let st := Sample.ready Sample.disk [] in
  let p := "/proj/src/test/java/org/ex/OtherTest.java" in
  files st !! p = None /\
  testFileOf Sample.platform "org.ex.OtherTest.testBar" st
  = (Returned {| path := p; content := "" |},
     record (EvExistsSync p)
       (record (EvPrint LoggerDebug ["Constructed test file path: " +:+ p])
          (record (EvPrint LoggerDebug
                     ["Extracting class name from test name: " +:+ "org.ex.OtherTest.testBar"])
             st))).
Proof.
  split; [vm_compute; reflexivity |].
  apply (C9_missing_test_file Sample.platform "org.ex.OtherTest.testBar"
           (Sample.ready Sample.disk [])).
  vm_compute; reflexivity.
Defined.

(** C10: whatever the runner's [testDir] is, the entry that the extraction
    builds for a failure has the path that joins the project root, the fixed
    directory [src/test/java] and the class name with slashes for dots and
    [.java] appended, and so have, in order, the entries built for a list of
    failures; the runner's [testDir] plays no part in the extraction, in a
    cycle or in any operation of a session; a value given to [--test-dir] as
    plain text changes nothing in what the script does, and one that is not
    plain text stops the script before any runner is built; and with POSIX
    joins the path is the normalised [projectRoot/src/test/java] followed by
    the segments of the class file, and ends with [.java]. *)
Theorem C10_test_path_ignores_testDir (P : Platform) :
  (forall test st d,
     exists text st',
       testFileOf P test (withTestDir d st)
       = (Returned
            {| path := path_join P
                         [projectRoot (this st); "src/test/java";
                          JS.replaceAllChar "."%char "/"%char (deriveClassName test)
                          +:+ ".java"];
               content := text |}, st')) /\
  (forall failedTests st d,
     exists entries st',
       collectTestFiles P failedTests (withTestDir d st) = (Returned entries, st') /\
       path <$> entries
       = (fun test =>
            path_join P
              [projectRoot (this st); "src/test/java";
               JS.replaceAllChar "."%char "/"%char (deriveClassName test) +:+ ".java"])
         <$> failedTests) /\
  (forall failedTests, ignoresTestDir (collectTestFiles P failedTests)) /\
  (forall force, ignoresTestDir (performCodeGenerationCycle P force)) /\
  (forall ops, ignoresTestDir (session P ops)) /\
  (forall envJson k1 k2 k3 ll m p e t t' st,
     (main P envJson k1 k2 k3 ll (mkArgs m p e (VString t')) st).1
     = (main P envJson k1 k2 k3 ll (mkArgs m p e (VString t)) st).1 /\
     sameButTestDir (main P envJson k1 k2 k3 ll (mkArgs m p e (VString t')) st).2
                    (main P envJson k1 k2 k3 ll (mkArgs m p e (VString t)) st).2) /\
  (forall envJson k1 k2 k3 ll m p e t st,
     (forall s, t <> VString s) ->
     exists st',
       main P envJson k1 k2 k3 ll (mkArgs m p e t) st = (Stopped (Exit 1), st') /\
       this st' = this st /\ files st' = files st /\
       exists added, history st' = history st ++ added /\
                     Forall (fun ev => isPrint ev = true) added) /\
  (forall root cls,
     let file := JS.replaceAllChar "."%char "/"%char cls +:+ ".java" in
     Posix.join [root; "src/test/java"; file]
     = Posix.join [root; "src/test/java"] +:+ "/"
       +:+ JS.join "/" (filter (fun seg => seg <> "") (JS.split "/"%char file)) /\
     endsWith ".java" (Posix.join [root; "src/test/java"; file]) = true).
Proof.
  split; [|split; [|split; [|split; [|split; [|split; [|split]]]]]].
  - intros test st d.
    destruct (wp_run _ _ _ (testFileOf_spec P test (withTestDir d st)))
      as (o & st' & Hrun & -> & _). rewrite Hrun. eexists _, st'. reflexivity.
  - intros failedTests st d.
    destruct (wp_run _ _ _ (collectTestFiles_spec P failedTests (withTestDir d st)))
      as (o & st' & Hrun & -> & _). rewrite Hrun. eexists _, st'. split; [reflexivity |].
    by rewrite <- list_fmap_compose.
  - intros failedTests. apply ignores_mapM, ignores_testFileOf.
  - apply ignores_cycle.
  - apply ignores_session.
  - intros. apply main_ignores_test_dir.
  - intros. by apply main_bad_test_dir.
  - apply posix_test_file_path.
Qed.

Lemma C10_numeric_test_dir_witness :
  let args := mkArgs (VString "gpt-4o") (VString "/proj") (VString ".java") (VNumber "5") in
  let st := Sample.start (Some "sk-1234") Sample.disk [] in
  (forall s, arg_test_dir args <> VString s) /\
  exists st',
    main Sample.platform "{}" None (Some "sk-1234") None None args st
    = (Stopped (Exit 1), st') /\
    this st' = this st /\ files st' = files st /\
    exists added, history st' = history st ++ added /\
                  Forall (fun ev => isPrint ev = true) added.
Proof.
  intros args st. split; [intros s; discriminate |].
  destruct (C10_test_path_ignores_testDir Sample.platform) as (_ & _ & _ & _ & _ & _ & H & _).
  apply (H "{}" None (Some "sk-1234") None None (VString "gpt-4o") (VString "/proj")
           (VString ".java") (VNumber "5") st).
  intros s. discriminate.
Defined.

Example C10_sample_path :
  (collectTestFiles Sample.platform ["testFoo(org.ex.ThingTest)"]
     (withTestDir "/elsewhere/tests" (Sample.ready Sample.disk []))).1
  = Returned [{| path := "/proj/src/test/java/org/ex/ThingTest.java";
                 content := "class ThingTest {}" |}].
Proof. vm_compute. reflexivity. Qed.

(** * Further properties of the code *)

(** ** String replacement *)

Lemma startsWith_self (p r : string) : JS.startsWith p (p +:+ r) = true.
Proof. induction p as [|a p IH]; cbn; [done |]. by rewrite Ascii.eqb_refl. Qed.

Lemma drop_length_app (p r : string) : JS.drop (String.length p) (p +:+ r) = r.
Proof. induction p as [|a p IH]; cbn; [by destruct r | done]. Qed.

(** A prefix test that succeeds on [x ++ y] but fails on [x] alone runs past
    the end of [x]. *)
Lemma startsWith_straddle (p x y : string) :
  JS.startsWith p (x +:+ y) = true -> JS.startsWith p x = false ->
  exists p2, p = x +:+ p2 /\ p2 <> "" /\ JS.startsWith p2 y = true.
Proof.
  revert x. induction p as [|a p IH]; intros x Hxy Hx; [by destruct x |].
  destruct x as [|b x].
  - exists (String a p). split; [done |]. split; [done | exact Hxy].
  - cbn in Hxy, Hx. destruct (Ascii.eqb_spec a b) as [-> | _]; [|done].
    destruct (IH x Hxy Hx) as (p2 & -> & Hp2 & Hy). by exists p2.
Qed.

Lemma startsWith_first (c a : ascii) (p s : string) :
  JS.startsWith (String c p) (String a s) = true -> c = a.
Proof. cbn. by destruct (Ascii.eqb_spec c a). Qed.

Lemma includes_false_cons (pat : string) (a : ascii) (s : string) :
  JS.includes pat (String a s) = false ->
  JS.startsWith pat (String a s) = false /\ JS.includes pat s = false.
Proof. cbn [JS.includes]. by intros [? ?]%orb_false_elim. Qed.

Lemma find_here (pat rest : string) : JS.find pat (pat +:+ rest) = Some ("", rest).
Proof.
  assert (forall s, JS.startsWith pat s = true ->
            JS.find pat s = Some ("", JS.drop (String.length pat) s)) as H.
  { intros s Hs. destruct s; cbn [JS.find]; by rewrite Hs. }
  by rewrite H, drop_length_app by apply startsWith_self.
Qed.

(** A pattern whose first character occurs nowhere else in it is found right
    where it is put, if it does not occur before. *)
Lemma find_first (c : ascii) (p' x rest : string) :
  ~ occurs c p' ->
  JS.includes (String c p') x = false ->
  JS.find (String c p') (x +:+ String c p' +:+ rest) = Some (x, rest).
Proof.
  intros Hc. induction x as [|a x IH]; intros Hx.
  - apply (find_here (String c p') rest).
  - apply includes_false_cons in Hx as [Hhead Htail].
    rewrite sapp_cons. cbn [JS.find].
    destruct (JS.startsWith (String c p') (String a (x +:+ String c p' +:+ rest))) eqn:Hs.
    + exfalso.
      destruct (startsWith_straddle (String c p') (String a x) (String c p' +:+ rest))
        as (p2 & Heq & Hp2 & Hy); [done.. |].
      destruct p2 as [|d p2]; [done |].
      apply startsWith_first in Hy as <-.
      injection Heq as _ ->. apply Hc, occurs_app. right. apply occurs_cons. by left.
    + by rewrite IH.
Qed.

Lemma find_absent (pat s : string) : JS.includes pat s = false -> JS.find pat s = None.
Proof.
  induction s as [|a s IH]; intros H.
  - cbn in *. apply orb_false_elim in H as [-> _]. done.
  - apply includes_false_cons in H as [Hhead Htail].
    cbn [JS.find]. by rewrite Hhead, IH.
Qed.

Lemma getSubstitution_plain (matched before after repl : string) :
  ~ occurs "$"%char repl -> JS.getSubstitution matched before after repl = repl.
Proof.
  induction repl as [|a r IH]; intros H; [done |].
  rewrite occurs_cons in H. cbn [JS.getSubstitution].
  destruct (Ascii.eqb_spec a "$"%char) as [-> | _]; [tauto |].
  rewrite IH by tauto. done.
Qed.

(** [replace] without dollar signs in the replacement: the first occurrence
    is replaced by the text itself. *)
Lemma replace_first (c : ascii) (p' repl x rest : string) :
  ~ occurs c p' ->
  JS.includes (String c p') x = false ->
  ~ occurs "$"%char repl ->
  JS.replace (String c p') repl (x +:+ String c p' +:+ rest) = x +:+ repl +:+ rest.
Proof.
  intros Hc Hx Hd. unfold JS.replace.
  by rewrite find_first, getSubstitution_plain.
Qed.

(** [replace] of a pattern that does not occur changes nothing. *)
Lemma replace_absent (pat repl s : string) :
  JS.includes pat s = false -> JS.replace pat repl s = s.
Proof. intros H. unfold JS.replace. by rewrite find_absent. Qed.

Ltac no_char :=
  unfold occurs; cbn; intros H;
  repeat (apply elem_of_cons in H as [H | H]; [discriminate H |]);
  by apply elem_of_nil in H.

(** ** The prompt *)

(** X1. The three placeholders are filled in one after the other (lines
    162-165).  With a template [A{testOutput}B{filesContent}C{buildGradleContent}D]
    the prompt is [A], the test output, [B], the files, [C], the build
    descriptor, [D] and the hint line, provided no inserted text holds a
    dollar sign and no placeholder occurs in what stands before it once the
    earlier ones are filled in. *)
Theorem renderPrompt_fills_placeholders
    (self : AIPairRunner) (A B C D testOutput filesContent : string) :
  promptTemplate self
    = A +:+ "{testOutput}" +:+ B +:+ "{filesContent}" +:+ C +:+ "{buildGradleContent}" +:+ D ->
  JS.includes "{testOutput}" A = false ->
  JS.includes "{filesContent}" (A +:+ testOutput +:+ B) = false ->
  JS.includes "{buildGradleContent}" (A +:+ testOutput +:+ B +:+ filesContent +:+ C) = false ->
  ~ occurs "$"%char testOutput ->
  ~ occurs "$"%char filesContent ->
  ~ occurs "$"%char (to_string (buildGradleContent self)) ->
  renderPrompt self testOutput filesContent
  = A +:+ testOutput +:+ B +:+ filesContent +:+ C
      +:+ to_string (buildGradleContent self) +:+ D +:+ hintLine (accumulatedHints self).
Proof.
  intros Htpl HA HB HC Ho Hf Hb. unfold renderPrompt. rewrite Htpl.
  rewrite (replace_first "{"%char "testOutput}") by (done || no_char).
  assert (A +:+ testOutput +:+ B +:+ "{filesContent}" +:+ C +:+ "{buildGradleContent}" +:+ D
          = (A +:+ testOutput +:+ B) +:+ "{filesContent}" +:+ C +:+ "{buildGradleContent}" +:+ D)
    as -> by (by rewrite !sapp_assoc).
  rewrite (replace_first "{"%char "filesContent}") by (done || no_char).
  assert ((A +:+ testOutput +:+ B) +:+ filesContent +:+ C +:+ "{buildGradleContent}" +:+ D
          = (A +:+ testOutput +:+ B +:+ filesContent +:+ C) +:+ "{buildGradleContent}" +:+ D)
    as -> by (by rewrite !sapp_assoc).
  rewrite (replace_first "{"%char "buildGradleContent}") by (done || no_char).
  by rewrite !sapp_assoc.
Qed.

Lemma renderPrompt_fills_placeholders_witness :
  let self := set_buildGradleContent (VString "plugins { java }") (Sample.runner None) in
  renderPrompt self "BUILD FAILED" "File: A.java"
  = "Tests: BUILD FAILED Files: File: A.java Build: plugins { java }".
Proof.
  apply (renderPrompt_fills_placeholders
           (set_buildGradleContent (VString "plugins { java }") (Sample.runner None))
           "Tests: " " Files: " " Build: " "" "BUILD FAILED" "File: A.java");
    first [ reflexivity | no_char ].
Defined.

(** X2. The placeholders are filled in sequence, so a test output that itself
    holds the text [{filesContent}] receives the files.  With a template
    [A{testOutput}B{filesContent}C{buildGradleContent}D] and a test output
    [before{filesContent}after], the copy in the test output is the first
    occurrence: the files land inside the test output, the placeholder of the
    template stays in the prompt, and the build descriptor is filled in as
    usual. *)
Theorem renderPrompt_test_output_takes_files
    (self : AIPairRunner) (A B C D before after filesContent : string) :
  promptTemplate self
    = A +:+ "{testOutput}" +:+ B +:+ "{filesContent}" +:+ C +:+ "{buildGradleContent}" +:+ D ->
  JS.includes "{testOutput}" A = false ->
  JS.includes "{filesContent}" (A +:+ before) = false ->
  JS.includes "{buildGradleContent}"
    (A +:+ before +:+ filesContent +:+ after +:+ B +:+ "{filesContent}" +:+ C) = false ->
  ~ occurs "$"%char (before +:+ "{filesContent}" +:+ after) ->
  ~ occurs "$"%char filesContent ->
  ~ occurs "$"%char (to_string (buildGradleContent self)) ->
  renderPrompt self (before +:+ "{filesContent}" +:+ after) filesContent
  = A +:+ before +:+ filesContent +:+ after +:+ B +:+ "{filesContent}" +:+ C
      +:+ to_string (buildGradleContent self) +:+ D +:+ hintLine (accumulatedHints self).
Proof.
  intros Htpl HA HB HC Ho Hf Hb. unfold renderPrompt. rewrite Htpl.
  rewrite (replace_first "{"%char "testOutput}") by (done || no_char).
  assert (A +:+ (before +:+ "{filesContent}" +:+ after) +:+ B +:+ "{filesContent}" +:+ C
            +:+ "{buildGradleContent}" +:+ D
          = (A +:+ before) +:+ "{filesContent}" +:+ after +:+ B +:+ "{filesContent}" +:+ C
              +:+ "{buildGradleContent}" +:+ D)
    as -> by (by rewrite !sapp_assoc).
  rewrite (replace_first "{"%char "filesContent}") by (done || no_char).
  assert ((A +:+ before) +:+ filesContent +:+ after +:+ B +:+ "{filesContent}" +:+ C
            +:+ "{buildGradleContent}" +:+ D
          = (A +:+ before +:+ filesContent +:+ after +:+ B +:+ "{filesContent}" +:+ C)
              +:+ "{buildGradleContent}" +:+ D)
    as -> by (by rewrite !sapp_assoc).
  rewrite (replace_first "{"%char "buildGradleContent}") by (done || no_char).
  by rewrite !sapp_assoc.
Qed.

Lemma renderPrompt_test_output_takes_files_witness :
  let self := mkRunner (VString "gpt-4o") "/proj" (VString ".java") "/proj/src/test/java" ∅
                VUndefined models_table "/work/tmp" "You fix Java code."
                "T:{testOutput} F:{filesContent} B:{buildGradleContent}." ["be brief"] None
                (VString "plugins { java }") in
  renderPrompt self ("expected " +:+ "{filesContent}" +:+ " but was x") "File: A.java"
  = "T:" +:+ "expected " +:+ "File: A.java" +:+ " but was x" +:+ " F:" +:+ "{filesContent}"
      +:+ " B:" +:+ "plugins { java }" +:+ "." +:+ hintLine (accumulatedHints self).
Proof.
  intros self.
  apply (renderPrompt_test_output_takes_files self "T:" " F:" " B:" "." "expected "
           " but was x" "File: A.java");
    first [ reflexivity | no_char ].
Defined.

(** ** Dollar signs in the test output *)

Lemma includes_no_first_char (c : ascii) (p s : string) :
  ~ occurs c s -> JS.includes (String c p) s = false.
Proof.
  induction s as [|a s IH]; intros H; [done |].
  rewrite occurs_cons in H. cbn [JS.includes JS.startsWith].
  destruct (Ascii.eqb_spec c a) as [-> | _]; [tauto |]. cbn [orb]. apply IH. tauto.
Qed.

Lemma getSubstitution_app_plain (matched before after x y : string) :
  ~ occurs "$"%char x ->
  JS.getSubstitution matched before after (x +:+ y)
  = x +:+ JS.getSubstitution matched before after y.
Proof.
  induction x as [|a x IH]; intros H; [done |].
  rewrite occurs_cons in H. rewrite sapp_cons. cbn [JS.getSubstitution].
  destruct (Ascii.eqb_spec a "$"%char) as [-> | _]; [tauto |].
  rewrite IH by tauto. done.
Qed.

(** X3. The test output is the replacement text of a [String.replace], so a
    dollar pattern in it is expanded rather than copied.  With a template
    [A{testOutput}B] that has no other brace, a doubled dollar in the output
    reaches the prompt as a single one, a dollar followed by a backquote as
    the template text [A] before the placeholder, and a dollar followed by a
    quote as the template text [B] after it. *)
Theorem renderPrompt_expands_dollar_patterns
    (self : AIPairRunner) (A B x y filesContent : string) :
  promptTemplate self = A +:+ "{testOutput}" +:+ B ->
  ~ occurs "{"%char (A +:+ B +:+ x +:+ y) ->
  ~ occurs "$"%char (x +:+ y) ->
  renderPrompt self (x +:+ "$$" +:+ y) filesContent
  = A +:+ (x +:+ "$" +:+ y) +:+ B +:+ hintLine (accumulatedHints self) /\
  renderPrompt self (x +:+ "$`" +:+ y) filesContent
  = A +:+ (x +:+ A +:+ y) +:+ B +:+ hintLine (accumulatedHints self) /\
  renderPrompt self (x +:+ "$'" +:+ y) filesContent
  = A +:+ (x +:+ B +:+ y) +:+ B +:+ hintLine (accumulatedHints self).
Proof.
  intros Htpl Hbrace Hdollar.
  rewrite !occurs_app in Hbrace. rewrite occurs_app in Hdollar.
  assert (forall d mid,
    JS.getSubstitution "{testOutput}" A B (String "$" (String d y)) = mid +:+ y ->
    ~ occurs "{"%char mid ->
    renderPrompt self (x +:+ String "$" (String d y)) filesContent
    = A +:+ (x +:+ mid +:+ y) +:+ B +:+ hintLine (accumulatedHints self)) as Hcase.
  { intros d mid Hsub Hmid. unfold renderPrompt. rewrite Htpl.
    unfold JS.replace at 3.
    rewrite (find_first "{"%char "testOutput}") by (no_char || (apply includes_no_first_char; tauto)).
    rewrite getSubstitution_app_plain, Hsub by tauto.
    assert (~ occurs "{"%char (A +:+ (x +:+ mid +:+ y) +:+ B)) as Hnone
      by (rewrite !occurs_app; tauto).
    rewrite (replace_absent "{filesContent}") by (by apply includes_no_first_char).
    rewrite (replace_absent "{buildGradleContent}") by (by apply includes_no_first_char).
    by rewrite !sapp_assoc. }
  repeat split.
  - apply (Hcase "$"%char "$"); [| no_char].
    cbn [JS.getSubstitution Ascii.eqb Bool.eqb]. by rewrite getSubstitution_plain by tauto.
  - apply (Hcase "`"%char A); [| tauto].
    cbn [JS.getSubstitution Ascii.eqb Bool.eqb]. by rewrite getSubstitution_plain by tauto.
  - apply (Hcase "'"%char B); [| tauto].
    cbn [JS.getSubstitution Ascii.eqb Bool.eqb]. by rewrite getSubstitution_plain by tauto.
Qed.

Lemma renderPrompt_expands_dollar_patterns_witness :
  let self := mkRunner (VString "gpt-4o") "/proj" (VString ".java") "/proj/src/test/java" ∅
                VUndefined models_table "/work/tmp" "You fix Java code."
                "Tests: {testOutput} End." [] None (VString "") in
  renderPrompt self ("cost " +:+ "$$" +:+ "5") "File: A.java"
  = "Tests: " +:+ ("cost " +:+ "$" +:+ "5") +:+ " End." +:+ hintLine (accumulatedHints self) /\
  renderPrompt self ("cost " +:+ "$`" +:+ "5") "File: A.java"
  = "Tests: " +:+ ("cost " +:+ "Tests: " +:+ "5") +:+ " End."
      +:+ hintLine (accumulatedHints self) /\
  renderPrompt self ("cost " +:+ "$'" +:+ "5") "File: A.java"
  = "Tests: " +:+ ("cost " +:+ " End." +:+ "5") +:+ " End."
      +:+ hintLine (accumulatedHints self).
Proof.
  intros self.
  apply (renderPrompt_expands_dollar_patterns self "Tests: " " End." "cost " "5" "File: A.java");
    first [ reflexivity | no_char ].
Defined.

(** ** The listing of the files *)

Section Listing.

Variable P : Platform.

(** X4. The listing of the main files followed by the test files is the listing
    of the first, a blank line, and the listing of the second; when either
    list is empty it is the listing of the other, without a blank line. *)
Theorem renderFiles_app self (codeFiles testFiles : list SourceFile) :
  renderFiles P self (codeFiles ++ testFiles)
  = match codeFiles, testFiles with
    | [], _ => renderFiles P self testFiles
    | _, [] => renderFiles P self codeFiles
    | _, _ => renderFiles P self codeFiles +:+ JS.LF +:+ JS.LF +:+ renderFiles P self testFiles
    end.
Proof.
  unfold renderFiles. rewrite fmap_app.
  destruct codeFiles as [|f fs]; [done |].
  destruct testFiles as [|t ts]; [by rewrite app_nil_r |].
  rewrite join_app by done. by rewrite !sapp_assoc.
Qed.

End Listing.

(** ** Failure strings outside the two documented shapes *)

Lemma match_paren_group_absent (s : string) :
  ~ occurs "("%char s -> JS.match_paren_group s = None.
Proof.
  induction s as [|a s IH]; intros H; [done |].
  rewrite occurs_cons in H. cbn [JS.match_paren_group].
  destruct (Ascii.eqb_spec a "("%char) as [-> | _]; [tauto | apply IH; tauto].
Qed.

(** Empty parentheses hold no group: the pattern does not match. *)
Lemma match_paren_group_empty (s rest : string) :
  ~ occurs "("%char s -> ~ occurs "("%char rest ->
  JS.match_paren_group (s +:+ "()" +:+ rest) = None.
Proof.
  intros Hs Hr. induction s as [|a s IH].
  - cbn. by apply match_paren_group_absent.
  - rewrite occurs_cons in Hs. rewrite sapp_cons. cbn [JS.match_paren_group].
    destruct (Ascii.eqb_spec a "("%char) as [-> | _]; [tauto | apply IH; tauto].
Qed.

(** X5. A failure string [p.m()] (the shape JUnit 5 reports) has an opening
    parenthesis but no parenthesised group, so the class name is derived from
    the whole string: the last part [m()] is dropped when [m] begins with a
    character that is its own lower case, and kept, parentheses included,
    when [m] begins with an uppercase letter. *)
Theorem deriveClassName_empty_parentheses (p : string) (c : ascii) (r : string) :
  ~ occurs "("%char (p +:+ "." +:+ String c r) ->
  ~ occurs "."%char (String c r) ->
  (JS.char_toLowerCase c = c ->
     deriveClassName (p +:+ "." +:+ String c r +:+ "()") = p) /\
  (isUpper c = true ->
     deriveClassName (p +:+ "." +:+ String c r +:+ "()")
     = p +:+ "." +:+ String c r +:+ "()").
Proof.
  intros Hparen Hdot.
  assert (rawClassName (p +:+ "." +:+ String c r +:+ "()")
          = p +:+ "." +:+ String c (r +:+ "()")) as Hraw.
  { unfold rawClassName.
    assert (p +:+ "." +:+ String c r +:+ "()" = (p +:+ "." +:+ String c r) +:+ "()" +:+ "")
      as -> by (by rewrite !sapp_assoc).
    rewrite match_paren_group_empty by (done || apply occurs_nil).
    rewrite sapp_assoc. cbn [String.append].
    by destruct (JS.includes _ _). }
  assert (~ occurs "."%char (String c (r +:+ "()"))) as Hdot'.
  { change (String c (r +:+ "()")) with (String c r +:+ "()").
    rewrite occurs_app. intros [H | H]; [done | revert H; no_char]. }
  unfold deriveClassName. rewrite Hraw, dropMethodName_dotted by done.
  split; intros Hc.
  - by rewrite bool_decide_eq_true_2.
  - apply isUpper_moves in Hc. by rewrite bool_decide_eq_false_2.
Qed.

Lemma deriveClassName_empty_parentheses_witness :
  deriveClassName ("org.ex.ThingTest" +:+ "." +:+ String "t" "estFoo" +:+ "()")
  = "org.ex.ThingTest".
Proof.
  apply (deriveClassName_empty_parentheses "org.ex.ThingTest" "t"%char "estFoo");
    first [ reflexivity | no_char ].
Defined.

(** X6. A failure string without dot and without opening parenthesis that
    begins with a character that is its own lower case is taken for a method
    name as a whole: the class name is empty, and so is the one of the empty
    failure string; all of them get the same file, [.java] in the fixed
    directory. *)
Theorem deriveClassName_bare_method (P : Platform) (self : AIPairRunner) (test : string) :
  ~ occurs "("%char test -> ~ occurs "."%char test ->
  (forall c r, test = String c r -> JS.char_toLowerCase c = c) ->
  deriveClassName test = "" /\
  testFilePathOf P self (deriveClassName test)
  = path_join P [projectRoot self; "src/test/java"; ".java"].
Proof.
  intros Hparen Hdot Hlow.
  assert (deriveClassName test = "") as ->; [|done].
  unfold deriveClassName. rewrite rawClassName_plain by done.
  destruct test as [|c r]; [done |].
  rewrite dropMethodName_single by done.
  by rewrite bool_decide_eq_true_2 by eauto.
Qed.

Lemma deriveClassName_bare_method_witness :
  deriveClassName "testFoo" = "" /\
  testFilePathOf Sample.platform (Sample.runner None) (deriveClassName "testFoo")
  = path_join Sample.platform [projectRoot (Sample.runner None); "src/test/java"; ".java"].
Proof.
  apply (deriveClassName_bare_method Sample.platform (Sample.runner None) "testFoo");
    [no_char | no_char |].
  intros c r [= <- <-]. reflexivity.
Defined.

(** ** What a cycle sends, logs and returns *)

Section Generation.

Variable P : Platform.

Lemma generation_history st1 s gathered gen :
  trace s = gen ++ gathered ++ trace st1 ->
  history s = history st1 ++ rev gathered ++ rev gen.
Proof. unfold history. intros ->. by rewrite !rev_app_distr, app_assoc. Qed.

(** The end of a cycle, from the session log on, when nothing fails. *)
Lemma generation_end self c st1 s found testOutput failedTests :
  let prompt := cyclePrompt P self found (files st1) testOutput failedTests in
  reliable P ->
  this st1 = self -> client self = Some c ->
  files s = files st1 -> emitted gatheringEvent st1 s ->
  wp (generationTail P self prompt) s
    (generationPost P self c st1 found testOutput failedTests).
Proof.
  intros prompt Hrel Hself Hc Hf (Ht & _ & _ & evs & Hevs & Hgath).
  unfold generationTail.
  apply wp_bind, wp_now.
  apply wp_bind, wp_appendFileSync; [intros _ | intros; reliable_contra Hrel].
  apply wp_bind, wp_print. apply wp_bind, wp_print. rewrite Hc.
  apply wp_bind, wp_generateCode; [| intros; reliable_contra Hrel].
  intros reply _.
  apply wp_bind, wp_parseAndApplyGeneratedCode; [| intros; reliable_contra Hrel].
  intros written Hw. st_simpl.
  set (stamp := toISOString P (length (trace s))) in *.
  rewrite Hf in Hw. rewrite Hf.
  fold (logEntry stamp prompt) in Hw. fold (logEntry stamp prompt).
  fold (loggedFiles P self (files st1) stamp prompt) in Hw.
  assert (written = patchedFiles P self (files st1) stamp prompt reply) as ->
    by (unfold patchedFiles; by rewrite Hw).
  set (fsNew := patchedFiles P self (files st1) stamp prompt reply).
  apply wp_bind, wp_print. apply wp_bind, wp_runTests. st_simpl.
  destruct (tests_pass P fsNew (projectRoot self) (tmpDir self)) eqn:Hpass; cbn [negb].
  - wp_steps. exists (rev evs), stamp, reply. cbn zeta. fold prompt fsNew.
    rewrite Hpass. st_simpl. split; [done |]. split; [congruence |]. split; [done |].
    split; [| by apply Forall_rev].
    unfold generationEvents. rewrite app_nil_r.
    rewrite (generation_history st1 _ evs
               [ EvRunTests (projectRoot self) (tmpDir self);
                 EvPrint ConsoleLog ["Running tests to see if the changes fixed the problem"];
                 EvParseAndApply (projectRoot self) (tmpDir self) (extension self) reply;
                 EvGenerateCode c prompt (tmpDir self) (systemPrompt self);
                 EvPrint StdoutWrite ["Generating code"];
                 EvPrint LoggerDebug ["Sending prompt to AI service"];
                 EvAppendFileSync (path_join P [tmpDir self; "session_log.txt"])
                   (logEntry stamp prompt) ]); [done |].
    st_simpl. by rewrite Hevs.
  - wp_steps. apply wp_readFileSync; st_simpl; [| by rewrite lookup_insert_eq].
    intros text Htext. rewrite lookup_insert_eq in Htext. injection Htext as <-.
    wp_steps. exists (rev evs), stamp, reply. cbn zeta. fold prompt fsNew.
    rewrite Hpass. st_simpl. split; [done |]. split; [congruence |]. split; [done |].
    split; [| by apply Forall_rev].
    unfold generationEvents.
    rewrite (generation_history st1 _ evs
               [ EvPrint ConsoleLog [test_report P fsNew (projectRoot self) (tmpDir self)];
                 EvReadFileSync (path_join P [tmpDir self; "test_output.txt"]);
                 EvRunTests (projectRoot self) (tmpDir self);
                 EvPrint ConsoleLog ["Running tests to see if the changes fixed the problem"];
                 EvParseAndApply (projectRoot self) (tmpDir self) (extension self) reply;
                 EvGenerateCode c prompt (tmpDir self) (systemPrompt self);
                 EvPrint StdoutWrite ["Generating code"];
                 EvPrint LoggerDebug ["Sending prompt to AI service"];
                 EvAppendFileSync (path_join P [tmpDir self; "session_log.txt"])
                   (logEntry stamp prompt) ]); [done |].
    st_simpl. by rewrite Hevs.
Qed.

(** A forced cycle when nothing fails, for what the collection finds. *)
Lemma cycle_forced_generation st c found :
  reliable P ->
  client (this st) = Some c ->
  collected_files P (files st) [path_join P [projectRoot (this st); "src/main"]]
    (extension (this st)) = Done found ->
  wp (performCodeGenerationCycle P true) st
    (generationPost P (this st) c st found "No test output yet." []).
Proof.
  intros Hrel Hc Hcol. unfold performCodeGenerationCycle.
  apply wp_bind, wp_getThis. apply wp_bind, wp_ret. cbn [negb].
  cycle_to_tail st Hcol.
  apply (generation_end (this st) c st _ found "No test output yet." []);
    [done | done | done | done |].
  by apply emitted_record.
Qed.



(** X9. A runner whose backend was never chosen fails a forced cycle at the
    call of the backend, when the collection succeeds and the session log
    can be appended to: by then it has gathered the files, appended the
    prompt to the session log and announced the generation.  Nothing is
    applied and no test is run. *)
Theorem cycle_without_backend st found :
  client (this st) = None ->
  collected_files P (files st) [path_join P [projectRoot (this st); "src/main"]]
    (extension (this st)) = Done found ->
  append_error P (files st) (path_join P [tmpDir (this st); "session_log.txt"]) = None ->
  wp (performCodeGenerationCycle P true) st (fun o st' =>
    exists gathered stamp,
      let self := this st in
      let prompt := cyclePrompt P self found (files st) "No test output yet." [] in
      o = Stopped (Throw "TypeError: Cannot read properties of undefined (reading 'generateCode')") /\
      this st' = self /\
      files st' = loggedFiles P self (files st) stamp prompt /\
      history st' = history st ++ gathered
                      ++ [ EvAppendFileSync (path_join P [tmpDir self; "session_log.txt"])
                             (logEntry stamp prompt);
                           EvPrint LoggerDebug ["Sending prompt to AI service"];
                           EvPrint StdoutWrite ["Generating code"] ] /\
      Forall gatheringEvent gathered).
Proof.
  intros Hc Hcol Happ. unfold performCodeGenerationCycle.
  apply wp_bind, wp_getThis. apply wp_bind, wp_ret. cbn [negb].
  cycle_to_tail st Hcol.
  match goal with |- wp _ ?s _ =>
    assert (emitted gatheringEvent st s) as He by (by apply emitted_record);
    assert (files s = files st) as Hfs by done;
    set (s5 := s) in *; clearbody s5
  end.
  destruct He as (Ht & _ & _ & evs & Hevs & Hgath).
  apply wp_bind, wp_now.
  apply wp_bind, wp_appendFileSync; [intros _ | intros err Herr; rewrite Hfs in Herr; congruence].
  apply wp_bind, wp_print. apply wp_bind, wp_print. rewrite Hc.
  apply wp_bind, wp_stop. st_simpl.
  set (stamp := toISOString P _).
  exists (rev evs), stamp. cbn zeta. split; [done |]. split; [done |].
  split; [unfold loggedFiles, logEntry, cyclePrompt; cbn [fmap list_fmap]; by rewrite Hfs |].
  split; [| by apply Forall_rev].
  rewrite (generation_history st _ evs
             [ EvPrint StdoutWrite ["Generating code"];
               EvPrint LoggerDebug ["Sending prompt to AI service"];
               EvAppendFileSync (path_join P [tmpDir (this st); "session_log.txt"])
                 (logEntry stamp
                    (cyclePrompt P (this st) found (files st) "No test output yet." [])) ]);
    [done |].
  st_simpl. by rewrite Hevs.
Qed.

(** X28. A failure of the collection is fatal to the cycle: when the directory
    [src/main] cannot be walked, a forced cycle ends with the exception of
    the collector right after the collection was asked for; nothing is read,
    the session log is not written and the backend is not called. *)
Theorem forced_cycle_collection_failure st err :
  let dirs := [path_join P [projectRoot (this st); "src/main"]] in
  collected_files P (files st) dirs (extension (this st)) = Failed err ->
  performCodeGenerationCycle P true st =
    (Stopped (Throw err),
     records [ EvPrint LoggerDebug ["Collecting files for code generation"];
               EvCollectFiles dirs (extension (this st)) ] st).
Proof.
  intros dirs Hfail.
  unfold performCodeGenerationCycle, mbind, M_bind, getThis, print, emit,
    collectFilesWithExtension.
  cbn [negb mret M_ret]. st_simpl. fold dirs. rewrite Hfail. reflexivity.
Qed.

End Generation.

Lemma sample_reliable : reliable Sample.platform.
Proof.
  split; [intros fs dirs ext; cbn; destruct (fs !! _); eauto |].
  repeat split; intros; cbn; eauto.
Qed.



Lemma forced_cycle_collection_failure_witness :
  let st := Sample.ready ∅ [] in
  let dirs := ["/proj/src/main"] in
  performCodeGenerationCycle Sample.strict true st =
    (Stopped (Throw "ENOENT: no such file or directory, scandir '/proj/src/main'"),
     records [ EvPrint LoggerDebug ["Collecting files for code generation"];
               EvCollectFiles dirs (extension (this st)) ] st).
Proof.
  intros st dirs.
  apply (forced_cycle_collection_failure Sample.strict st
           "ENOENT: no such file or directory, scandir '/proj/src/main'").
  reflexivity.
Defined.

Lemma cycle_without_backend_witness :
  let st := Sample.start None Sample.disk [] in
  let found := [{| path := "/proj/src/main/java/org/ex/Thing.java";
                   content := "class Thing {}" |}] in
  wp (performCodeGenerationCycle Sample.platform true) st (fun o st' =>
    exists gathered stamp,
      let self := this st in
      let prompt := cyclePrompt Sample.platform self found (files st) "No test output yet." [] in
      o = Stopped (Throw "TypeError: Cannot read properties of undefined (reading 'generateCode')") /\
      this st' = self /\
      files st' = loggedFiles Sample.platform self (files st) stamp prompt /\
      history st' = history st ++ gathered
                      ++ [ EvAppendFileSync (path_join Sample.platform [tmpDir self; "session_log.txt"])
                             (logEntry stamp prompt);
                           EvPrint LoggerDebug ["Sending prompt to AI service"];
                           EvPrint StdoutWrite ["Generating code"] ] /\
      Forall gatheringEvent gathered).
Proof.
  intros st found.
  apply (cycle_without_backend Sample.platform st found);
    [reflexivity | vm_compute; reflexivity | reflexivity].
Defined.

(** ** The entry script turns every failure into exit code 1 *)

Lemma wp_exitOnError (body : M unit) st (Post : Outcome unit -> State -> Prop) :
  wp body st (fun o st' =>
    match o with
    | Stopped (Throw err) =>
        Post (Stopped (Exit 1)) (record (EvPrint ConsoleError ["Failed to run AI Pair:"; err]) st')
    | _ => Post o st'
    end) ->
  wp (exitOnError body) st Post.
Proof.
  unfold wp, exitOnError. destruct (body st) as [[a|[code|err|]] st']; done.
Qed.

Lemma history_records st evs st' :
  trace st' = rev evs ++ trace st -> history st' = history st ++ evs.
Proof. unfold history. intros ->. by rewrite rev_app_distr, rev_involutive. Qed.

Lemma wp_readFileSync_exact p st Post :
  match files st !! p with
  | Some text => Post (Returned text) (record (EvReadFileSync p) st)
  | None =>
      Post (Stopped (Throw ("ENOENT: no such file or directory, open '" +:+ p +:+ "'")))
        (record (EvReadFileSync p) st)
  end ->
  wp (readFileSync p) st Post.
Proof. unfold wp, readFileSync. by destruct (files st !! p). Qed.

Lemma wp_stopped {A} (m : M A) st why (Q : State -> Prop) :
  wp m st (fun o st' => o = Stopped why /\ Q st') ->
  exists st', m st = (Stopped why, st') /\ Q st'.
Proof. unfold wp. destruct (m st) as [o st']. cbn. intros [-> ?]. eauto. Qed.

Lemma truthy_VString key : key <> "" -> truthy (VString key) = true.
Proof. by destruct key. Qed.

Section Arguments.

Variable P : Platform.

(** X10. A model outside the list of valid models ends the script with exit
    code 1 after the two messages of [validateArgs]: no file is read, no
    runner is built and the user is asked nothing, whatever the other
    arguments are. *)
Theorem main_rejects_unknown_model envJson k1 k2 k3 ll args st :
  arg_model args ∉ VString <$> validModels ->
  exists st',
    main P envJson k1 k2 k3 ll args st = (Stopped (Exit 1), st') /\
    this st' = this st /\ files st' = files st /\ stdin st' = stdin st /\
    history st' = history st ++
      [ EvPrint LoggerDebug ["Loaded environment variables: " +:+ envJson];
        EvPrint LoggerError ["Invalid model: " +:+ to_string (arg_model args)];
        EvPrint ConsoleLog ["Valid models are:"; JS.join ", " validModels] ].
Proof.
  intros Hbad. apply wp_stopped. unfold main. apply wp_exitOnError.
  wp_steps. unfold validateArgs. rewrite bool_decide_eq_false_2 by done.
  wp_steps. repeat split. by apply history_records.
Qed.

(** X11. With a valid model, a project root that is missing or empty ends the
    script with exit code 1 after the usage message, again before any file
    is read. *)
Theorem main_requires_project_root envJson k1 k2 k3 ll args st :
  arg_model args ∈ VString <$> validModels ->
  truthy (arg_project_root args) = false ->
  exists st',
    main P envJson k1 k2 k3 ll args st = (Stopped (Exit 1), st') /\
    this st' = this st /\ files st' = files st /\ stdin st' = stdin st /\
    history st' = history st ++
      [ EvPrint LoggerDebug ["Loaded environment variables: " +:+ envJson];
        EvPrint LoggerError ["The --project-root parameter is required."];
        EvPrint ConsoleLog ["Usage: node AIPair.js --model=<model> --project-root=<path> [--extension=<file_extension>] [--test-dir=<test_directory>]"] ].
Proof.
  intros Hok Hroot. apply wp_stopped. unfold main. apply wp_exitOnError.
  wp_steps. unfold validateArgs. rewrite bool_decide_eq_true_2 by done.
  wp_steps. rewrite Hroot. wp_steps. repeat split. by apply history_records.
Qed.

(** X12. With a valid model and a project root and a test directory given as
    plain text, the root not empty, a prompt file that is missing beside the
    script makes the constructor throw; the script reports the error and
    ends with exit code 1.  The files are read in the order system prompt,
    template; the credentials are not looked at, and nothing is written. *)
Theorem main_missing_prompt_file envJson k1 k2 k3 ll args root td st :
  let sys := path_join P [dirname P; "prompts"; "system_prompt.txt"] in
  let tpl := path_join P [dirname P; "prompts"; "prompt_template.txt"] in
  arg_model args ∈ VString <$> validModels ->
  arg_project_root args = VString root -> root <> "" ->
  arg_test_dir args = VString td ->
  files st !! sys = None \/ files st !! tpl = None ->
  exists st',
    main P envJson k1 k2 k3 ll args st = (Stopped (Exit 1), st') /\
    this st' = this st /\ files st' = files st /\ stdin st' = stdin st /\
    exists reads p,
      (reads = [sys] \/ reads = [sys; tpl]) /\
      last reads = Some p /\ files st !! p = None /\
      history st' = history st ++
        EvPrint LoggerDebug ["Loaded environment variables: " +:+ envJson]
        :: (EvReadFileSync <$> reads)
        ++ [ EvPrint ConsoleError
               ["Failed to run AI Pair:";
                "ENOENT: no such file or directory, open '" +:+ p +:+ "'"] ].
Proof.
  intros sys tpl Hok Hroot Hne Htd Hmiss. apply wp_stopped. unfold main.
  apply wp_exitOnError. wp_steps. unfold validateArgs.
  rewrite bool_decide_eq_true_2 by done. wp_steps.
  rewrite Hroot, Htd, (truthy_VString root Hne). wp_steps. unfold resolveArg. wp_steps.
  unfold constructor. apply wp_bind, wp_readFileSync_exact. st_simpl. fold sys.
  destruct (files st !! sys) as [text|] eqn:Hsys.
  - destruct Hmiss as [? | Htpl]; [done |].
    apply wp_bind, wp_readFileSync_exact. st_simpl. fold tpl. rewrite Htpl.
    repeat split. exists [sys; tpl], tpl. repeat split; auto.
    by apply history_records.
  - repeat split. exists [sys], sys. repeat split; auto.
    by apply history_records.
Qed.

(** X27. With a valid model, a project root that is given but is not plain text
    (a number, as for [--project-root=2024], a boolean or a list) passes
    [validateArgs] when it is truthy and makes [path.resolve] throw: the
    script reports the [TypeError] and ends with exit code 1, before any
    file is read. *)
Theorem main_rejects_untyped_root envJson k1 k2 k3 ll args st :
  arg_model args ∈ VString <$> validModels ->
  truthy (arg_project_root args) = true ->
  (forall s, arg_project_root args <> VString s) ->
  exists st',
    main P envJson k1 k2 k3 ll args st = (Stopped (Exit 1), st') /\
    this st' = this st /\ files st' = files st /\ stdin st' = stdin st /\
    history st' = history st ++
      [ EvPrint LoggerDebug ["Loaded environment variables: " +:+ envJson];
        EvPrint ConsoleError
          ["Failed to run AI Pair:"; invalidPath 0 (arg_project_root args)] ].
Proof.
  intros Hok Hroot Hns. apply wp_stopped. unfold main. apply wp_exitOnError.
  wp_steps. unfold validateArgs. rewrite bool_decide_eq_true_2 by done.
  wp_steps. rewrite Hroot. wp_steps. unfold resolveArg.
  destruct (arg_project_root args) as [| s | | | |] eqn:Hv; try (by destruct (Hns s));
    wp_steps; repeat split; by apply history_records.
Qed.

End Arguments.

Lemma main_rejects_unknown_model_witness :
  let args := mkArgs (VString "gpt-5") (VString "/proj") (VString ".java")
                (VString "src/test/java") in
  let st := Sample.start None Sample.disk ["x"] in
  exists st',
    main Sample.platform "{}" None None None None args st = (Stopped (Exit 1), st') /\
    this st' = this st /\ files st' = files st /\ stdin st' = stdin st /\
    history st' = history st ++
      [ EvPrint LoggerDebug ["Loaded environment variables: " +:+ "{}"];
        EvPrint LoggerError ["Invalid model: " +:+ to_string (arg_model args)];
        EvPrint ConsoleLog ["Valid models are:"; JS.join ", " validModels] ].
Proof.
  intros args st.
  apply (main_rejects_unknown_model Sample.platform "{}" None None None None args st).
  apply (bool_decide_unpack _). vm_compute. exact I.
Defined.

Lemma main_requires_project_root_witness :
  let args := parseArgs None (Some (VNumber "0")) None None in
  let st := Sample.start None Sample.disk ["x"] in
  exists st',
    main Sample.platform "{}" None None None None args st = (Stopped (Exit 1), st') /\
    this st' = this st /\ files st' = files st /\ stdin st' = stdin st /\
    history st' = history st ++
      [ EvPrint LoggerDebug ["Loaded environment variables: " +:+ "{}"];
        EvPrint LoggerError ["The --project-root parameter is required."];
        EvPrint ConsoleLog ["Usage: node AIPair.js --model=<model> --project-root=<path> [--extension=<file_extension>] [--test-dir=<test_directory>]"] ].
Proof.
  intros args st.
  apply (main_requires_project_root Sample.platform "{}" None None None None args st).
  - apply (bool_decide_unpack _). vm_compute. exact I.
  - reflexivity.
Defined.

Lemma main_missing_prompt_file_witness :
  let args := parseArgs None (Some (VString "/proj")) None None in
  let st := Sample.start (Some "sk-1234") ∅ ["x"] in
  let sys := path_join Sample.platform [dirname Sample.platform; "prompts"; "system_prompt.txt"] in
  let tpl := path_join Sample.platform [dirname Sample.platform; "prompts"; "prompt_template.txt"] in
  exists st',
    main Sample.platform "{}" None (Some "sk-1234") None None args st = (Stopped (Exit 1), st') /\
    this st' = this st /\ files st' = files st /\ stdin st' = stdin st /\
    exists reads p,
      (reads = [sys] \/ reads = [sys; tpl]) /\
      last reads = Some p /\ files st !! p = None /\
      history st' = history st ++
        EvPrint LoggerDebug ["Loaded environment variables: " +:+ "{}"]
        :: (EvReadFileSync <$> reads)
        ++ [ EvPrint ConsoleError
               ["Failed to run AI Pair:";
                "ENOENT: no such file or directory, open '" +:+ p +:+ "'"] ].
Proof.
  intros args st sys tpl.
  apply (main_missing_prompt_file Sample.platform "{}" None (Some "sk-1234") None None args
           "/proj" "src/test/java" st).
  - apply (bool_decide_unpack _). vm_compute. exact I.
  - reflexivity.
  - done.
  - reflexivity.
  - left. reflexivity.
Defined.

Lemma main_rejects_untyped_root_witness :
  let args := parseArgs None (Some (VNumber "2024")) None None in
  let st := Sample.start (Some "sk-1234") Sample.disk ["x"] in
  exists st',
    main Sample.platform "{}" None (Some "sk-1234") None None args st = (Stopped (Exit 1), st') /\
    this st' = this st /\ files st' = files st /\ stdin st' = stdin st /\
    history st' = history st ++
      [ EvPrint LoggerDebug ["Loaded environment variables: " +:+ "{}"];
        EvPrint ConsoleError
          ["Failed to run AI Pair:"; invalidPath 0 (arg_project_root args)] ].
Proof.
  intros args st.
  apply (main_rejects_untyped_root Sample.platform "{}" None (Some "sk-1234") None None args st).
  - apply (bool_decide_unpack _). vm_compute. exact I.
  - reflexivity.
  - intros s. discriminate.
Defined.

(** ** Choosing another model *)

Lemma history_recorded evs st : history (records evs st) = history st ++ evs.
Proof. unfold history, records. cbn. by rewrite rev_app_distr, rev_involutive. Qed.

Lemma promptForModel_run typed rest st :
  let answer := JS.trim typed in
  stdin st = typed :: rest ->
  promptForModel st =
  (Returned (if truthy (obj_get modelMap answer) then obj_get modelMap answer
             else VString "gpt-4o"),
   records (modelPromptEvents answer) (set_stdin rest st)).
Proof.
  intros answer Hin. unfold promptForModel. cbn [forEach modelMap_entries].
  unfold mbind, M_bind, print, emit, question, mret, M_ret. st_simpl. by rewrite Hin.
Qed.






Lemma bind_returned {A B} (m : M A) (f : A -> M B) st a st1 :
  m st = (Returned a, st1) -> (m ≫= f) st = f a st1.
Proof. unfold mbind, M_bind. by intros ->. Qed.

Lemma bind_stopped {A B} (m : M A) (f : A -> M B) st why st1 :
  m st = (Stopped why, st1) -> (m ≫= f) st = (Stopped why, st1).
Proof. unfold mbind, M_bind. by intros ->. Qed.

Section ModelChange.

Variable P : Platform.



(** X17. An answer (the typed line, trimmed) that is the name of a property every
    object inherits, such as [constructor] or [toString], selects no model
    but the inherited member itself, which is truthy; the runner's table has
    no family for it, so the process ends with exit code 1, blaming the
    [undefined] model family. *)
Theorem handleModelChange_inherited_name typed rest st :
  let answer := JS.trim typed in
  stdin st = typed :: rest ->
  answer ∈ object_prototype_keys ->
  models (this st) = models_table ->
  truthy (obj_get (apiKeys (this st)) "undefined") = false ->
  handleModelChange P st =
    (Stopped (Exit 1),
     records (modelPromptEvents answer ++ missingKeyEvents "undefined") (set_stdin rest st)).
Proof.
  intros answer Hin Hproto Htable Hno.
  unfold handleModelChange.
  rewrite (bind_returned _ _ _ _ _ (promptForModel_run typed rest st Hin)). fold answer.
  apply bind_stopped. unfold getApiKeyForModel, mbind, M_bind, getThis, records. st_simpl.
  rewrite Htable.
  assert (obj_get modelMap answer = VNative answer
          /\ obj_get models_table (to_string (VNative answer)) = VUndefined) as [-> Hfam].
  { clearbody answer.
    unfold object_prototype_keys in Hproto. rewrite !elem_of_cons, elem_of_nil in Hproto.
    destruct_or! Hproto; subst answer; try done; split; vm_compute; reflexivity. }
  cbn [truthy]. rewrite Hfam. cbn [to_string]. rewrite Hno. done.
Qed.

End ModelChange.



Lemma handleModelChange_inherited_name_witness :
  let st := Sample.ready Sample.disk ["constructor"; "x"] in
  handleModelChange Sample.platform st =
    (Stopped (Exit 1),
     records (modelPromptEvents "constructor" ++ missingKeyEvents "undefined")
       (set_stdin ["x"] st)).
Proof.
  intros st.
  apply (handleModelChange_inherited_name Sample.platform "constructor" ["x"] st);
    first [ reflexivity | idtac ].
  apply (bool_decide_unpack _). vm_compute. exact I.
Defined.

(** ** What [run] sets up *)

Section RunSetup.

Variable P : Platform.

Lemma run_setup st family cls key :
  let c := Client.new cls (VString key) (model (this st)) in
  obj_get (models (this st)) (to_string (model (this st))) = VString family ->
  familyClass family = Some cls ->
  obj_get (apiKeys (this st)) family = VString key ->
  key <> "" ->
  run P st = (handleSingleIteration P false;; startInteractiveLoop P) (runReady P st c key).
Proof.
  intros c Hfam Hcls Hkey Hne.
  assert (credential (this st) (model (this st)) = VString key) as Hcred.
  { unfold credential. rewrite Hfam. done. }
  unfold run, mbind, M_bind, getThis, print, emit, modifyThis, clearDirectory, existsSync.
  st_simpl.
  rewrite getApiKeyForModel_present
    by (st_simpl; rewrite Hcred; by apply truthy_VString).
  st_simpl. rewrite Hcred.
  rewrite (selectAIClient_mapped (VString key) (model (this st)) family cls) by done.
  fold c. cbn [Client.apiKey Client.model c mret M_ret]. st_simpl.
  fold (clearedFiles P (this st) (files st)).
  unfold runReady, runEvents, records. st_simpl.
  destruct (clearedFiles P (this st) (files st) !! _) as [text|] eqn:Hg.
  - rewrite bool_decide_eq_true_2 by eauto.
    unfold readFileSync. st_simpl. rewrite Hg. done.
  - rewrite bool_decide_eq_false_2 by (by intros [? ?]). done.
Qed.

(** X18. For a runner whose model is mapped to a family that has a credential,
    [run] is its first non-forced cycle and the menu loop, started in a state
    where the backend of the family holds the credential and the runner's
    model, the scratch directories have been cleared, and the build
    descriptor has been read after the clearing, the empty string standing
    for a missing file.  The warning of [selectAIClient] is not printed. *)
Theorem run_initialises st family cls key :
  let self := this st in
  let c := Client.new cls (VString key) (model self) in
  let ready := runReady P st c key in
  let gradle := clearedFiles P self (files st) !! path_join P [projectRoot self; "build.gradle.kts"] in
  obj_get (models self) (to_string (model self)) = VString family ->
  familyClass family = Some cls ->
  obj_get (apiKeys self) family = VString key ->
  key <> "" ->
  run P st = (handleSingleIteration P false;; startInteractiveLoop P) ready /\
  client (this ready) = Some c /\
  buildGradleContent (this ready) = VString (default "" gradle) /\
  accumulatedHints (this ready) = accumulatedHints self /\
  files ready = clearedFiles P self (files st) /\
  stdin ready = stdin st /\
  history ready = history st ++ runEvents P self key (bool_decide (is_Some gradle)).
Proof.
  intros self c ready gradle Hfam Hcls Hkey Hne.
  split; [by apply (run_setup st family cls key) |].
  repeat split.
  exact (history_recorded _ (set_files (clearedFiles P self (files st)) st)).
Qed.

Lemma exitOnError_noThrow (body : M unit) st :
  noThrow (body st).1 -> exitOnError body st = body st.
Proof.
  unfold exitOnError. destruct (body st) as [[a|[code|err|]] st']; try done.
  intros H. by destruct (H err).
Qed.

Lemma validModels_families m :
  m ∈ validModels ->
  exists family cls,
    models_table !! m = Some (VString family) /\ familyClass family = Some cls.
Proof.
  unfold validModels. rewrite !elem_of_cons, elem_of_nil. intros H.
  destruct_or! H; subst m; try done; by eexists _, _.
Qed.

Lemma of_option_truthy o :
  truthy (of_option o) = true -> exists key, of_option o = VString key /\ key <> "".
Proof.
  destruct o as [key|]; [|done]. cbn. destruct (String.eqb_spec key ""); [done |].
  intros _. by exists key.
Qed.

(** A runner whose model has a family, and whose credential for that family
    is a string or missing, never makes [run] throw when no collaborator
    fails. *)
Lemma run_noThrow st family cls :
  reliable P ->
  obj_get (models (this st)) (to_string (model (this st))) = VString family ->
  familyClass family = Some cls ->
  (truthy (obj_get (apiKeys (this st)) family) = true ->
   exists key, obj_get (apiKeys (this st)) family = VString key /\ key <> "") ->
  noThrow (run P st).1.
Proof.
  intros Hrel Hfam Hcls Hkeys.
  destruct (truthy (obj_get (apiKeys (this st)) family)) eqn:Ht.
  - destruct Hkeys as (key & Hkey & Hne); [done |].
    rewrite (run_setup st family cls key) by done.
    set (st1 := runReady P st _ key).
    assert (hasBackend st1) as Hb by (by eexists).
    pose proof (handleSingleIteration_returns P Hrel false st1 Hb) as H1.
    unfold wp in H1. unfold mbind, M_bind.
    destruct (handleSingleIteration P false st1) as [o st2]. cbn in H1.
    destruct H1 as [-> Hb2].
    by destruct (startInteractiveLoop_noThrow P Hrel st2 Hb2).
  - assert (truthy (credential (this st) (model (this st))) = false) as Hno.
    { unfold credential. by rewrite Hfam. }
    pose proof (run_missing P st Hno) as H1. unfold wp in H1.
    destruct (run P st) as [o st']. cbn in H1. by destruct H1 as [-> _].
Qed.

Lemma constructed_noThrow m root ext td k1 k2 k3 ll tmp sysText tplText st :
  reliable P ->
  m ∈ validModels ->
  noThrow
    (run P
       (set_this
          {| model := VString m; projectRoot := root; extension := ext; testDir := td;
             apiKeys := <["anthropic" := of_option k1]>
                        (<["openai" := of_option k2]>
                        (<["gemini" := of_option k3]> ∅));
             logLevel := of_option ll; models := models_table; tmpDir := tmp;
             systemPrompt := sysText; promptTemplate := tplText;
             accumulatedHints := []; client := None;
             buildGradleContent := VUndefined |} st)).1.
Proof.
  intros Hrel Hok.
  destruct (validModels_families _ Hok) as (family & cls & Hfam & Hcls).
  apply (run_noThrow _ family cls); [done | | done |]; st_simpl;
    cbn [model models apiKeys to_string]; unfold obj_get.
  - by rewrite Hfam.
  - apply familyClass_cases in Hcls as [[-> ->] | [[-> ->] | [-> ->]]].
    + rewrite lookup_insert_ne, lookup_insert_eq by done. apply of_option_truthy.
    + rewrite lookup_insert_eq. apply of_option_truthy.
    + rewrite !lookup_insert_ne, lookup_insert_eq by done. apply of_option_truthy.
Qed.

(** X19. With a valid model, a project root and a test directory given as plain
    text, the root not empty, and both prompt files in place, the script is
    [run] on the runner that the constructor builds, inside the handler of
    the script; when no collaborator fails, nothing that happens from there
    on throws, so the handler is not entered and does not print [Failed to
    run AI Pair:]. *)
Theorem main_hands_over_to_run envJson k1 k2 k3 ll args m rootArg td st sysText tplText :
  let st0 := record (EvPrint LoggerDebug ["Loaded environment variables: " +:+ envJson]) st in
  let root := path_resolve P [rootArg] in
  arg_model args = VString m -> m ∈ validModels ->
  arg_project_root args = VString rootArg -> rootArg <> "" ->
  arg_test_dir args = VString td ->
  files st !! path_join P [dirname P; "prompts"; "system_prompt.txt"] = Some sysText ->
  files st !! path_join P [dirname P; "prompts"; "prompt_template.txt"] = Some tplText ->
  exists runner st1,
    constructor P (arg_model args) root (path_resolve P [root; td])
      (arg_extension args) k1 k2 k3 ll st0 = (Returned runner, st1) /\
    main P envJson k1 k2 k3 ll args st = exitOnError (run P) (set_this runner st1) /\
    (reliable P ->
     noThrow (run P (set_this runner st1)).1 /\
     main P envJson k1 k2 k3 ll args st = run P (set_this runner st1)).
Proof.
  intros st0 root Hm Hok Hroot Hne Htd Hsys Htpl.
  assert (arg_model args ∈ VString <$> validModels) as Hin
    by (rewrite Hm; by apply list_elem_of_fmap_2).
  eexists _, _. split; [| split].
  - unfold constructor, mbind, M_bind, readFileSync. subst st0. st_simpl. rewrite Hsys.
    st_simpl. rewrite Htpl. reflexivity.
  - unfold main, exitOnError.
    unfold mbind at 1 2 3 4 5 6; unfold M_bind, print, emit, validateArgs, modifyThis.
    rewrite bool_decide_eq_true_2 by done. rewrite Hroot, Htd, (truthy_VString _ Hne).
    unfold mbind at 1; unfold M_bind; cbn [negb mret M_ret resolveArg app].
    unfold constructor, mbind, M_bind, readFileSync; st_simpl; rewrite Hsys.
    st_simpl; rewrite Htpl; cbn [mret M_ret]; st_simpl. reflexivity.
  - intros Hrel. rewrite Hm.
    split; [by apply constructed_noThrow |].
    unfold main.
    rewrite exitOnError_noThrow.
    all: unfold mbind at 1 2 3 4 5 6; unfold M_bind, print, emit, validateArgs, modifyThis.
    all: rewrite bool_decide_eq_true_2 by done; rewrite Hroot, Htd, (truthy_VString _ Hne).
    all: unfold mbind at 1; unfold M_bind; cbn [negb mret M_ret resolveArg app].
    all: unfold constructor, mbind, M_bind, readFileSync; st_simpl; rewrite Hsys.
    all: st_simpl; rewrite Htpl; cbn [mret M_ret]; st_simpl; rewrite Hm.
    + reflexivity.
    + by apply constructed_noThrow.
Qed.

End RunSetup.

Lemma run_initialises_witness :
  let st := Sample.start (Some "sk-1234") Sample.disk ["x"] in
  let self := this st in
  let c := Client.new ChatGPTClient (VString "sk-1234") (model self) in
  let ready := runReady Sample.platform st c "sk-1234" in
  let gradle := clearedFiles Sample.platform self (files st)
                  !! path_join Sample.platform [projectRoot self; "build.gradle.kts"] in
  run Sample.platform st
  = (handleSingleIteration Sample.platform false;; startInteractiveLoop Sample.platform) ready /\
  client (this ready) = Some c /\
  buildGradleContent (this ready) = VString (default "" gradle) /\
  accumulatedHints (this ready) = accumulatedHints self /\
  files ready = clearedFiles Sample.platform self (files st) /\
  stdin ready = stdin st /\
  history ready = history st ++ runEvents Sample.platform self "sk-1234" (bool_decide (is_Some gradle)).
Proof.
  intros st self c ready gradle.
  apply (run_initialises Sample.platform st "openai" ChatGPTClient "sk-1234");
    first [ reflexivity | discriminate ].
Defined.

Lemma main_hands_over_to_run_witness :
  let args := parseArgs None (Some (VString "/proj")) None None in
  let st := Sample.start None Sample.disk ["x"] in
  let st0 := record (EvPrint LoggerDebug ["Loaded environment variables: " +:+ "{}"]) st in
  let root := path_resolve Sample.platform ["/proj"] in
  exists runner st1,
    constructor Sample.platform (arg_model args) root
      (path_resolve Sample.platform [root; "src/test/java"])
      (arg_extension args) None (Some "sk-1234") None None st0 = (Returned runner, st1) /\
    main Sample.platform "{}" None (Some "sk-1234") None None args st
    = exitOnError (run Sample.platform) (set_this runner st1) /\
    (reliable Sample.platform ->
     noThrow (run Sample.platform (set_this runner st1)).1 /\
     main Sample.platform "{}" None (Some "sk-1234") None None args st
     = run Sample.platform (set_this runner st1)).
Proof.
  intros args st st0 root.
  apply (main_hands_over_to_run Sample.platform "{}" None (Some "sk-1234") None None args
           "gpt-4o" "/proj" "src/test/java" st
           "You fix Java code."
           "Tests: {testOutput} Files: {filesContent} Build: {buildGradleContent}").
  - reflexivity.
  - apply (bool_decide_unpack _). vm_compute. exact I.
  - reflexivity.
  - done.
  - reflexivity.
  - vm_compute. reflexivity.
  - vm_compute. reflexivity.
Defined.

(** ** How handlers and the menu loop can end *)

Lemma kept_refl st : kept st st.
Proof. by repeat split. Qed.

Lemma kept_trans st0 st1 st2 : kept st0 st1 -> kept st1 st2 -> kept st0 st2.
Proof. intros (? & ? & ?) (? & ? & ?). repeat split; [congruence.. | lia]. Qed.

Lemma emitted_kept Q st0 st' : emitted Q st0 st' -> kept st0 st'.
Proof. intros (Ht & Hs & Hw & _). unfold kept. by rewrite Ht, Hs, Hw. Qed.

Lemma quiet_benign {A} (o : Outcome A) st : quiet o -> benign o st.
Proof. by destruct o as [|[]]. Qed.

Section Outcomes.

Variable P : Platform.

Lemma cycle_quiet force st0 :
  wp (performCodeGenerationCycle P force) st0 (fun o st' =>
    emitted (fun _ => True) st0 st' /\ quiet o).
Proof.
  unfold performCodeGenerationCycle.
  apply wp_bind, wp_getThis. apply wp_bind.
  eapply wp_mono with (Post := fun o st' => emitted (fun _ => True) st0 st' /\ quiet o).
  { destruct force; cbn [negb]; [wp_steps; split; [apply emitted_refl | done] |].
    wp_steps. apply wp_readFileSync; intros; [| split; [solve_emitted; done | done]].
    match goal with |- context [if ?b then _ else _] => destruct b end;
      wp_steps; (split; [solve_emitted; done | done]). }
  intros [[[testOutput failedTests]|]|why] st1 [He1 Hq]; [| by wp_steps | done].
  wp_steps; [| split; [solve_emitted; done | done]].
  eapply wp_hoare; [apply forEach_print_returns with (Q := fun _ => True) (st0 := st0); done
                   | solve_emitted; done |].
  intros o st2 [[[] ->] He2]. apply wp_bind.
  eapply wp_hoare; [apply collectTestFiles_returns with (Q := fun _ => True) (st0 := st0); done
                   | done |].
  intros o st3 [[testFiles ->] He3]. wp_steps.
  eapply wp_hoare; [apply forEach_print_returns with (Q := fun _ => True) (st0 := st0); done
                   | solve_emitted; done |].
  intros o st4 [[[] ->] He4]. wp_steps; [| split; [solve_emitted; done | done]].
  destruct (client (this st0)) as [c|] eqn:Ec; [| wp_steps; split; [solve_emitted; done | done]].
  wp_steps; try (split; [solve_emitted; done | done]).
  match goal with |- context [if ?b then _ else _] => destruct b end.
  - wp_steps. apply wp_readFileSync; intros; wp_steps; (split; [solve_emitted; done | done]).
  - wp_steps; (split; [solve_emitted; done | done]).
Qed.

Lemma handleSingleIteration_quiet force st0 :
  wp (handleSingleIteration P force) st0 (fun o st' =>
    emitted (fun _ => True) st0 st' /\ quiet o).
Proof.
  unfold handleSingleIteration. apply wp_bind.
  eapply wp_mono; [apply cycle_quiet |].
  intros [r|why] st1 [He Hq]; [|done].
  destruct (result_truthy r); wp_steps; (split; [solve_emitted; done | done]).
Qed.

Lemma handleSingleIteration_kept force st0 st1 :
  kept st0 st1 ->
  wp (handleSingleIteration P force) st1 (fun o st' => kept st0 st' /\ benign o st').
Proof.
  intros Hk. eapply wp_mono; [apply handleSingleIteration_quiet |].
  intros o st' [He Hq]. split; [| by apply quiet_benign].
  eapply kept_trans; [done | by eapply emitted_kept].
Qed.

Lemma kept_record st0 st e : kept st0 st -> kept st0 (record e st).
Proof. done. Qed.

Lemma kept_asked st0 st typed rest :
  kept st0 st -> stdin st = typed :: rest -> kept st0 (set_stdin rest st).
Proof.
  intros (? & ? & Hl) Hin. repeat split; [done.. |]. st_simpl. rewrite Hin in Hl.
  cbn [length] in Hl. lia.
Qed.

Lemma kept_set_this st0 st r :
  kept st0 st -> configuration r = configuration (this st) -> kept st0 (set_this r st).
Proof. intros (? & ? & ?) Hr. repeat split; [st_simpl; congruence | done..]. Qed.

Ltac solve_kept :=
  repeat first
    [ eassumption | apply kept_record
    | apply kept_set_this; [| reflexivity]
    | eapply kept_asked; [| eassumption] ].

Lemma handleHint_kept st0 :
  wp (handleHint P) st0 (fun o st' => kept st0 st' /\ benign o st').
Proof.
  unfold handleHint.
  apply wp_bind, wp_question_typed; [| intros He; split; [apply kept_refl | done]].
  intros typed rest Hin.
  pose proof (kept_refl st0) as Hk.
  destruct (String.eqb (JS.trim typed) ""); wp_steps; apply handleSingleIteration_kept;
    solve_kept.
Qed.

Lemma handleModelChange_kept st0 :
  wp (handleModelChange P) st0 (fun o st' => kept st0 st' /\ benign o st').
Proof.
  unfold handleModelChange, promptForModel, getApiKeyForModel, selectAIClient.
  cbn [forEach modelMap_entries]. wp_steps.
  apply wp_question_typed; [| intros He; split; [solve_kept; apply kept_refl | done]].
  intros typed rest Hin. pose proof (kept_refl st0) as Hk. wp_steps.
  match goal with |- context [if negb ?b then _ else _] => destruct b end; wp_steps;
    [| split; [solve_kept | done]].
  repeat case_decide; wp_steps; apply handleSingleIteration_kept; solve_kept.
Qed.

Lemma menuPost_kept st0 st1 o st' :
  kept st0 st1 -> menuPost P st1 o st' -> menuPost P st0 o st'.
Proof.
  intros (Hc & Hw & _) [Hc' Ho]. split; [congruence |].
  assert (projectRoot (this st1) = projectRoot (this st0)) as Hroot
    by exact (f_equal projectRoot Hc).
  unfold watchDirs in *. rewrite Hroot, Hw in Ho. done.
Qed.

Lemma stopped_menuPost st st2 why :
  kept st st2 -> benign (Stopped why : Outcome unit) st2 ->
  menuPost P st (Stopped why) st2.
Proof.
  intros (Hc & Hw & _) Hb. split; [done |]. split; [done |].
  destruct why as [code|err|]; cbn in Hb; [by right | done | done].
Qed.

(** A handler followed by the rest of the loop. *)
Lemma handler_then_loop (h : M unit) budget st st1 :
  (forall s, length (stdin s) < budget -> wp (interactiveLoop P budget) s (menuPost P s)) ->
  kept st st1 -> length (stdin st1) < budget ->
  wp h st1 (fun o st' => kept st1 st' /\ benign o st') ->
  wp (h;; interactiveLoop P budget) st1 (menuPost P st).
Proof.
  intros IH Hk Hlen Hh. apply wp_bind.
  eapply wp_mono; [exact Hh |].
  intros [[]|why] st2 [Hk2 Hb2].
  - eapply wp_mono; [apply IH; destruct Hk2 as (_ & _ & ?); lia |].
    intros o st'. apply menuPost_kept. by eapply kept_trans.
  - apply stopped_menuPost; [by eapply kept_trans | done].
Qed.

Lemma interactiveLoop_outcomes budget : forall st,
  length (stdin st) < budget -> wp (interactiveLoop P budget) st (menuPost P st).
Proof.
  induction budget as [|budget IH]; intros st Hlen; [lia |]. cbn [interactiveLoop].
  apply wp_bind, wp_question_typed;
    [| intros He; by apply stopped_menuPost; [apply kept_refl |]].
  intros typed rest Hin.
  assert (kept st (record (EvQuestion menuQuery (JS.trim typed)) (set_stdin rest st))) as Hk
    by (pose proof (kept_refl st); solve_kept).
  assert (length rest < budget) as Hrest by (rewrite Hin in Hlen; cbn [length] in Hlen; lia).
  repeat match goal with |- context [if ?b then _ else _] => destruct b end.
  - apply wp_bind, wp_print.
    apply handler_then_loop; [done | solve_kept | done |].
    apply handleSingleIteration_kept, kept_refl.
  - apply handler_then_loop; [done..| apply handleHint_kept].
  - apply handler_then_loop; [done..| apply handleModelChange_kept].
  - wp_steps. split; [done |]. split; [done | by left].
  - unfold watchCode. wp_steps. split; [done |]. split; [done |]. by eexists.
  - apply wp_bind, wp_print.
    eapply wp_mono; [apply IH; done |].
    intros o st'. apply menuPost_kept. solve_kept.
Qed.

(** X20. The menu loop returns only when it has just installed the watcher on
    [src] and [test] below the project root; otherwise it ends the process
    with exit code 0 (the exit choice) or 1 (a model without credential),
    waits for a line when none is left, or lets the exception of a cycle
    through.  When the runner has a backend and no collaborator fails, it
    does not throw.  The runner's configuration is the same at the end,
    whatever was typed. *)
Theorem startInteractiveLoop_outcomes st :
  wp (startInteractiveLoop P) st (fun o st' =>
    menuPost P st o st' /\ (reliable P -> hasBackend st -> noThrow o)).
Proof.
  split.
  - unfold startInteractiveLoop. apply interactiveLoop_outcomes. apply Nat.lt_succ_diag_r.
  - intros Hrel Hb. by destruct (startInteractiveLoop_noThrow P Hrel st Hb).
Qed.

Lemma run_configuration st :
  wp (run P) st (fun _ st' => configuration (this st') = configuration (this st)).
Proof.
  unfold run, getApiKeyForModel, selectAIClient. wp_steps.
  match goal with |- context [if negb ?b then _ else _] => destruct b end; wp_steps;
    [|done].
  assert (forall st1, configuration (this st1) = configuration (this st) ->
    wp (handleSingleIteration P false;; startInteractiveLoop P) st1
      (fun _ st' => configuration (this st') = configuration (this st))) as Htail.
  { intros st1 Hst1. apply wp_bind.
    eapply wp_mono; [apply handleSingleIteration_quiet |].
    intros [[]|why] st2 [(Ht & _) _]; [| st_simpl; congruence].
    eapply wp_mono; [unfold startInteractiveLoop; apply interactiveLoop_outcomes; lia |].
    intros o st3 [Hc _]. congruence. }
  assert (forall c st1, configuration (this st1) = configuration (this st) ->
    wp (modifyThis (set_client c);;
        prefix ← match Client.apiKey c with
                 | VString key => mret (JS.substring0 4 key)
                 | _ => stop (Throw "TypeError: this.client.apiKey.substring is not a function")
                 end;
        print LoggerDebug ["Initialized " +:+ to_string (Client.model c)
                           +:+ " client with API key: " +:+ prefix +:+ "..."];;
        print LoggerDebug ["Clearing temporary directories"];;
        clearDirectory P (tmpDir (this st));;
        clearDirectory P (path_join P [tmpDir (this st); "archive/versions"]);;
        print LoggerDebug ["Reading build.gradle.kts file"];;
        present ← existsSync (path_join P [projectRoot (this st); "build.gradle.kts"]);
        text ← (if present : bool
                then readFileSync (path_join P [projectRoot (this st); "build.gradle.kts"])
                else mret "");
        modifyThis (set_buildGradleContent (VString text));;
        handleSingleIteration P false;;
        startInteractiveLoop P) st1
      (fun _ st' => configuration (this st') = configuration (this st))) as Hrest.
  { intros c st1 Hst1. wp_steps.
    destruct (Client.apiKey c); wp_steps; try done.
    match goal with |- context [if ?b then _ else _] => destruct b end.
    - apply wp_readFileSync; [| done]. intros text _.
      apply wp_bind, wp_modifyThis. by apply Htail.
    - apply wp_ret. apply wp_bind, wp_modifyThis. by apply Htail. }
  repeat case_decide;
    first [ apply wp_ret, Hrest | apply wp_bind, wp_print, wp_ret, Hrest ]; done.
Qed.

Lemma perform_configuration op st :
  wp (perform P op) st (fun _ st' => configuration (this st') = configuration (this st)).
Proof.
  destruct op; cbn [perform].
  - apply run_configuration.
  - eapply wp_mono; [apply handleSingleIteration_quiet |].
    intros o st' [(Ht & _) _]. by rewrite Ht.
  - eapply wp_mono; [apply handleHint_kept |]. by intros o st' [(Hc & _) _].
  - eapply wp_mono; [apply handleModelChange_kept |]. by intros o st' [(Hc & _) _].
  - unfold watchCode. by wp_steps.
  - eapply wp_mono; [unfold startInteractiveLoop; apply interactiveLoop_outcomes; lia |]. by intros o st' [Hc _].
  - unfold onChange. wp_steps.
    eapply wp_mono; [apply handleSingleIteration_quiet |].
    intros o st' [(Ht & _) _]. by rewrite Ht.
Qed.

(** X21. Whatever a process does with its runner, however it ends, the fields
    that the constructor set are as the constructor left them.  In
    particular a change of model replaces the backend but not [this.model],
    and nothing ever touches the root, the scratch directory, the prompt
    texts or the credentials. *)
Theorem session_keeps_configuration ops st :
  configuration (this (session P ops st).2) = configuration (this st).
Proof.
  unfold session. revert st. induction ops as [|op ops IH]; intros st; [done |].
  cbn [forEach]. pose proof (perform_configuration op st) as Hop. unfold wp in Hop.
  unfold mbind, M_bind. destruct (perform P op st) as [[[]|why] st1]; cbn in Hop |- *.
  - by rewrite IH.
  - done.
Qed.

End Outcomes.

(** ** Change events in watch mode *)

Lemma wp_conj {A} (m : M A) st (Post1 Post2 : Outcome A -> State -> Prop) :
  wp m st Post1 -> wp m st Post2 -> wp m st (fun o st' => Post1 o st' /\ Post2 o st').
Proof. by split. Qed.

Lemma count_rev kind (l : list Event) : count kind (rev l) = count kind l.
Proof.
  induction l as [|e l IH]; [done |].
  cbn [rev]. rewrite count_app, IH, !count_cons. cbn [count List.filter length]. lia.
Qed.

Lemma count_history kind st st' added :
  history st' = history st ++ added ->
  count kind (trace st') = count kind (trace st) + count kind added.
Proof.
  unfold history. intros H.
  rewrite <- (rev_involutive (trace st')), H, count_rev, count_app, count_rev. done.
Qed.

Section Watching.

Variable P : Platform.

Lemma gathering_counts gathered :
  Forall gatheringEvent gathered ->
  count isGenerate gathered = 0 /\ count isApply gathered = 0 /\ count isRunTests gathered = 0.
Proof.
  intros H. repeat split; apply count_none; eapply Forall_impl; try exact H;
    by intros [].
Qed.

Lemma generationPost_counts self c st1 found testOutput failedTests o st' :
  generationPost P self c st1 found testOutput failedTests o st' ->
  (exists passed, o = Returned (RBool passed)) /\
  this st' = this st1 /\
  count isGenerate (trace st') = S (count isGenerate (trace st1)) /\
  count isApply (trace st') = S (count isApply (trace st1)) /\
  count isRunTests (trace st') = S (count isRunTests (trace st1)).
Proof.
  intros (gathered & stamp & reply & Ho & Ht & _ & Hh & Hg). cbn zeta in *.
  destruct (gathering_counts gathered Hg) as (Hg1 & Hg2 & Hg3).
  split; [eauto |]. split; [done |].
  repeat split; rewrite (count_history _ _ _ _ Hh), count_app;
    rewrite ?Hg1, ?Hg2, ?Hg3; unfold generationEvents;
    destruct (tests_pass P _ _ _); cbn; lia.
Qed.

(** A forced iteration when nothing fails: one call of the backend, one
    patch and one test run. *)
Lemma forced_iteration_counts st1 c :
  reliable P ->
  client (this st1) = Some c ->
  wp (handleSingleIteration P true) st1 (fun o st' =>
    o = Returned tt /\ stdin st' = stdin st1 /\ this st' = this st1 /\
    count isGenerate (trace st') = S (count isGenerate (trace st1)) /\
    count isApply (trace st') = S (count isApply (trace st1)) /\
    count isRunTests (trace st') = S (count isRunTests (trace st1))).
Proof.
  intros Hrel Hc1.
  destruct (proj1 Hrel (files st1) [path_join P [projectRoot (this st1); "src/main"]]
              (extension (this st1))) as [found Hcol].
  unfold handleSingleIteration. apply wp_bind.
  eapply wp_mono; [apply wp_conj; [apply (cycle_forced_generation P st1 c found); done
                                  | apply (cycle_emits P)] |].
  intros o st2 [Hpost (_ & Hs & _)].
  apply generationPost_counts in Hpost as ([passed ->] & Ht & H1 & H2 & H3).
  destruct passed; wp_steps; st_simpl; rewrite ?count_cons, ?H1, ?H2, ?H3; cbn; done.
Qed.

(** X22. One run of the change listener, taken by itself, when the runner has a
    backend and no collaborator fails: the listener announces the changed
    file, runs one forced cycle and returns; the backend has been called
    once, one reply applied and the tests run once, without a pre-check, and
    the runner is as it was. *)
Theorem change_event_runs_one_cycle filePath st :
  reliable P ->
  hasBackend st ->
  exists st' after,
    onChange P filePath st = (Returned tt, st') /\
    this st' = this st /\
    history st' = history st
                    ++ EvPrint ConsoleLog ["Detected changes in " +:+ filePath +:+ "."] :: after /\
    count isGenerate (trace st') = S (count isGenerate (trace st)) /\
    count isApply (trace st') = S (count isApply (trace st)) /\
    count isRunTests (trace st') = S (count isRunTests (trace st)).
Proof.
  intros Hrel [c Hc].
  pose proof (wp_conj _ _ _ _
                (forced_iteration_counts
                   (record (EvPrint ConsoleLog ["Detected changes in " +:+ filePath +:+ "."]) st)
                   c Hrel Hc)
                (handleSingleIteration_emits P true
                   (record (EvPrint ConsoleLog ["Detected changes in " +:+ filePath +:+ "."]) st)))
    as H.
  unfold wp in H. unfold onChange, mbind, M_bind, print, emit.
  destruct (handleSingleIteration P true _) as [o st'] eqn:Hrun. cbn in H.
  destruct H as [(-> & _ & Ht & H1 & H2 & H3) (_ & _ & _ & evs & Hevs & _)].
  exists st', (rev evs). split; [done |]. split; [done |].
  split; [| by rewrite H1, H2, H3].
  unfold history. rewrite Hevs, rev_app_distr. cbn [trace record rev].
  by rewrite <- app_assoc.
Qed.

End Watching.

Lemma change_event_runs_one_cycle_witness :
  let st := Sample.ready Sample.disk [] in
  let filePath := "/proj/src/main/java/org/ex/Thing.java" in
  exists st' after,
    onChange Sample.platform filePath st = (Returned tt, st') /\
    this st' = this st /\
    history st' = history st
                    ++ EvPrint ConsoleLog ["Detected changes in " +:+ filePath +:+ "."] :: after /\
    count isGenerate (trace st') = S (count isGenerate (trace st)) /\
    count isApply (trace st') = S (count isApply (trace st)) /\
    count isRunTests (trace st') = S (count isRunTests (trace st)).
Proof.
  intros st filePath.
  apply (change_event_runs_one_cycle Sample.platform filePath st);
    [exact sample_reliable | unfold hasBackend; by eexists].
Defined.

(** ** Lines typed at the menu *)

Lemma trimEnd_idempotent s : JS.trimEnd (JS.trimEnd s) = JS.trimEnd s.
Proof.
  induction s as [|c s IH]; [done |]. cbn [JS.trimEnd].
  destruct (JS.trimEnd s) as [|d t] eqn:E.
  - destruct (JS.is_white c) eqn:Hc; [done |]. cbn [JS.trimEnd]. by rewrite Hc.
  - cbn [JS.trimEnd] in IH |- *. by rewrite IH.
Qed.

Lemma trimStart_head s :
  JS.trimStart s = "" \/ exists c t, JS.trimStart s = String c t /\ JS.is_white c = false.
Proof.
  induction s as [|c s IH]; [by left |]. cbn [JS.trimStart].
  destruct (JS.is_white c) eqn:Hc; [done | right; eauto].
Qed.

Lemma trim_idempotent s : JS.trim (JS.trim s) = JS.trim s.
Proof.
  unfold JS.trim. destruct (trimStart_head s) as [-> | (c & t & -> & Hc)]; [done |].
  assert (exists t', JS.trimEnd (String c t) = String c t') as [t' Ht'].
  { cbn [JS.trimEnd]. destruct (JS.trimEnd t); rewrite ?Hc; eauto. }
  rewrite Ht'. cbn [JS.trimStart]. rewrite Hc, <- Ht'. apply trimEnd_idempotent.
Qed.

Section Menu.

Variable P : Platform.

Lemma interactiveLoop_asked budget line rest st :
  stdin st = line :: rest ->
  interactiveLoop P (S budget) st =
  (let userChoice := JS.toLowerCase (JS.trim line) in
   if String.eqb userChoice "c" || String.eqb userChoice "" then
     print ConsoleLog ["Continuing with the next iteration..."];;
     handleSingleIteration P false;;
     interactiveLoop P budget
   else if String.eqb userChoice "h" then
     handleHint P;; interactiveLoop P budget
   else if String.eqb userChoice "m" then
     handleModelChange P;; interactiveLoop P budget
   else if String.eqb userChoice "e" || String.eqb userChoice "x" then
     print ConsoleLog ["Exiting..."];;
     process_exit 0
   else if String.eqb userChoice "w" then
     print ConsoleLog ["Watch mode enabled. Watching for changes in the test directory..."];;
     watchCode P
   else
     print ConsoleLog ["Invalid option. Please try again."];;
     interactiveLoop P budget)
    (record (EvQuestion menuQuery (JS.trim line)) (set_stdin rest st)).
Proof.
  intros Hin. cbn [interactiveLoop]. unfold mbind at 1. unfold M_bind, question.
  rewrite Hin. cbn zeta. by rewrite trim_idempotent.
Qed.

(** X23. The exit choice is read after trimming and lowering the line: any line
    that comes down to [e] or [x] ends the process with exit code 0 after one
    message, and the lines typed after it are never read. *)
Theorem menu_exit line rest st :
  stdin st = line :: rest ->
  JS.toLowerCase (JS.trim line) ∈ ["e"; "x"] ->
  startInteractiveLoop P st =
    (Stopped (Exit 0),
     records [EvQuestion menuQuery (JS.trim line); EvPrint ConsoleLog ["Exiting..."]]
       (set_stdin rest st)).
Proof.
  intros Hin Hchoice. unfold startInteractiveLoop. rewrite Hin. cbn [length].
  rewrite (interactiveLoop_asked _ line rest) by done. cbn zeta.
  rewrite !elem_of_cons, elem_of_nil in Hchoice.
  destruct_or! Hchoice; try done; rewrite Hchoice; reflexivity.
Qed.


End Menu.

Lemma menu_exit_witness :
  let st := Sample.ready Sample.disk [" X "; "c"] in
  startInteractiveLoop Sample.platform st =
    (Stopped (Exit 0),
     records [EvQuestion menuQuery "X"; EvPrint ConsoleLog ["Exiting..."]]
       (set_stdin ["c"] st)).
Proof.
  intros st. apply (menu_exit Sample.platform " X " ["c"] st); [reflexivity |].
  apply (bool_decide_unpack _). vm_compute. exact I.
Defined.


(** ** Iterations *)

Section Iterations.

Variable P : Platform.

(** X25. An iteration whose pre-check passes runs the tests once, reads the
    report back and prints one message; as the cycle then returns
    [undefined], the debug line [All tests passed!] is not logged. *)
Theorem iteration_on_passing_tests st :
  let root := projectRoot (this st) in
  let tmp := tmpDir (this st) in
  let out := path_join P [tmp; "test_output.txt"] in
  tests_pass P (files st) root tmp = true ->
  handleSingleIteration P false st =
    (Returned tt,
     records
       [ EvPrint ConsoleLog ["Performing initial test to determine if changes are needed"];
         EvRunTests root tmp;
         EvReadFileSync out;
         EvPrint ConsoleLog ["Project compiles and all tests passed! No changes needed."] ]
       (set_files (<[out := test_report P (files st) root tmp]> (files st)) st)).
Proof.
  intros root tmp out Hpass.
  unfold handleSingleIteration, performCodeGenerationCycle.
  unfold mbind, M_bind, getThis, print, emit, runTests, readFileSync. cbn [negb]. st_simpl.
  fold root tmp out. rewrite lookup_insert_eq, Hpass. reflexivity.
Qed.


End Iterations.

Lemma iteration_on_passing_tests_witness :
  let st := Sample.ready (<["/proj/fixed" := "yes"]> Sample.disk) [] in
  let root := projectRoot (this st) in
  let tmp := tmpDir (this st) in
  let out := path_join Sample.platform [tmp; "test_output.txt"] in
  handleSingleIteration Sample.platform false st =
    (Returned tt,
     records
       [ EvPrint ConsoleLog ["Performing initial test to determine if changes are needed"];
         EvRunTests root tmp;
         EvReadFileSync out;
         EvPrint ConsoleLog ["Project compiles and all tests passed! No changes needed."] ]
       (set_files (<[out := test_report Sample.platform (files st) root tmp]> (files st)) st)).
Proof.
  intros st root tmp out. apply (iteration_on_passing_tests Sample.platform st).
  vm_compute. reflexivity.
Defined.

